(** * Wine-quality notebooks: preprocessing, model, training loop, metrics
      and checkpointing

    A shallow embedding of the Python code of the two notebooks
    ([pytorch_demo] and the [main.py] script written by [pytorch_aml.ipynb]).
    The notebooks are glue around scikit-learn and PyTorch.  The glue is
    transcribed statement by statement; the library calls it makes
    ([train_test_split], [StandardScaler], [nn.Linear], [nn.Dropout],
    [nn.MSELoss], [DataLoader], [r2_score], [torch.save]/[torch.load]) are
    given by their documented behaviour, with floating point idealised to
    real arithmetic and every source of randomness (the shuffling
    permutation, the dropout masks, the initial weights) passed in as an
    explicit argument. *)

From Stdlib Require Import Ascii String.
From Stdlib Require Import List Arith Bool Lia ZArith QArith Qround.
From Stdlib Require Import Permutation.
From Stdlib Require Import Reals Lra.
Import ListNotations.

Set Implicit Arguments.

Close Scope R_scope.
Close Scope Q_scope.
Close Scope Z_scope.
Open Scope nat_scope.
Open Scope list_scope.

(** ** Python exceptions as an error type *)

Inductive exn : Set :=
| ValueError
| IndexError
| RuntimeError
| TypeError
| ZeroDivisionError
| FileNotFoundError
| NotFittedError
| UnpicklingError.

Inductive result (A : Type) : Type :=
| Ok (a : A)
| Raise (e : exn).

Arguments Ok {A} a.
Arguments Raise {A} e.

Definition bind {A B : Type} (c : result A) (k : A -> result B) : result B :=
  match c with
  | Ok a => k a
  | Raise e => Raise e
  end.

Declare Scope result_scope.
Delimit Scope result_scope with result.
Notation "x <- c ;; k" := (bind c (fun x => k))
  (at level 61, c at next level, right associativity) : result_scope.
Notation "' p <- c ;; k" := (bind c (fun x => let p := x in k))
  (at level 61, p pattern, c at next level, right associativity) : result_scope.

(** The elements of [l] at the positions [idx], positions outside [l]
    skipped. *)
Definition pick {A : Type} (l : list A) (idx : list nat) : list A :=
  flat_map (fun i => match nth_error l i with Some a => [a] | None => [] end) idx.

(** ** Splitting: [sklearn.model_selection.train_test_split] and its two
       uses in [main] *)

Module Split.

Local Open Scope result_scope.

(** [_safe_indexing(a, idx)]: the rows of [a] at the positions [idx], in
    that order; a position outside the array raises. *)
Fixpoint safe_indexing {A : Type} (a : list A) (idx : list nat) : result (list A) :=
  match idx with
  | [] => Ok []
  | i :: rest =>
      match nth_error a i with
      | None => Raise IndexError
      | Some r => rs <- safe_indexing a rest ;; Ok (r :: rs)
      end
  end.

(** [_validate_shuffle_split(n_samples, test_size, train_size=None)] for a
    float [test_size]: the fraction must lie strictly between 0 and 1, the
    held-out part takes [ceil(test_size * n_samples)] rows, the rest is
    the training part, which must not be empty. *)
Definition validate_shuffle_split (n_samples : nat) (test_size : Q)
  : result (nat * nat) :=
  if Qle_bool test_size 0 || Qle_bool 1 test_size then Raise ValueError
  else
    let n_test := Z.to_nat (Qceiling (test_size * inject_Z (Z.of_nat n_samples))%Q) in
    let n_train := n_samples - n_test in
    if n_train =? 0 then Raise ValueError else Ok (n_train, n_test).

(** The partitions built by [main]. *)
Record partitions (A B : Type) : Type := {
  X_train_final : list A;  y_train_final : list B;
  X_val : list A;          y_val : list B;
  X_test : list A;         y_test : list B
}.

Section WithRandomState.

(** [np.random.RandomState(42).permutation(n)]: the generator is seeded
    afresh with the same [random_state=42] at each call, so the
    permutation drawn is a function of [n] alone. *)
Variable rng_permutation : nat -> list nat.

(** [train_test_split(X, y, test_size=..., random_state=42)]:
    [ShuffleSplit] draws one permutation, its first [n_test] entries index
    the test part and the next [n_train] entries the training part; every
    array is indexed with the same positions. *)
Definition train_test_split {A B : Type} (X : list A) (y : list B) (test_size : Q)
  : result (list A * list A * list B * list B) :=
  if negb (length X =? length y) then Raise ValueError
  else
    '(n_train, n_test) <- validate_shuffle_split (length X) test_size ;;
    let permutation := rng_permutation (length X) in
    let ind_test := firstn n_test permutation in
    let ind_train := firstn n_train (skipn n_test permutation) in
    X_train <- safe_indexing X ind_train ;;
    X_test <- safe_indexing X ind_test ;;
    y_train <- safe_indexing y ind_train ;;
    y_test <- safe_indexing y ind_test ;;
    Ok (X_train, X_test, y_train, y_test).

(** [main]: split into train and test with [args.test_train_ratio], then
    split the training part again with [test_size=0.2]. *)
Definition main_split {A B : Type} (X : list A) (y : list B) (test_train_ratio : Q)
  : result (partitions A B) :=
  '(X_train, X_test, y_train, y_test) <- train_test_split X y test_train_ratio ;;
  '(X_train_final, X_val, y_train_final, y_val) <- train_test_split X_train y_train (1 # 5)%Q ;;
  Ok {| X_train_final := X_train_final; y_train_final := y_train_final;
        X_val := X_val; y_val := y_val;
        X_test := X_test; y_test := y_test |}.

End WithRandomState.

End Split.

(** ** Tensors and arrays over the reals *)

Module Tensor.

Local Open Scope R_scope.

Definition sum (l : list R) : R := fold_right Rplus 0 l.

(** [np.mean] / [torch.mean] of a one-dimensional array. *)
Definition mean (l : list R) : R := sum l / INR (length l).

(** [f i x] over the elements [x] of [l] with their positions [i]. *)
Definition mapi {A B : Type} (f : nat -> A -> B) (l : list A) : list B :=
  map (fun ix => f (fst ix) (snd ix)) (combine (seq 0 (length l)) l).

(** A two-dimensional array is the list of its rows. *)
Definition nrows {A : Type} (X : list (list A)) : nat := length X.

Definition ncols {A : Type} (X : list (list A)) : nat :=
  match X with
  | [] => 0%nat
  | r :: _ => length r
  end.

(** Every row of [X] has [d] entries: [X] has shape [(nrows X, d)]. *)
Definition has_width {A : Type} (d : nat) (X : list (list A)) : bool :=
  forallb (fun r => length r =? d)%nat X.

Definition column (X : list (list R)) (j : nat) : list R :=
  map (fun row => nth j row 0) X.

Definition columns (X : list (list R)) : list (list R) :=
  map (column X) (seq 0 (ncols X)).

End Tensor.

(** ** Standardisation: [sklearn.preprocessing.StandardScaler] and its use
       in [main] *)

Module Scaler.

Import Tensor.
Local Open Scope R_scope.
Local Open Scope result_scope.

(** [np.var] with [ddof=0] and the standard deviation derived from it. *)
Definition var (l : list R) : R := mean (map (fun x => (x - mean l) ^ 2) l).

Definition std (l : list R) : R := sqrt (var l).

(** [_handle_zeros_in_scale]: a feature without spread is left unscaled. *)
Definition handle_zeros_in_scale (s : R) : R :=
  if Req_dec_T s 0 then 1 else s.

(** The fitted attributes of a [StandardScaler]. *)
Record fitted : Type := {
  mean_ : list R;
  var_ : list R;
  scale_ : list R
}.

(** A [StandardScaler] object: unfitted after construction, fitted after
    [fit]. *)
Definition StandardScaler : Type := option fitted.

Definition StandardScaler_new : StandardScaler := None.

(** [fit(X)]: per-column mean, variance and scale of [X]; an array without
    rows is refused. *)
Definition fit (X : list (list R)) : result fitted :=
  match X with
  | [] => Raise ValueError
  | _ :: _ =>
      let cols := columns X in
      Ok {| mean_ := map mean cols;
            var_ := map var cols;
            scale_ := map (fun c => handle_zeros_in_scale (sqrt (var c))) cols |}
  end.

(** One row through [(x - mean_) / scale_], feature by feature. *)
Definition scale_row (s : fitted) (row : list R) : list R :=
  map (fun xms => (fst xms - fst (snd xms)) / snd (snd xms))
      (combine row (combine (mean_ s) (scale_ s))).

(** [transform(X)]: needs a fitted scaler, at least one row, and the number
    of features seen by [fit]. *)
Definition transform (scaler : StandardScaler) (X : list (list R))
  : result (list (list R)) :=
  match scaler with
  | None => Raise NotFittedError
  | Some s =>
      match X with
      | [] => Raise ValueError
      | _ :: _ =>
          if has_width (length (mean_ s)) X then Ok (map (scale_row s) X)
          else Raise ValueError
      end
  end.

(** [fit_transform(X)]: [fit(X)] then [transform(X)]; the object is
    overwritten with the statistics of [X], whatever it held before. *)
Definition fit_transform (scaler : StandardScaler) (X : list (list R))
  : result (StandardScaler * list (list R)) :=
  s <- fit X ;;
  Xs <- transform (Some s) X ;;
  Ok (Some s, Xs).

(** What the standardising block of [main] leaves behind. *)
Record standardized : Type := {
  scaler : StandardScaler;
  X_train_scaled : list (list R);
  X_val_scaled : list (list R);
  X_test_scaled : list (list R)
}.

(** [main], "Standardize features". *)
Definition standardize {B : Type} (p : Split.partitions (list R) B)
  : result standardized :=
  let scaler := StandardScaler_new in
  '(scaler, X_train_scaled) <- fit_transform scaler (Split.X_train_final p) ;;
  X_val_scaled <- transform scaler (Split.X_val p) ;;
  X_test_scaled <- transform scaler (Split.X_test p) ;;
  Ok {| scaler := scaler;
        X_train_scaled := X_train_scaled;
        X_val_scaled := X_val_scaled;
        X_test_scaled := X_test_scaled |}.

(** The same block in the demo notebook, which has no validation part. *)
Definition standardize_demo (X_train X_test : list (list R))
  : result (StandardScaler * list (list R) * list (list R)) :=
  let scaler := StandardScaler_new in
  '(scaler, X_train_scaled) <- fit_transform scaler X_train ;;
  X_test_scaled <- transform scaler X_test ;;
  Ok (scaler, X_train_scaled, X_test_scaled).

End Scaler.

(** ** The network: [nn.Linear], [nn.ReLU], [nn.Dropout] and
       [WineQualityNet] *)

Module Net.

Import Tensor.
Local Open Scope R_scope.
Local Open Scope result_scope.

(** [nn.Linear(in_features, out_features)]: a weight of shape
    [(out_features, in_features)] and a bias of shape [(out_features,)]. *)
Record Linear : Type := {
  in_features : nat;
  out_features : nat;
  weight : list (list R);
  bias : list R
}.

(** The values PyTorch draws for a fresh layer, entry by entry. *)
Record initializer : Type := {
  init_weight : nat -> nat -> R;
  init_bias : nat -> R
}.

Definition Linear_new (init : initializer) (n_in n_out : nat) : Linear :=
  {| in_features := n_in;
     out_features := n_out;
     weight := map (fun i => map (init_weight init i) (seq 0 n_in)) (seq 0 n_out);
     bias := map (init_bias init) (seq 0 n_out) |}.

Definition dot (u v : list R) : R :=
  sum (map (fun ab => fst ab * snd ab) (combine u v)).

(** One input row through [x W^T + b]. *)
Definition linear_row (l : Linear) (x : list R) : list R :=
  map (fun wb => dot (fst wb) x + snd wb) (combine (weight l) (bias l)).

(** [Linear.forward] on a batch: the last dimension of the input must be
    [in_features]. *)
Definition Linear_forward (l : Linear) (X : list (list R)) : result (list (list R)) :=
  if has_width (in_features l) X then Ok (map (linear_row l) X)
  else Raise RuntimeError.

Definition relu (x : R) : R := Rmax 0 x.

Definition ReLU_forward (X : list (list R)) : list (list R) := map (map relu) X.

(** The Bernoulli draws of one dropout call: [mask i j] tells whether unit
    [j] of row [i] is kept. *)
Definition mask : Type := nat -> nat -> bool.

(** [nn.Dropout(p).forward]: in training mode a dropped unit becomes 0 and a
    kept one is scaled by [1 / (1 - p)]; in evaluation mode the input is
    returned as it is. *)
Definition Dropout_forward (p : R) (training : bool) (keep : mask)
  (X : list (list R)) : list (list R) :=
  if training then
    mapi (fun i row => mapi (fun j v => if keep i j then v / (1 - p) else 0) row) X
  else X.

(** [WineQualityNet]: four linear layers, the rate of the shared dropout
    module, and the mode flag that [train()] and [eval()] set on the module
    and its children. *)
Record WineQualityNet : Type := {
  fc1 : Linear;
  fc2 : Linear;
  fc3 : Linear;
  fc4 : Linear;
  dropout : R;
  training : bool
}.

(** [__init__(input_dim)]; a new module is in training mode. *)
Definition WineQualityNet_new (init : nat -> initializer) (input_dim : nat)
  : WineQualityNet :=
  {| fc1 := Linear_new (init 1%nat) input_dim 64;
     fc2 := Linear_new (init 2%nat) 64 32;
     fc3 := Linear_new (init 3%nat) 32 16;
     fc4 := Linear_new (init 4%nat) 16 1;
     dropout := 2 / 10;
     training := true |}.

Definition set_training (mode : bool) (m : WineQualityNet) : WineQualityNet :=
  {| fc1 := fc1 m; fc2 := fc2 m; fc3 := fc3 m; fc4 := fc4 m;
     dropout := dropout m; training := mode |}.

(** [model.train()] and [model.eval()]. *)
Definition train (m : WineQualityNet) : WineQualityNet := set_training true m.
Definition eval (m : WineQualityNet) : WineQualityNet := set_training false m.

(** The learnable parameters, in the order of [model.parameters()]. *)
Definition parameters (m : WineQualityNet) : list (list (list R) * list R) :=
  [ (weight (fc1 m), bias (fc1 m)); (weight (fc2 m), bias (fc2 m));
    (weight (fc3 m), bias (fc3 m)); (weight (fc4 m), bias (fc4 m)) ].

(** [forward(x)].  [keep1] and [keep2] are the draws of the two dropout
    calls. *)
Definition forward (m : WineQualityNet) (keep1 keep2 : mask) (x : list (list R))
  : result (list (list R)) :=
  x <- Linear_forward (fc1 m) x ;;
  let x := ReLU_forward x in
  let x := Dropout_forward (dropout m) (training m) keep1 x in
  x <- Linear_forward (fc2 m) x ;;
  let x := ReLU_forward x in
  let x := Dropout_forward (dropout m) (training m) keep2 x in
  x <- Linear_forward (fc3 m) x ;;
  let x := ReLU_forward x in
  x <- Linear_forward (fc4 m) x ;;
  Ok x.

(** The network on one sample once dropout is the identity. *)
Definition row_forward (m : WineQualityNet) (x : list R) : list R :=
  linear_row (fc4 m)
    (map relu (linear_row (fc3 m)
       (map relu (linear_row (fc2 m)
          (map relu (linear_row (fc1 m) x)))))).

(** *** The architecture as the specification words it *)

Inductive layer : Type :=
| LinearLayer (l : Linear)
| ReLULayer
| DropoutLayer (p : R) (keep : mask).

Definition apply_layer (training : bool) (ly : layer) (x : list (list R))
  : result (list (list R)) :=
  match ly with
  | LinearLayer l => Linear_forward l x
  | ReLULayer => Ok (ReLU_forward x)
  | DropoutLayer p keep => Ok (Dropout_forward p training keep x)
  end.

Fixpoint compose (training : bool) (layers : list layer) (x : list (list R))
  : result (list (list R)) :=
  match layers with
  | [] => Ok x
  | ly :: rest => y <- apply_layer training ly x ;; compose training rest y
  end.

(** [Linear(64) -> ReLU -> Dropout(p=0.2) -> Linear(32) -> ReLU ->
    Dropout(p=0.2) -> Linear(16) -> ReLU -> Linear(1)]. *)
Definition spec_architecture (m : WineQualityNet) (keep1 keep2 : mask) : list layer :=
  [ LinearLayer (fc1 m); ReLULayer; DropoutLayer (2 / 10) keep1;
    LinearLayer (fc2 m); ReLULayer; DropoutLayer (2 / 10) keep2;
    LinearLayer (fc3 m); ReLULayer;
    LinearLayer (fc4 m) ].

(** The same chain with every dropout replaced by the identity. *)
Definition spec_architecture_eval (m : WineQualityNet) : list layer :=
  [ LinearLayer (fc1 m); ReLULayer;
    LinearLayer (fc2 m); ReLULayer;
    LinearLayer (fc3 m); ReLULayer;
    LinearLayer (fc4 m) ].

(** *** Shapes *)

Definition Linear_shape_ok (l : Linear) : Prop :=
  length (weight l) = out_features l /\
  has_width (in_features l) (weight l) = true /\
  length (bias l) = out_features l.

(** The layer sizes fixed by [__init__] for a given [input_dim]; parameter
    updates and [load_state_dict] change values, never shapes. *)
Definition topology (input_dim : nat) (m : WineQualityNet) : Prop :=
  (in_features (fc1 m) = input_dim /\ out_features (fc1 m) = 64%nat /\
   Linear_shape_ok (fc1 m)) /\
  (in_features (fc2 m) = 64%nat /\ out_features (fc2 m) = 32%nat /\
   Linear_shape_ok (fc2 m)) /\
  (in_features (fc3 m) = 32%nat /\ out_features (fc3 m) = 16%nat /\
   Linear_shape_ok (fc3 m)) /\
  (in_features (fc4 m) = 16%nat /\ out_features (fc4 m) = 1%nat /\
   Linear_shape_ok (fc4 m)) /\
  dropout m = 2 / 10.

(** [x] has shape [(b, d)]. *)
Definition shape2 (b d : nat) (x : list (list R)) : Prop :=
  length x = b /\ has_width d x = true.

End Net.

(** ** A state-and-exception monad for code that mutates an object

    A computation takes the current state and returns the new state together
    with a value or the exception raised; mutations made before an
    exception stay in the state, as they do in Python. *)

Module StateExn.

Definition M (S A : Type) : Type := S -> result A * S.

Definition ret {S A : Type} (a : A) : M S A := fun s => (Ok a, s).

Definition raise {S A : Type} (e : exn) : M S A := fun s => (Raise e, s).

Definition mbind {S A B : Type} (c : M S A) (k : A -> M S B) : M S B :=
  fun s =>
    match c s with
    | (Ok a, s') => k a s'
    | (Raise e, s') => (Raise e, s')
    end.

Definition get {S : Type} : M S S := fun s => (Ok s, s).

Definition modify {S : Type} (f : S -> S) : M S unit := fun s => (Ok tt, f s).

Definition lift {S A : Type} (r : result A) : M S A := fun s => (r, s).

(** A [for] loop over [l] that carries the local variable [a]. *)
Fixpoint foldM {S A B : Type} (body : A -> B -> M S A) (a : A) (l : list B) : M S A :=
  match l with
  | [] => ret a
  | b :: rest => mbind (body a b) (fun a' => foldM body a' rest)
  end.

Declare Scope state_scope.
Delimit Scope state_scope with state.
Notation "x <~ c ;; k" := (mbind c (fun x => k))
  (at level 61, c at next level, right associativity) : state_scope.
Notation "c ;;; k" := (mbind c (fun _ => k))
  (at level 61, right associativity) : state_scope.

End StateExn.

(** ** The training loop: [DataLoader], [nn.MSELoss], [train_epoch] and
       [validate] *)

Module Train.

Import Tensor Net StateExn.
Local Open Scope R_scope.

(** Tensors of rank 0, 1 and 2. *)
Inductive tensor : Type :=
| T0 (x : R)
| T1 (v : list R)
| T2 (X : list (list R)).

(** [.squeeze()] on a rank-2 tensor: every dimension of size 1 goes. *)
Definition squeeze (X : list (list R)) : tensor :=
  match X with
  | [row] =>
      match row with
      | [x] => T0 x
      | _ => T1 row
      end
  | _ => if has_width 1 X then T1 (map (fun r => hd 0 r) X) else T2 X
  end.

(** Broadcasting views a tensor of lower rank as one row. *)
Definition view2 (t : tensor) : list (list R) :=
  match t with
  | T0 x => [[x]]
  | T1 v => [v]
  | T2 X => X
  end.

(** Two sizes broadcast when they agree or one of them is 1. *)
Definition broadcast_dim (a b : nat) : result nat :=
  if (a =? b)%nat then Ok a
  else if (a =? 1)%nat then Ok b
  else if (b =? 1)%nat then Ok a
  else Raise RuntimeError.

Definition expand_row (k : nat) (row : list R) : list R :=
  if (length row =? k)%nat then row else repeat (hd 0 row) k.

Definition expand (b k : nat) (X : list (list R)) : list (list R) :=
  map (expand_row k) (if (nrows X =? b)%nat then X else repeat (hd [] X) b).

(** [nn.MSELoss()] with its default [reduction='mean']: the mean of the
    squared differences of the two tensors after broadcasting. *)
Definition MSELoss (input target : tensor) : result R :=
  let a := view2 input in
  let b := view2 target in
  (n <- broadcast_dim (nrows a) (nrows b) ;;
   k <- broadcast_dim (ncols a) (ncols b) ;;
   let a := concat (expand n k a) in
   let b := concat (expand n k b) in
   Ok (mean (map (fun xy => (fst xy - snd xy) ^ 2) (combine a b))))%result.

(** A [TensorDataset(X, y)]: sample [i] is the pair [(X[i], y[i])]. *)
Definition TensorDataset : Type := list (list R * R).

Record DataLoader : Type := {
  dataset : TensorDataset;
  batch_size : nat;
  shuffle : bool
}.

(** [DataLoader(dataset, batch_size=..., shuffle=...)]; a batch size that is
    not positive is refused. *)
Definition DataLoader_new (ds : TensorDataset) (bs : nat) (sh : bool)
  : result DataLoader :=
  if (bs =? 0)%nat then Raise ValueError
  else Ok {| dataset := ds; batch_size := bs; shuffle := sh |}.

(** [len(dataloader)]: the number of batches, the last one possibly
    short. *)
Definition len (dl : DataLoader) : nat :=
  ((length (dataset dl) + batch_size dl - 1) / batch_size dl)%nat.

Fixpoint chunks_fuel {A : Type} (fuel bs : nat) (l : list A) : list (list A) :=
  match fuel with
  | O => []
  | S fuel' =>
      match l with
      | [] => []
      | _ :: _ => firstn bs l :: chunks_fuel fuel' bs (skipn bs l)
      end
  end.

(** Consecutive groups of [bs] elements; [length l] rounds always
    suffice. *)
Definition chunks {A : Type} (bs : nat) (l : list A) : list (list A) :=
  chunks_fuel (length l) bs l.

(** The batches of one pass over the loader.  [order] is the permutation a
    shuffling loader draws for this pass; a loader that does not shuffle
    goes through the samples in order. *)
Definition batches (dl : DataLoader) (order : list nat) : list TensorDataset :=
  let samples := if shuffle dl then pick (dataset dl) order else dataset dl in
  chunks (batch_size dl) samples.

Definition batch_X (b : TensorDataset) : list (list R) := map fst b.
Definition batch_y (b : TensorDataset) : tensor := T1 (map snd b).

(** The random draws of one training pass: the sample order and, for each
    batch, the two dropout masks. *)
Record draws : Type := {
  order : list nat;
  keep1 : nat -> mask;
  keep2 : nat -> mask
}.

Definition no_draw : mask := fun _ _ => true.

Local Open Scope state_scope.

(** [validate(model, dataloader, criterion, device)].  The model is the
    state; [criterion] is [nn.MSELoss()] at every call; moving a batch to
    the device leaves its values as they are; under [torch.no_grad()] no
    gradient is recorded.  [order] is the draw of the loader for this
    pass. *)
Definition validate (dataloader : DataLoader) (order : list nat)
  : M WineQualityNet R :=
  modify eval ;;;
  total_loss <~ foldM (fun total_loss b =>
      model <~ get ;;
      outputs <~ lift (forward model no_draw no_draw (batch_X b)) ;;
      let outputs := squeeze outputs in
      loss <~ lift (MSELoss outputs (batch_y b)) ;;
      ret (total_loss + loss))
    0 (batches dataloader order) ;;
  if (len dataloader =? 0)%nat then raise ZeroDivisionError
  else ret (total_loss / INR (len dataloader)).

(** The loss of one batch under a given model and given dropout draws: the
    forward pass, [squeeze] and the criterion of the loop bodies. *)
Definition batch_loss (m : WineQualityNet) (keep1 keep2 : mask) (b : TensorDataset)
  : result R :=
  (outputs <- forward m keep1 keep2 (batch_X b) ;;
   MSELoss (squeeze outputs) (batch_y b))%result.

(** The prediction of the model in evaluation mode for one sample, and the
    squared error of that prediction. *)
Definition predict (m : WineQualityNet) (x : list R) : R :=
  match forward (eval m) no_draw no_draw [x] with
  | Ok [[o]] => o
  | _ => 0
  end.

Definition squared_error (m : WineQualityNet) (s : list R * R) : R :=
  (predict m (fst s) - snd s) ^ 2.

(** The mean squared error of the model over all samples of a partition. *)
Definition partition_mse (m : WineQualityNet) (ds : TensorDataset) : R :=
  mean (map (squared_error m) ds).

(** The draw of a pass suits the loader: a shuffling loader gets a
    permutation of its sample positions. *)
Definition order_ok (dl : DataLoader) (order : list nat) : Prop :=
  shuffle dl = true -> Permutation order (seq 0 (length (dataset dl))).

Section WithOptimizer.

(** The state of [optim.Adam] and the effect of
    [optimizer.zero_grad(); loss.backward(); optimizer.step()] for the
    loss of one batch, on the model and on the optimizer. *)
Variable OptState : Type.
Variable backward_step :
  WineQualityNet -> OptState -> mask -> mask -> TensorDataset ->
  WineQualityNet * OptState.

(** [train_epoch(model, dataloader, criterion, optimizer, device)].  The
    model and the optimizer are the state. *)
Definition train_epoch (dataloader : DataLoader) (rnd : draws)
  : M (WineQualityNet * OptState) R :=
  modify (fun s => (train (fst s), snd s)) ;;;
  total_loss <~ foldM (fun total_loss ib =>
      let i := fst ib in
      let b := snd ib in
      s <~ get ;;
      outputs <~ lift (forward (fst s) (keep1 rnd i) (keep2 rnd i) (batch_X b)) ;;
      let outputs := squeeze outputs in
      loss <~ lift (MSELoss outputs (batch_y b)) ;;
      modify (fun s => backward_step (fst s) (snd s) (keep1 rnd i) (keep2 rnd i) b) ;;;
      ret (total_loss + loss))
    0 (let bs := batches dataloader (order rnd) in combine (seq 0 (length bs)) bs) ;;
  if (len dataloader =? 0)%nat then raise ZeroDivisionError
  else ret (total_loss / INR (len dataloader)).

(** The training pass as a relation: from state [s], the numbered batches
    give the losses [ls] one after the other, each computed by the model
    as the previous steps left it, and the pass ends in state [s']. *)
Inductive train_steps (rnd : draws)
  : WineQualityNet * OptState -> list (nat * TensorDataset) -> list R ->
    WineQualityNet * OptState -> Prop :=
| train_steps_nil (s : WineQualityNet * OptState) :
    train_steps rnd s [] [] s
| train_steps_cons (s s' : WineQualityNet * OptState) (i : nat) (b : TensorDataset)
    (rest : list (nat * TensorDataset)) (l : R) (ls : list R) :
    batch_loss (fst s) (keep1 rnd i) (keep2 rnd i) b = Ok l ->
    train_steps rnd (backward_step (fst s) (snd s) (keep1 rnd i) (keep2 rnd i) b)
                rest ls s' ->
    train_steps rnd s ((i, b) :: rest) (l :: ls) s'.

(** The variables of [main] that the epoch loop updates. *)
Record run : Type := {
  model : WineQualityNet;
  optimizer : OptState;
  train_losses : list R;
  val_losses : list R
}.

(** Run [c] on one component of the state. *)
Definition zoom {S T A : Type} (proj : S -> T) (upd : T -> S -> S) (c : M T A)
  : M S A :=
  fun s => let (r, t) := c (proj s) in (r, upd t s).

Definition on_model_optimizer {A : Type} (c : M (WineQualityNet * OptState) A)
  : M run A :=
  zoom (fun s => (model s, optimizer s))
       (fun mo s => {| model := fst mo; optimizer := snd mo;
                       train_losses := train_losses s;
                       val_losses := val_losses s |})
       c.

Definition on_model {A : Type} (c : M WineQualityNet A) : M run A :=
  zoom model
       (fun m s => {| model := m; optimizer := optimizer s;
                      train_losses := train_losses s;
                      val_losses := val_losses s |})
       c.

(** One turn of the epoch loop of [main]: the training phase, then the
    validation phase, each followed by the [append] of its average.  The
    two phases are written out in the loop body of [main]; they are the
    bodies of [train_epoch] and [validate].  [val_order] is the draw of the
    validation loader, which in [main] does not shuffle and ignores it. *)
Definition epoch (train_loader val_loader : DataLoader) (rnd : draws)
  (val_order : list nat) : M run unit :=
  avg_train_loss <~ on_model_optimizer (train_epoch train_loader rnd) ;;
  modify (fun s => {| model := model s; optimizer := optimizer s;
                      train_losses := train_losses s ++ [avg_train_loss];
                      val_losses := val_losses s |}) ;;;
  avg_val_loss <~ on_model (validate val_loader val_order) ;;
  modify (fun s => {| model := model s; optimizer := optimizer s;
                      train_losses := train_losses s;
                      val_losses := val_losses s ++ [avg_val_loss] |}).

End WithOptimizer.

End Train.

(** ** Evaluation: [sklearn.metrics.mean_squared_error] and [r2_score] *)

Module Metrics.

Import Tensor.
Local Open Scope R_scope.
Local Open Scope result_scope.

(** What [r2_score] hands back: a number, or NaN accompanied by an
    [UndefinedMetricWarning]. *)
Inductive score : Type :=
| Finite (r : R)
| NaN_with_warning.

(** The input checks shared by the regression metrics: equal lengths and at
    least one sample. *)
Definition check_reg_targets (y_true y_pred : list R) : result unit :=
  if negb (length y_true =? length y_pred)%nat then Raise ValueError
  else if (length y_true =? 0)%nat then Raise ValueError
  else Ok tt.

Definition squared_errors (y_true y_pred : list R) : list R :=
  map (fun tp => (fst tp - snd tp) ^ 2) (combine y_true y_pred).

Definition mean_squared_error (y_true y_pred : list R) : result R :=
  _ <- check_reg_targets y_true y_pred ;;
  Ok (mean (squared_errors y_true y_pred)).

(** [r2_score(y_true, y_pred)] with its default [force_finite=True]: fewer
    than two samples give NaN and a warning; otherwise
    [1 - numerator / denominator], except that a zero denominator (a
    constant [y_true]) gives 1.0 for a perfect prediction and 0.0 for any
    other. *)
Definition r2_score (y_true y_pred : list R) : result score :=
  _ <- check_reg_targets y_true y_pred ;;
  if (length y_pred <? 2)%nat then Ok NaN_with_warning
  else
    let numerator := sum (squared_errors y_true y_pred) in
    let denominator := sum (map (fun t => (t - mean y_true) ^ 2) y_true) in
    if Req_dec_T denominator 0 then
      if Req_dec_T numerator 0 then Ok (Finite 1) else Ok (Finite 0)
    else
      if Req_dec_T numerator 0 then Ok (Finite 1)
      else Ok (Finite (1 - numerator / denominator)).

(** [main], "Calculate metrics". *)
Definition test_metrics (y_test_array predictions : list R)
  : result (R * score * R) :=
  mse <- mean_squared_error y_test_array predictions ;;
  r2 <- r2_score y_test_array predictions ;;
  let rmse := sqrt mse in
  Ok (mse, r2, rmse).

End Metrics.

(** ** Persistence: [state_dict], [load_state_dict], [torch.save] and
       [torch.load], and the two notebook cells that use them *)

Module Persist.

Import Tensor Net Train.
Local Open Scope string_scope.
Local Open Scope result_scope.

Fixpoint lookup {V : Type} (k : string) (d : list (string * V)) : option V :=
  match d with
  | [] => None
  | (k', v) :: rest => if String.eqb k k' then Some v else lookup k rest
  end.

Definition mem (k : string) (l : list string) : bool :=
  existsb (String.eqb k) l.

(** [model.state_dict()]. *)
Definition state_dict (m : WineQualityNet) : list (string * tensor) :=
  [ ("fc1.weight", T2 (weight (fc1 m))); ("fc1.bias", T1 (bias (fc1 m)));
    ("fc2.weight", T2 (weight (fc2 m))); ("fc2.bias", T1 (bias (fc2 m)));
    ("fc3.weight", T2 (weight (fc3 m))); ("fc3.bias", T1 (bias (fc3 m)));
    ("fc4.weight", T2 (weight (fc4 m))); ("fc4.bias", T1 (bias (fc4 m))) ].

Definition parameter_names : list string :=
  [ "fc1.weight"; "fc1.bias"; "fc2.weight"; "fc2.bias";
    "fc3.weight"; "fc3.bias"; "fc4.weight"; "fc4.bias" ].

Definition tensor_shape (t : tensor) : list nat :=
  match t with
  | T0 _ => []
  | T1 v => [length v]
  | T2 X => [nrows X; ncols X]
  end.

Definition same_shape (s t : tensor) : bool :=
  if list_eq_dec Nat.eq_dec (tensor_shape s) (tensor_shape t) then true else false.

(** One entry of the state dict copied into a layer: the key must be
    present and its tensor must have the shape of the parameter it
    replaces. *)
Definition load_weight (sd : list (string * tensor)) (name : string) (l : Linear)
  : result (list (list R)) :=
  match lookup name sd with
  | Some (T2 W) =>
      if same_shape (T2 W) (T2 (weight l)) && has_width (ncols (weight l)) W
      then Ok W else Raise RuntimeError
  | _ => Raise RuntimeError
  end.

Definition load_bias (sd : list (string * tensor)) (name : string) (l : Linear)
  : result (list R) :=
  match lookup name sd with
  | Some (T1 b) =>
      if same_shape (T1 b) (T1 (bias l)) then Ok b else Raise RuntimeError
  | _ => Raise RuntimeError
  end.

Definition load_layer (sd : list (string * tensor)) (prefix : string) (l : Linear)
  : result Linear :=
  W <- load_weight sd (prefix ++ ".weight") l ;;
  b <- load_bias sd (prefix ++ ".bias") l ;;
  Ok {| in_features := in_features l; out_features := out_features l;
        weight := W; bias := b |}.

(** [model.load_state_dict(sd)] with its default [strict=True]: missing
    keys, unexpected keys and size mismatches all raise. *)
Definition load_state_dict (m : WineQualityNet) (sd : list (string * tensor))
  : result WineQualityNet :=
  if negb (forallb (fun kv => mem (fst kv) parameter_names) sd) then Raise RuntimeError
  else
    l1 <- load_layer sd "fc1" (fc1 m) ;;
    l2 <- load_layer sd "fc2" (fc2 m) ;;
    l3 <- load_layer sd "fc3" (fc3 m) ;;
    l4 <- load_layer sd "fc4" (fc4 m) ;;
    Ok {| fc1 := l1; fc2 := l2; fc3 := l3; fc4 := l4;
          dropout := dropout m; training := training m |}.

Section WithOptimizer.

Variable OptState : Type.

(** The dictionary written by the save cell. *)
Record checkpoint : Type := {
  model_state_dict : list (string * tensor);
  optimizer_state_dict : OptState;
  scaler : Scaler.StandardScaler;
  input_dim : nat;
  train_losses : list R;
  val_losses : list R
}.

(** The files of the working directory, latest write first. *)
Definition files : Type := list (string * checkpoint).

Definition normpath (p : string) : string :=
  match p with
  | String "."%char (String "/"%char rest) => rest
  | _ => p
  end.

(** [torch.save(obj, f)]. *)
Definition torch_save (obj : checkpoint) (f : string) (fs : files) : files :=
  (normpath f, obj) :: fs.

(** The keyword parameters of [torch.load] itself, and those of the
    unpickler, to which [torch.load] forwards every other keyword. *)
Definition torch_load_keywords : list string :=
  [ "map_location"; "pickle_module"; "weights_only"; "mmap" ].

Definition unpickler_keywords : list string :=
  [ "fix_imports"; "encoding"; "errors"; "buffers" ].

(** The default of [weights_only] depends on the PyTorch release. *)
Variable weights_only_default : bool.

(** [torch.load(f, **kwargs)]: the file must exist; a keyword that neither
    [torch.load] nor the unpickler knows is a [TypeError]; with
    [weights_only] in force the restricted unpickler refuses a checkpoint
    that holds a [StandardScaler] object. *)
Definition torch_load (fs : files) (f : string) (kwargs : list (string * bool))
  : result checkpoint :=
  match lookup (normpath f) fs with
  | None => Raise FileNotFoundError
  | Some obj =>
      let pickle_load_args :=
        filter (fun kv => negb (mem (fst kv) torch_load_keywords)) kwargs in
      if negb (forallb (fun kv => mem (fst kv) unpickler_keywords) pickle_load_args)
      then Raise TypeError
      else
        let weights_only :=
          match lookup "weights_only" kwargs with
          | Some b => b
          | None => weights_only_default
          end in
        if weights_only then Raise UnpicklingError else Ok obj
  end.

(** The save cell. *)
Definition save_cell (model : WineQualityNet) (optimizer : OptState)
  (scaler : Scaler.StandardScaler) (X_train : list (list R))
  (train_losses val_losses : list R) (fs : files) : files :=
  let model_path := "wine_quality_model.pth" in
  torch_save {| model_state_dict := state_dict model;
                optimizer_state_dict := optimizer;
                scaler := scaler;
                input_dim := ncols X_train;
                train_losses := train_losses;
                val_losses := val_losses |}
             model_path fs.

(** The body of the load cell for a given keyword list.  [init] stands for
    the random initial weights of the fresh model; moving the model to the
    device leaves its values as they are. *)
Definition load_with (kwargs : list (string * bool)) (init : nat -> initializer)
  (fs : files) : result WineQualityNet :=
  checkpoint <- torch_load fs "./wine_quality_model.pth" kwargs ;;
  let input_dim := input_dim checkpoint in
  let model := WineQualityNet_new init input_dim in
  model <- load_state_dict model (model_state_dict checkpoint) ;;
  let model := eval model in
  Ok model.

(** The load cell as the notebook has it. *)
Definition load_cell : (nat -> initializer) -> files -> result WineQualityNet :=
  load_with [("weighta_only", false)].

(** The load cell with the keyword spelled [weights_only]. *)
Definition load_cell_weights_only
  : (nat -> initializer) -> files -> result WineQualityNet :=
  load_with [("weights_only", false)].

End WithOptimizer.

End Persist.

(** ** The table: [wine_data] and its separation into features and
       target *)

Module Frame.

Import Tensor.
Local Open Scope string_scope.

(** A [DataFrame] of numbers: the column labels and the rows. *)
Record DataFrame : Type := {
  columns : list string;
  values : list (list R)
}.

(** The labels of a frame read by [read_csv] are distinct and every row has
    one entry per column. *)
Definition frame_ok (df : DataFrame) : Prop :=
  NoDup (columns df) /\ has_width (length (columns df)) (values df) = true.

(** The position of the first column labelled [label]. *)
Fixpoint index_of (label : string) (cols : list string) : option nat :=
  match cols with
  | [] => None
  | c :: rest =>
      if String.eqb c label then Some 0
      else option_map S (index_of label rest)
  end.

(** A row without the entries of the columns labelled [label]. *)
Fixpoint drop_entries {A : Type} (label : string) (cols : list string) (row : list A)
  : list A :=
  match cols, row with
  | c :: cols', x :: row' =>
      if String.eqb c label then drop_entries label cols' row'
      else x :: drop_entries label cols' row'
  | _, _ => []
  end.

(** [df.drop(label, axis=1).values]; [None] stands for the [KeyError] of a
    label that is no column. *)
Definition drop_values (df : DataFrame) (label : string) : option (list (list R)) :=
  match index_of label (columns df) with
  | None => None
  | Some _ => Some (map (drop_entries label (columns df)) (values df))
  end.

(** [df[label].values] on a frame with distinct labels; [None] stands for
    the [KeyError]. *)
Definition getitem_values (df : DataFrame) (label : string) : option (list R) :=
  match index_of label (columns df) with
  | None => None
  | Some j => Some (map (fun row => nth j row 0%R) (values df))
  end.

(** [df.shape]. *)
Definition shape (df : DataFrame) : nat * nat :=
  (length (values df), length (columns df)).

(** What [main] logs about the table and the two arrays it separates. *)
Record separated : Type := {
  num_samples : nat;
  num_features : Z;
  X : list (list R);
  y : list R
}.

(** [main]: the two [log_metric] calls and "Separate features and
    target". *)
Definition separate (wine_data : DataFrame) : option separated :=
  let num_samples := fst (shape wine_data) in
  let num_features := (Z.of_nat (snd (shape wine_data)) - 1)%Z in
  match drop_values wine_data "quality" with
  | None => None
  | Some X =>
      match getitem_values wine_data "quality" with
      | None => None
      | Some y =>
          Some {| num_samples := num_samples; num_features := num_features;
                  X := X; y := y |}
      end
  end.

End Frame.

(** ** Counting parameters *)

Module Inspect.

Import Tensor Net.

(** [p.numel()] of a weight and of a bias. *)
Definition numel2 (W : list (list R)) : nat := length (concat W).
Definition numel1 (b : list R) : nat := length b.

(** [sum(p.numel() for p in model.parameters())]. *)
Definition total_parameters (m : WineQualityNet) : nat :=
  fold_right Nat.add 0
    (flat_map (fun wb => [numel2 (fst wb); numel1 (snd wb)]) (parameters m)).

End Inspect.

(** ** Evaluation on the test set *)

Module Evaluate.

Import Tensor Net StateExn Train Metrics.
Local Open Scope R_scope.

(** What iterating over an array yields: numbers for a one-dimensional
    array, rows for a two-dimensional one. *)
Inductive item : Type :=
| Scalar (r : R)
| Row (v : list R).

(** The iteration behind [list.extend(tensor.numpy())]; an array without
    dimensions cannot be iterated. *)
Definition elements (t : tensor) : result (list item) :=
  match t with
  | T0 _ => Raise TypeError
  | T1 v => Ok (map Scalar v)
  | T2 X => Ok (map Row X)
  end.

Definition is_scalar (it : item) : bool :=
  match it with
  | Scalar _ => true
  | Row _ => false
  end.

Definition scalars (l : list item) : list R :=
  flat_map (fun it => match it with Scalar r => [r] | Row _ => [] end) l.

Definition rows (l : list item) : list (list R) :=
  flat_map (fun it => match it with Scalar _ => [] | Row v => [v] end) l.

(** [np.array(l)]: numbers make a vector, rows of one length a matrix;
    anything else has no array shape. *)
Definition np_array (l : list item) : result tensor :=
  if forallb is_scalar l then Ok (T1 (scalars l))
  else if forallb (fun it => negb (is_scalar it)) l
          && has_width (ncols (rows l)) (rows l)
       then Ok (T2 (rows l))
       else Raise ValueError.

(** How the regression metrics read their [y_pred]: an array without
    dimensions is no collection, a matrix is accepted only as a single
    column. *)
Definition as_predictions (t : tensor) : result (list R) :=
  match t with
  | T0 _ => Raise TypeError
  | T1 v => Ok v
  | T2 X => if has_width 1 X then Ok (map (fun r => hd 0 r) X) else Raise ValueError
  end.

Local Open Scope state_scope.

(** [main], "Evaluation on test set" and "Calculate metrics".  [order] is
    the draw of the test loader for its pass. *)
Definition main_evaluation (test_loader : DataLoader) (order : list nat)
  : M WineQualityNet (R * score * R) :=
  modify eval ;;;
  lists <~ foldM (fun lists b =>
      let test_predictions := fst lists in
      let test_targets := snd lists in
      model <~ get ;;
      outputs <~ lift (forward model no_draw no_draw (batch_X b)) ;;
      let outputs := squeeze outputs in
      new_predictions <~ lift (elements outputs) ;;
      new_targets <~ lift (elements (batch_y b)) ;;
      ret (test_predictions ++ new_predictions, test_targets ++ new_targets))
    ([], []) (batches test_loader order) ;;
  predictions <~ lift (np_array (fst lists)) ;;
  y_test_array <~ lift (np_array (snd lists)) ;;
  lift (y_true <- as_predictions y_test_array ;;
        y_pred <- as_predictions predictions ;;
        test_metrics y_true y_pred)%result.

(** The demo notebook, "Make predictions" and "Calculate metrics": the
    whole test set goes through the model at once. *)
Definition demo_evaluation (X_test : list (list R)) (y_test : list R)
  : M WineQualityNet (R * score * R) :=
  modify eval ;;;
  model <~ get ;;
  outputs <~ lift (forward model no_draw no_draw X_test) ;;
  let predictions := squeeze outputs in
  lift (y_pred <- as_predictions predictions ;;
        test_metrics y_test y_pred)%result.

(** A batch of any size but one. *)
Definition not_single (b : TensorDataset) : bool := negb (length b =? 1)%nat.

(** The samples of one pass, in the order the loader hands them out. *)
Definition pass (dl : DataLoader) (order : list nat) : TensorDataset :=
  if shuffle dl then pick (dataset dl) order else dataset dl.

End Evaluate.

(** ** The epoch loop as a whole *)

Module Loop.

Import Net StateExn Train.
Local Open Scope state_scope.

Section WithOptimizer.

Variable OptState : Type.
Variable backward_step :
  WineQualityNet -> OptState -> mask -> mask -> TensorDataset ->
  WineQualityNet * OptState.

(** [for epoch in range(epochs)]: one turn per element of [rnds], which
    holds the draws of the training pass and of the validation pass of each
    epoch. *)
Fixpoint training_loop (train_loader val_loader : DataLoader)
  (rnds : list (draws * list nat)) : M (run OptState) unit :=
  match rnds with
  | [] => ret tt
  | rnd :: rest =>
      epoch backward_step train_loader val_loader (fst rnd) (snd rnd) ;;;
      training_loop train_loader val_loader rest
  end.

End WithOptimizer.

End Loop.

(** ** The data preparation of [main] as a whole *)

Module Prepare.

Import Tensor Train.

(** The exceptions of the preparation: those met so far, the [KeyError] of
    a missing column and the [AssertionError] of [TensorDataset]. *)
Inductive failure : Set :=
| Exn (e : exn)
| KeyError
| AssertionError.

Inductive outcome (A : Type) : Type :=
| Done (a : A)
| Failed (f : failure).

Arguments Done {A} a.
Arguments Failed {A} f.

Definition and_then {A B : Type} (c : outcome A) (k : A -> outcome B) : outcome B :=
  match c with
  | Done a => k a
  | Failed f => Failed f
  end.

Definition of_result {A : Type} (r : result A) : outcome A :=
  match r with
  | Ok a => Done a
  | Raise e => Failed (Exn e)
  end.

Definition or_KeyError {A : Type} (o : option A) : outcome A :=
  match o with
  | Some a => Done a
  | None => Failed KeyError
  end.

Declare Scope outcome_scope.
Delimit Scope outcome_scope with outcome.
Notation "x <-- c ;; k" := (and_then c (fun x => k))
  (at level 61, c at next level, right associativity) : outcome_scope.

(** [TensorDataset(X, y)]: the tensors must agree in their first
    dimension. *)
Definition TensorDataset_new (X : list (list R)) (y : list R) : outcome TensorDataset :=
  if length X =? length y then Done (combine X y) else Failed AssertionError.

(** What the block leaves for the rest of [main]. *)
Record prepared : Type := {
  scaler : Scaler.StandardScaler;
  train_loader : DataLoader;
  val_loader : DataLoader;
  test_loader : DataLoader;
  input_dim : nat
}.

Section WithRandomState.

Variable rng_permutation : nat -> list nat.

Local Open Scope outcome_scope.

(** [main], from "Separate features and target" to the three loaders;
    [input_dim] is the [X_train_final.shape[1]] the model is built with. *)
Definition prepare_data (wine_data : Frame.DataFrame) (test_train_ratio : Q)
  (batch_size : nat) : outcome prepared :=
  sp <-- or_KeyError (Frame.separate wine_data) ;;
  p <-- of_result (Split.main_split rng_permutation (Frame.X sp) (Frame.y sp)
                     test_train_ratio) ;;
  st <-- of_result (Scaler.standardize p) ;;
  train_dataset <-- TensorDataset_new (Scaler.X_train_scaled st) (Split.y_train_final p) ;;
  val_dataset <-- TensorDataset_new (Scaler.X_val_scaled st) (Split.y_val p) ;;
  test_dataset <-- TensorDataset_new (Scaler.X_test_scaled st) (Split.y_test p) ;;
  train_loader <-- of_result (DataLoader_new train_dataset batch_size true) ;;
  val_loader <-- of_result (DataLoader_new val_dataset batch_size false) ;;
  test_loader <-- of_result (DataLoader_new test_dataset batch_size false) ;;
  Done {| scaler := Scaler.scaler st;
          train_loader := train_loader;
          val_loader := val_loader;
          test_loader := test_loader;
          input_dim := ncols (Split.X_train_final p) |}.

End WithRandomState.

(** The record [main] is left with once the split and the scaler have
    returned [p] and [st]. *)
Definition loaders_of (p : Split.partitions (list R) R) (st : Scaler.standardized)
  (batch_size : nat) : prepared :=
  {| scaler := Scaler.scaler st;
     train_loader := {| dataset := combine (Scaler.X_train_scaled st)
                                           (Split.y_train_final p);
                        Train.batch_size := batch_size; shuffle := true |};
     val_loader := {| dataset := combine (Scaler.X_val_scaled st) (Split.y_val p);
                      Train.batch_size := batch_size; shuffle := false |};
     test_loader := {| dataset := combine (Scaler.X_test_scaled st) (Split.y_test p);
                       Train.batch_size := batch_size; shuffle := false |};
     input_dim := ncols (Split.X_train_final p) |}.

End Prepare.

(** ** Small concrete inputs *)

Module Examples.

Local Open Scope R_scope.

(** Two training rows, one validation row and one test row of a table with
    a single feature. *)
Definition one_feature : Split.partitions (list R) nat :=
  {| Split.X_train_final := [[1]; [3]]; Split.y_train_final := [5; 6]%nat;
     Split.X_val := [[2]];              Split.y_val := [5]%nat;
     Split.X_test := [[5]];             Split.y_test := [7]%nat |}.

(** A freshly built model for two features, all of whose initial weights
    and biases are 0. *)
Definition zero_init : nat -> Net.initializer :=
  fun _ => {| Net.init_weight := fun _ _ => 0; Net.init_bias := fun _ => 0 |}.

Definition zero_model : Net.WineQualityNet := Net.WineQualityNet_new zero_init 2.

(** A loader over no samples, and one over three samples in batches of
    two. *)
Definition empty_loader : Train.DataLoader :=
  {| Train.dataset := []; Train.batch_size := 32; Train.shuffle := false |}.

Definition three_samples : Train.TensorDataset :=
  [([1; 2], 0); ([3; 4], 0); ([5; 6], 3)].

Definition uneven_loader : Train.DataLoader :=
  {| Train.dataset := three_samples; Train.batch_size := 2; Train.shuffle := false |}.

(** [n] samples of two features: the first [bs] have target 1, the others
    target 0. *)
Definition marked_samples (n bs : nat) : Train.TensorDataset :=
  repeat ([0; 0], 1) bs ++ repeat ([0; 0], 0) (n - bs).

Definition marked_loader (n bs : nat) : Train.DataLoader :=
  {| Train.dataset := marked_samples n bs; Train.batch_size := bs;
     Train.shuffle := false |}.

End Examples.

(** ** More concrete inputs *)

Module Samples.

Local Open Scope R_scope.
Local Open Scope string_scope.

(** A table of two features and the target, five rows. *)
Definition small_frame : Frame.DataFrame :=
  {| Frame.columns := ["alcohol"; "quality"; "pH"];
     Frame.values := [[9; 5; 3]; [10; 6; 3]; [11; 5; 4]; [12; 7; 3]; [13; 6; 4]] |}.

(** An optimizer that leaves the model as it is. *)
Definition idle_step (m : Net.WineQualityNet) (o : unit) (k1 k2 : Net.mask)
  (b : Train.TensorDataset) : Net.WineQualityNet * unit := (m, o).

Definition plain_draws : Train.draws :=
  {| Train.order := []; Train.keep1 := fun _ => Train.no_draw;
     Train.keep2 := fun _ => Train.no_draw |}.

(** Four samples of two features, not shuffled, in batches of two. *)
Definition even_loader : Train.DataLoader :=
  {| Train.dataset := [([1; 2], 0); ([3; 4], 1); ([5; 6], 2); ([7; 8], 3)];
     Train.batch_size := 2; Train.shuffle := false |}.

Definition fresh_run : Train.run unit :=
  {| Train.model := Examples.zero_model; Train.optimizer := tt;
     Train.train_losses := []; Train.val_losses := [] |}.

(** One feature that takes a single value in the training rows and other
    values in the validation row and the test row. *)
Definition constant_feature : Split.partitions (list R) nat :=
  {| Split.X_train_final := [[2]; [2]]; Split.y_train_final := [5; 6]%nat;
     Split.X_val := [[5]];              Split.y_val := [5]%nat;
     Split.X_test := [[7]];             Split.y_test := [7]%nat |}.

End Samples.

(** * Properties *)

Unset Implicit Arguments.

(** ** Splitting *)

Section SplitFacts.

Import Split.

Lemma bind_ok {A B : Type} (c : result A) (k : A -> result B) (b : B) :
  bind c k = Ok b -> exists a, c = Ok a /\ k a = Ok b.
Proof.
  destruct c as [a | e]; simpl; intros H.
  - exists a. split; [reflexivity | exact H].
  - discriminate H.
Qed.

Lemma In_firstn {A : Type} (n : nat) (l : list A) (x : A) :
  In x (firstn n l) -> In x l.
Proof.
  intros H. rewrite <- (firstn_skipn n l). apply in_or_app. now left.
Qed.

Lemma In_skipn {A : Type} (n : nat) (l : list A) (x : A) :
  In x (skipn n l) -> In x l.
Proof.
  intros H. rewrite <- (firstn_skipn n l). apply in_or_app. now right.
Qed.

Lemma pick_app {A : Type} (l : list A) (i j : list nat) :
  pick l (i ++ j) = pick l i ++ pick l j.
Proof. unfold pick. apply flat_map_app. Qed.

Lemma pick_in_range {A : Type} (l : list A) (idx : list nat) :
  Forall (fun i => i < length l) idx -> length (pick l idx) = length idx.
Proof.
  induction 1 as [ | i idx Hi _ IH]; simpl; [reflexivity | ].
  destruct (nth_error l i) eqn:E.
  - simpl. now rewrite IH.
  - apply nth_error_None in E. lia.
Qed.

Lemma pick_seq_from {A : Type} (pre l : list A) :
  pick (pre ++ l) (seq (length pre) (length l)) = l.
Proof.
  revert pre. induction l as [ | a l IH]; intros pre; simpl; [reflexivity | ].
  rewrite nth_error_app2 by lia. rewrite Nat.sub_diag. simpl. f_equal.
  specialize (IH (pre ++ [a])).
  rewrite <- app_assoc, length_app in IH. simpl in IH.
  rewrite Nat.add_1_r in IH. exact IH.
Qed.

Lemma pick_seq {A : Type} (l : list A) : pick l (seq 0 (length l)) = l.
Proof. exact (pick_seq_from [] l). Qed.

Lemma pick_Permutation {A : Type} (l : list A) (idx : list nat) :
  Permutation idx (seq 0 (length l)) -> Permutation (pick l idx) l.
Proof.
  intros H. rewrite <- (pick_seq l) at 2.
  unfold pick. now apply Permutation_flat_map.
Qed.

Lemma pick_pick {A : Type} (l : list A) (idx idx' : list nat) :
  Forall (fun i => i < length l) idx ->
  pick (pick l idx) idx' = pick l (pick idx idx').
Proof.
  intros Hin. induction idx' as [ | k idx' IH]; simpl; [reflexivity | ].
  rewrite pick_app, <- IH. f_equal. clear IH.
  revert k. induction Hin as [ | i idx Hi _ IH]; intros k; simpl.
  - now destruct k.
  - destruct (nth_error l i) eqn:E; [ | apply nth_error_None in E; lia].
    destruct k; simpl; [now rewrite E | apply IH].
Qed.

Lemma safe_indexing_pick {A : Type} (a : list A) (idx : list nat) (rs : list A) :
  safe_indexing a idx = Ok rs ->
  rs = pick a idx /\ Forall (fun i => i < length a) idx.
Proof.
  revert rs. induction idx as [ | i idx IH]; simpl; intros rs H.
  - inversion H. split; [reflexivity | constructor].
  - destruct (nth_error a i) eqn:E; [ | discriminate H].
    apply bind_ok in H. destruct H as (rs' & Hrs & H). inversion H; subst.
    destruct (IH _ Hrs) as [-> Hall]. split; [reflexivity | ].
    constructor; [ | exact Hall].
    apply nth_error_Some. now rewrite E.
Qed.

Lemma safe_indexing_total {A : Type} (a : list A) (idx : list nat) :
  Forall (fun i => i < length a) idx -> safe_indexing a idx = Ok (pick a idx).
Proof.
  induction 1 as [ | i idx Hi _ IH]; simpl; [reflexivity | ].
  destruct (nth_error a i) eqn:E; [ | apply nth_error_None in E; lia].
  now rewrite IH.
Qed.

Lemma Permutation_seq_in_range (idx : list nat) (n : nat) :
  Permutation idx (seq 0 n) -> Forall (fun i => i < n) idx.
Proof.
  intros H. apply Forall_forall. intros i Hi.
  apply (Permutation_in _ H) in Hi. apply in_seq in Hi. lia.
Qed.

Lemma validate_shuffle_split_sizes (n : nat) (q : Q) (n_train n_test : nat) :
  validate_shuffle_split n q = Ok (n_train, n_test) ->
  n_train + n_test = n /\ 0 < n_train.
Proof.
  unfold validate_shuffle_split.
  destruct (Qle_bool q 0 || Qle_bool 1 q); [discriminate | ].
  destruct (Nat.eqb_spec (n - Z.to_nat (Qceiling (q * inject_Z (Z.of_nat n)))) 0);
    [discriminate | ].
  intros H. inversion H; subst. lia.
Qed.

Variable rng_permutation : nat -> list nat.
Hypothesis rng_permutation_ok :
  forall n, Permutation (rng_permutation n) (seq 0 n).

(** One call of [train_test_split], read off its index lists. *)
Lemma train_test_split_indices {A B : Type} (X : list A) (y : list B) (q : Q)
  (X_tr X_te : list A) (y_tr y_te : list B) :
  train_test_split rng_permutation X y q = Ok (X_tr, X_te, y_tr, y_te) ->
  exists n_train n_test,
    validate_shuffle_split (length X) q = Ok (n_train, n_test) /\
    length y = length X /\
    X_tr = pick X (skipn n_test (rng_permutation (length X))) /\
    X_te = pick X (firstn n_test (rng_permutation (length X))) /\
    y_tr = pick y (skipn n_test (rng_permutation (length X))) /\
    y_te = pick y (firstn n_test (rng_permutation (length X))).
Proof.
  unfold train_test_split.
  destruct (Nat.eqb_spec (length X) (length y)) as [Hlen | ]; [ | discriminate].
  simpl. intros H.
  apply bind_ok in H. destruct H as ([n_train n_test] & Hv & H).
  exists n_train, n_test. split; [exact Hv | ]. split; [now symmetry | ].
  destruct (validate_shuffle_split_sizes _ _ _ _ Hv) as [Hsum Hpos].
  pose proof (Permutation_length (rng_permutation_ok (length X))) as HP.
  rewrite length_seq in HP.
  rewrite firstn_all2 in H by (rewrite length_skipn; lia).
  apply bind_ok in H. destruct H as (a1 & H1 & H).
  apply bind_ok in H. destruct H as (a2 & H2 & H).
  apply bind_ok in H. destruct H as (a3 & H3 & H).
  apply bind_ok in H. destruct H as (a4 & H4 & H).
  inversion H; subst.
  apply safe_indexing_pick in H1, H2, H3, H4.
  intuition.
Qed.

(** Whenever the fraction is admissible and leaves a training row, the call
    returns. *)
Lemma train_test_split_returns {A B : Type} (X : list A) (y : list B) (q : Q)
  (n_train n_test : nat) :
  length y = length X ->
  validate_shuffle_split (length X) q = Ok (n_train, n_test) ->
  exists X_tr X_te y_tr y_te,
    train_test_split rng_permutation X y q = Ok (X_tr, X_te, y_tr, y_te).
Proof.
  intros Hlen Hv. unfold train_test_split.
  rewrite Hlen, Nat.eqb_refl. simpl. rewrite Hv. simpl.
  pose proof (Permutation_seq_in_range _ _ (rng_permutation_ok (length X))) as Hall.
  assert (Hte : Forall (fun i => i < length X)
                  (firstn n_test (rng_permutation (length X))))
    by (apply Forall_forall; intros i Hi; apply In_firstn in Hi;
        revert i Hi; now apply Forall_forall).
  assert (Htr : Forall (fun i => i < length X)
                  (firstn n_train (skipn n_test (rng_permutation (length X)))))
    by (apply Forall_forall; intros i Hi; apply In_firstn, In_skipn in Hi;
        revert i Hi; now apply Forall_forall).
  rewrite (safe_indexing_total X _ Htr), (safe_indexing_total X _ Hte). simpl.
  assert (Htr' : Forall (fun i => i < length y)
                   (firstn n_train (skipn n_test (rng_permutation (length X)))))
    by (rewrite Hlen; exact Htr).
  assert (Hte' : Forall (fun i => i < length y)
                   (firstn n_test (rng_permutation (length X))))
    by (rewrite Hlen; exact Hte).
  rewrite (safe_indexing_total y _ Htr'), (safe_indexing_total y _ Hte'). simpl.
  now eexists _, _, _, _.
Qed.

Lemma NoDup_app_disjoint {A : Type} (l1 l2 : list A) :
  NoDup (l1 ++ l2) -> forall x, In x l1 -> ~ In x l2.
Proof.
  induction l1 as [ | a l1 IH]; simpl; intros H x Hx; [contradiction | ].
  inversion H as [ | ? ? Hnot Hnd]; subst.
  destruct Hx as [-> | Hx]; [ | now apply IH].
  intros Hin. apply Hnot, in_or_app. now right.
Qed.

(** C3.  The three partitions built by [main] are the rows of the table at
    three lists of row positions that are pairwise disjoint and together
    list every position of the table exactly once; the targets are split
    at the same positions; and the row counts add up to the row count of
    the table. *)
Theorem main_split_disjoint_exhaustive {A B : Type}
  (X : list A) (y : list B) (q : Q) (p : partitions A B) :
  main_split rng_permutation X y q = Ok p ->
  exists i_train i_val i_test : list nat,
    (safe_indexing X i_train = Ok (X_train_final p) /\
     safe_indexing X i_val = Ok (X_val p) /\
     safe_indexing X i_test = Ok (X_test p)) /\
    (safe_indexing y i_train = Ok (y_train_final p) /\
     safe_indexing y i_val = Ok (y_val p) /\
     safe_indexing y i_test = Ok (y_test p)) /\
    ((forall i, In i i_train -> ~ In i i_val) /\
     (forall i, In i i_train -> ~ In i i_test) /\
     (forall i, In i i_val -> ~ In i i_test)) /\
    NoDup (i_train ++ i_val ++ i_test) /\
    Permutation (i_train ++ i_val ++ i_test) (seq 0 (length X)) /\
    length (X_train_final p) + length (X_val p) + length (X_test p) = length X.
Proof.
  unfold main_split. intros H.
  apply bind_ok in H. destruct H as ([[[X_tr X_te] y_tr] y_te] & H1 & H).
  apply bind_ok in H. destruct H as ([[[X_trf X_va] y_trf] y_va] & H2 & H).
  inversion H; subst p; clear H. simpl.
  apply train_test_split_indices in H1.
  destruct H1 as (n1 & t1 & Hv1 & Hy1 & HXtr & HXte & Hytr & Hyte).
  apply train_test_split_indices in H2.
  destruct H2 as (n2 & v2 & Hv2 & Hy2 & HXtrf & HXva & Hytrf & Hyva).
  set (P := rng_permutation (length X)) in *.
  set (P' := rng_permutation (length X_tr)) in *.
  pose proof (rng_permutation_ok (length X)) as HP. fold P in HP.
  pose proof (rng_permutation_ok (length X_tr)) as HP'. fold P' in HP'.
  pose proof (Permutation_seq_in_range _ _ HP) as HPr.
  assert (HI1 : Forall (fun i => i < length X) (skipn t1 P))
    by (apply Forall_forall; intros i Hi; apply In_skipn in Hi;
        revert i Hi; now apply Forall_forall).
  assert (HI1y : Forall (fun i => i < length y) (skipn t1 P))
    by (rewrite Hy1; exact HI1).
  assert (Hlen1 : length X_tr = length (skipn t1 P))
    by (rewrite HXtr; now apply pick_in_range).
  rewrite HXtr, pick_pick in HXtrf, HXva by exact HI1.
  rewrite Hytr, pick_pick in Hytrf, Hyva by exact HI1y.
  set (i_train := pick (skipn t1 P) (skipn v2 P')) in *.
  set (i_val := pick (skipn t1 P) (firstn v2 P')) in *.
  set (i_test := firstn t1 P) in *.
  assert (Hperm : Permutation (i_train ++ i_val ++ i_test) (seq 0 (length X))).
  { rewrite app_assoc.
    transitivity (skipn t1 P ++ i_test); [ | ].
    - apply Permutation_app_tail.
      transitivity (i_val ++ i_train); [apply Permutation_app_comm | ].
      unfold i_val, i_train. rewrite <- pick_app, firstn_skipn.
      apply pick_Permutation. now rewrite <- Hlen1.
    - transitivity P; [ | exact HP].
      transitivity (firstn t1 P ++ skipn t1 P); [apply Permutation_app_comm | ].
      now rewrite firstn_skipn. }
  assert (Hnd : NoDup (i_train ++ i_val ++ i_test))
    by (apply (Permutation_NoDup (Permutation_sym Hperm)), seq_NoDup).
  assert (Hrange : Forall (fun i => i < length X) (i_train ++ i_val ++ i_test))
    by (now apply Permutation_seq_in_range).
  apply Forall_app in Hrange. destruct Hrange as [Rtr Rrest].
  apply Forall_app in Rrest. destruct Rrest as [Rva Rte].
  exists i_train, i_val, i_test.
  split; [ | split; [ | split; [ | split; [exact Hnd | split; [exact Hperm | ]]]]].
  - rewrite HXtrf, HXva, HXte. fold i_test.
    repeat split; now apply safe_indexing_total.
  - rewrite Hytrf, Hyva, Hyte. fold i_test. rewrite <- Hy1 in Rtr, Rva, Rte.
    repeat split; now apply safe_indexing_total.
  - split; [ | split].
    + intros i Hi Hv. apply (NoDup_app_disjoint _ _ Hnd i Hi).
      apply in_or_app. now left.
    + intros i Hi Ht. apply (NoDup_app_disjoint _ _ Hnd i Hi).
      apply in_or_app. now right.
    + apply NoDup_app_remove_l in Hnd. now apply NoDup_app_disjoint.
  - rewrite HXtrf, HXva, HXte. fold i_test.
    rewrite !pick_in_range by assumption.
    apply Permutation_length in Hperm.
    rewrite !length_app, length_seq in Hperm. lia.
Qed.

Lemma train_test_split_lengths {A B : Type} (X : list A) (y : list B) (q : Q)
  (n_train n_test : nat) (X_tr X_te : list A) (y_tr y_te : list B) :
  validate_shuffle_split (length X) q = Ok (n_train, n_test) ->
  train_test_split rng_permutation X y q = Ok (X_tr, X_te, y_tr, y_te) ->
  (length X_tr = n_train /\ length X_te = n_test) /\
  (length y_tr = n_train /\ length y_te = n_test).
Proof.
  intros Hv H. apply train_test_split_indices in H.
  destruct H as (n1 & t1 & Hv1 & Hy & -> & -> & -> & ->).
  rewrite Hv in Hv1. inversion Hv1; subst n1 t1; clear Hv1.
  destruct (validate_shuffle_split_sizes _ _ _ _ Hv) as [Hsum Hpos].
  pose proof (rng_permutation_ok (length X)) as HP.
  pose proof (Permutation_seq_in_range _ _ HP) as HPr.
  apply Permutation_length in HP. rewrite length_seq in HP.
  assert (Hs : Forall (fun i => i < length X)
                 (skipn n_test (rng_permutation (length X))))
    by (apply Forall_forall; intros i Hi; apply In_skipn in Hi;
        revert i Hi; now apply Forall_forall).
  assert (Hf : Forall (fun i => i < length X)
                 (firstn n_test (rng_permutation (length X))))
    by (apply Forall_forall; intros i Hi; apply In_firstn in Hi;
        revert i Hi; now apply Forall_forall).
  rewrite (pick_in_range X _ Hs), (pick_in_range X _ Hf).
  assert (Hs' : Forall (fun i => i < length y)
                  (skipn n_test (rng_permutation (length X))))
    by (rewrite Hy; exact Hs).
  assert (Hf' : Forall (fun i => i < length y)
                  (firstn n_test (rng_permutation (length X))))
    by (rewrite Hy; exact Hf).
  rewrite (pick_in_range y _ Hs'), (pick_in_range y _ Hf').
  rewrite length_skipn, length_firstn. lia.
Qed.

(** The rounding rule at the sizes of the scenario. *)
Lemma validate_shuffle_split_1599 :
  validate_shuffle_split 1599 (1 # 5) = Ok (1279, 320) /\
  validate_shuffle_split 1279 (1 # 5) = Ok (1023, 256).
Proof. split; vm_compute; reflexivity. Qed.

(** C6.  A table of 1599 rows, split with test fraction 0.2 and then again
    with fraction 0.2, gives 1023 training rows, 256 validation rows and
    320 test rows, the held-out part of either split being the ceiling
    of a fifth of the rows it splits. *)
Theorem main_split_1599 {A B : Type} (X : list A) (y : list B) :
  length X = 1599 ->
  length y = 1599 ->
  exists p : partitions A B,
    main_split rng_permutation X y (1 # 5) = Ok p /\
    (length (X_train_final p) = 1023 /\ length (y_train_final p) = 1023) /\
    (length (X_val p) = 256 /\ length (y_val p) = 256) /\
    (length (X_test p) = 320 /\ length (y_test p) = 320) /\
    320%Z = Qceiling ((1 # 5) * inject_Z 1599) /\
    256%Z = Qceiling ((1 # 5) * inject_Z (1599 - 320)).
Proof.
  intros HX Hy. destruct validate_shuffle_split_1599 as [Hv1 Hv2].
  assert (Hv1' : validate_shuffle_split (length X) (1 # 5) = Ok (1279, 320))
    by (now rewrite HX).
  destruct (train_test_split_returns X y (1 # 5) 1279 320) as
    (X_tr & X_te & y_tr & y_te & H1); [congruence | exact Hv1' | ].
  destruct (train_test_split_lengths _ _ _ _ _ _ _ _ _ Hv1' H1)
    as [[LXtr LXte] [Lytr Lyte]].
  assert (Hv2' : validate_shuffle_split (length X_tr) (1 # 5) = Ok (1023, 256))
    by (now rewrite LXtr).
  destruct (train_test_split_returns X_tr y_tr (1 # 5) 1023 256) as
    (X_trf & X_va & y_trf & y_va & H2); [congruence | exact Hv2' | ].
  destruct (train_test_split_lengths _ _ _ _ _ _ _ _ _ Hv2' H2)
    as [[LXtrf LXva] [Lytrf Lyva]].
  eexists. split.
  - unfold main_split. rewrite H1. simpl. rewrite H2. simpl. reflexivity.
  - simpl. repeat split; try assumption; vm_compute; reflexivity.
Qed.

End SplitFacts.

Lemma main_split_disjoint_exhaustive_witness :
  exists i_train i_val i_test : list nat,
    Split.safe_indexing [10; 11; 12; 13; 14] i_train = Ok [12; 13; 14] /\
    Split.safe_indexing [10; 11; 12; 13; 14] i_val = Ok [11] /\
    Split.safe_indexing [10; 11; 12; 13; 14] i_test = Ok [10] /\
    NoDup (i_train ++ i_val ++ i_test) /\
    Permutation (i_train ++ i_val ++ i_test) (seq 0 5).
Proof.
  destruct (main_split_disjoint_exhaustive (fun n => seq 0 n)
              (fun n => Permutation_refl (seq 0 n))
              [10; 11; 12; 13; 14] [0; 1; 2; 3; 4] (1 # 5)
              {| Split.X_train_final := [12; 13; 14]; Split.y_train_final := [2; 3; 4];
                 Split.X_val := [11]; Split.y_val := [1];
                 Split.X_test := [10]; Split.y_test := [0] |}
              eq_refl)
    as (i_train & i_val & i_test & (H1 & H2 & H3) & _ & _ & Hnd & Hperm & _).
  exists i_train, i_val, i_test. repeat split; assumption.
Defined.

Lemma main_split_1599_witness :
  exists p : Split.partitions nat bool,
    Split.main_split (fun n => seq 0 n) (seq 0 1599) (repeat true 1599) (1 # 5) = Ok p /\
    length (Split.X_train_final p) = 1023 /\
    length (Split.X_val p) = 256 /\
    length (Split.X_test p) = 320.
Proof.
  destruct (main_split_1599 (fun n => seq 0 n)
              (fun n => Permutation_refl (seq 0 n))
              (seq 0 1599) (repeat true 1599) eq_refl eq_refl)
    as (p & Hp & [H1 _] & [H2 _] & [H3 _] & _).
  exists p. repeat split; assumption.
Defined.

(** ** Sums and means over the reals *)

Section RealLists.

Import Tensor.
Local Open Scope R_scope.

Lemma sum_app (l1 l2 : list R) : sum (l1 ++ l2) = sum l1 + sum l2.
Proof.
  induction l1 as [ | a l1 IH]; simpl; [lra | ].
  unfold sum in *. simpl. rewrite IH. lra.
Qed.

Lemma sum_map_add {A : Type} (f g : A -> R) (l : list A) :
  sum (map (fun x => f x + g x) l) = sum (map f l) + sum (map g l).
Proof.
  induction l as [ | a l IH]; unfold sum in *; simpl; [lra | rewrite IH; lra].
Qed.

Lemma sum_map_mul {A : Type} (c : R) (f : A -> R) (l : list A) :
  sum (map (fun x => c * f x) l) = c * sum (map f l).
Proof.
  induction l as [ | a l IH]; unfold sum in *; simpl; [lra | rewrite IH; lra].
Qed.

Lemma sum_map_const {A : Type} (c : R) (l : list A) :
  sum (map (fun _ => c) l) = INR (length l) * c.
Proof.
  induction l as [ | a l IH]; [simpl; unfold sum; simpl; lra | ].
  change (length (a :: l)) with (S (length l)). rewrite S_INR.
  unfold sum in *. simpl. rewrite IH. lra.
Qed.

Lemma sum_nonneg (l : list R) : Forall (fun x => 0 <= x) l -> 0 <= sum l.
Proof.
  induction 1 as [ | a l Ha _ IH]; unfold sum in *; simpl; lra.
Qed.

Lemma sum_squares_nonneg {A : Type} (f : A -> R) (l : list A) :
  0 <= sum (map (fun x => f x ^ 2) l).
Proof.
  apply sum_nonneg, Forall_forall. intros y Hy.
  apply in_map_iff in Hy. destruct Hy as (x & <- & _). nra.
Qed.

Lemma square_zero (x : R) : x ^ 2 = 0 -> x = 0.
Proof.
  simpl. intros H.
  destruct (Rmult_integral _ _ H) as [H0 | H0]; [exact H0 | ].
  destruct (Rmult_integral _ _ H0); lra.
Qed.

(** A sum of squares vanishes only if every square does. *)
Lemma sum_squares_zero {A : Type} (f : A -> R) (l : list A) :
  sum (map (fun x => f x ^ 2) l) = 0 -> forall x, In x l -> f x = 0.
Proof.
  induction l as [ | a l IH]; intros H x Hx; [contradiction | ].
  pose proof (sum_squares_nonneg f l) as Hl.
  unfold sum in *. cbn [map fold_right] in H.
  assert (Ha : 0 <= f a ^ 2) by nra.
  destruct Hx as [<- | Hx]; [apply square_zero; lra | ].
  apply IH; [lra | exact Hx].
Qed.

Lemma INR_length_nonzero {A : Type} (l : list A) : l <> [] -> INR (length l) <> 0.
Proof.
  intros H. apply not_0_INR. destruct l; [contradiction | discriminate].
Qed.

Lemma sum_centered (l : list R) :
  l <> [] -> sum (map (fun x => x - mean l) l) = 0.
Proof.
  intros H. pose proof (INR_length_nonzero l H) as Hn.
  replace (map (fun x => x - mean l) l)
    with (map (fun x => (fun y => y) x + (fun _ => - mean l) x) l)
    by (apply map_ext; intros; lra).
  rewrite sum_map_add, map_id, sum_map_const.
  unfold mean. field. exact Hn.
Qed.

End RealLists.

(** ** Standardisation *)

Section ScalerFacts.

Import Tensor Scaler.
Local Open Scope R_scope.

Lemma var_nonneg (l : list R) : 0 <= var l.
Proof.
  unfold var, mean at 1. rewrite length_map.
  destruct l as [ | a l].
  - simpl. unfold sum, Rdiv. simpl. lra.
  - apply Rmult_le_pos.
    + apply (sum_squares_nonneg (fun x => x - mean (a :: l))).
    + left. apply Rinv_0_lt_compat, lt_0_INR. simpl. lia.
Qed.

Lemma var_nonzero_nonempty (l : list R) : var l <> 0 -> l <> [].
Proof.
  intros H ->. apply H. unfold var, mean, sum, Rdiv. simpl. lra.
Qed.

(** A column without spread is constant. *)
Lemma var_zero_constant (l : list R) :
  var l = 0 -> forall x, In x l -> x = mean l.
Proof.
  intros H x Hx.
  assert (Hne : l <> []) by (intros ->; contradiction).
  pose proof (INR_length_nonzero l Hne) as Hn.
  unfold var, mean at 1 in H. rewrite length_map in H.
  assert (Hs : sum (map (fun x => (x - mean l) ^ 2) l) = 0).
  { apply (Rmult_eq_compat_r (INR (length l))) in H.
    unfold Rdiv in H. rewrite Rmult_assoc, Rinv_l in H by exact Hn. lra. }
  pose proof (sum_squares_zero (fun x => x - mean l) l Hs x Hx) as Hx0.
  simpl in Hx0. lra.
Qed.

Lemma handle_zeros_in_scale_nonzero (s : R) : handle_zeros_in_scale s <> 0.
Proof.
  unfold handle_zeros_in_scale. destruct (Req_dec_T s 0); lra.
Qed.

Lemma handle_zeros_in_scale_id (s : R) : s <> 0 -> handle_zeros_in_scale s = s.
Proof.
  intros H. unfold handle_zeros_in_scale. destruct (Req_dec_T s 0); [contradiction | reflexivity].
Qed.

Lemma std_nonzero (l : list R) : var l <> 0 -> std l <> 0.
Proof.
  intros H Hs. apply H. unfold std in Hs.
  apply sqrt_eq_0 in Hs; [exact Hs | apply var_nonneg].
Qed.

(** The mean of a centred and rescaled column is 0, whatever the scale. *)
Lemma mean_standardized (l : list R) (s : R) :
  l <> [] -> mean (map (fun x => (x - mean l) / s) l) = 0.
Proof.
  intros Hne. unfold mean at 1. rewrite length_map.
  replace (map (fun x => (x - mean l) / s) l)
    with (map (fun x => / s * (x - mean l)) l)
    by (apply map_ext; intros; unfold Rdiv; lra).
  rewrite (sum_map_mul (/ s) (fun x => x - mean l)), sum_centered by exact Hne.
  unfold Rdiv. lra.
Qed.

Lemma var_standardized (l : list R) (s : R) :
  l <> [] -> s <> 0 ->
  var (map (fun x => (x - mean l) / s) l) = var l / s ^ 2.
Proof.
  intros Hne Hs. unfold var at 1. rewrite mean_standardized by exact Hne.
  rewrite map_map. unfold var, mean at 1 3. rewrite !length_map.
  replace (map (fun x => ((x - mean l) / s - 0) ^ 2) l)
    with (map (fun x => / s ^ 2 * (x - mean l) ^ 2) l)
    by (apply map_ext; intros; field; exact Hs).
  rewrite (sum_map_mul (/ s ^ 2) (fun x => (x - mean l) ^ 2)).
  field. split; [now apply INR_length_nonzero | exact Hs].
Qed.

(** A column with spread, centred on its mean and divided by its standard
    deviation, has standard deviation 1. *)
Lemma std_standardized (l : list R) :
  var l <> 0 ->
  std (map (fun x => (x - mean l) / handle_zeros_in_scale (std l)) l) = 1.
Proof.
  intros Hv. pose proof (var_nonzero_nonempty l Hv) as Hne.
  pose proof (std_nonzero l Hv) as Hs.
  rewrite handle_zeros_in_scale_id by exact Hs.
  unfold std at 1. rewrite var_standardized by assumption.
  replace (std l ^ 2) with (var l)
    by (unfold std; simpl; rewrite Rmult_1_r, sqrt_def; [reflexivity | apply var_nonneg]).
  unfold Rdiv. rewrite Rinv_r by exact Hv. apply sqrt_1.
Qed.

(** A column without spread is mapped to zeros: its standard deviation
    after scaling is 0. *)
Lemma std_standardized_constant (l : list R) :
  l <> [] -> var l = 0 ->
  std (map (fun x => (x - mean l) / handle_zeros_in_scale (std l)) l) = 0.
Proof.
  intros Hne Hv.
  pose proof (handle_zeros_in_scale_nonzero (std l)) as Hs.
  unfold std at 1. rewrite var_standardized by assumption.
  rewrite Hv. unfold Rdiv. rewrite Rmult_0_l. apply sqrt_0.
Qed.

Lemma fit_ok (X : list (list R)) (s : fitted) :
  fit X = Ok s ->
  X <> [] /\
  mean_ s = map mean (columns X) /\
  var_ s = map var (columns X) /\
  scale_ s = map (fun c => handle_zeros_in_scale (std c)) (columns X).
Proof.
  destruct X as [ | r X]; simpl; intros H; [discriminate | ].
  inversion H; subst; simpl. repeat split. discriminate.
Qed.

Lemma fit_widths (X : list (list R)) (s : fitted) :
  fit X = Ok s ->
  length (mean_ s) = ncols X /\ length (scale_ s) = ncols X.
Proof.
  intros H. destruct (fit_ok X s H) as (_ & -> & _ & ->).
  unfold columns. now rewrite !length_map, length_seq.
Qed.

Lemma transform_ok (s : fitted) (X Xs : list (list R)) :
  transform (Some s) X = Ok Xs ->
  X <> [] /\ has_width (length (mean_ s)) X = true /\ Xs = map (scale_row s) X.
Proof.
  unfold transform. intros H.
  destruct X as [ | r X]; [discriminate | ].
  destruct (has_width (length (mean_ s)) (r :: X)) eqn:E; [ | discriminate].
  inversion H; subst. split; [discriminate | split; reflexivity].
Qed.

(** What the standardising block of [main] computes when it succeeds. *)
Lemma standardize_ok {B : Type} (p : Split.partitions (list R) B) (out : standardized) :
  standardize p = Ok out ->
  exists s : fitted,
    fit (Split.X_train_final p) = Ok s /\
    scaler out = Some s /\
    (X_train_scaled out = map (scale_row s) (Split.X_train_final p) /\
     X_val_scaled out = map (scale_row s) (Split.X_val p) /\
     X_test_scaled out = map (scale_row s) (Split.X_test p)) /\
    (has_width (length (mean_ s)) (Split.X_train_final p) = true /\
     has_width (length (mean_ s)) (Split.X_val p) = true /\
     has_width (length (mean_ s)) (Split.X_test p) = true).
Proof.
  unfold standardize, fit_transform. intros H.
  apply bind_ok in H. destruct H as ([sc Xtr] & H1 & H).
  apply bind_ok in H1. destruct H1 as (s & Hfit & H1).
  apply bind_ok in H1. destruct H1 as (Xtr' & Htr & H1).
  inversion H1; subst sc Xtr'; clear H1.
  apply bind_ok in H. destruct H as (Xva & Hva & H).
  apply bind_ok in H. destruct H as (Xte & Hte & H).
  inversion H; subst out; clear H. simpl.
  apply transform_ok in Htr, Hva, Hte.
  destruct Htr as (_ & Wtr & ->), Hva as (_ & Wva & ->), Hte as (_ & Wte & ->).
  exists s. repeat split; assumption.
Qed.

Lemma has_width_In {A : Type} (d : nat) (X : list (list A)) (row : list A) :
  has_width d X = true -> In row X -> length row = d.
Proof.
  unfold has_width. intros H Hin.
  apply (proj1 (forallb_forall _ _) H) in Hin. now apply Nat.eqb_eq.
Qed.

(** Entry [j] of a scaled row. *)
Lemma nth_scale_row (s : fitted) (row : list R) (j : nat) :
  length row = length (mean_ s) ->
  length (scale_ s) = length (mean_ s) ->
  (j < length row)%nat ->
  nth j (scale_row s row) 0 = (nth j row 0 - nth j (mean_ s) 0) / nth j (scale_ s) 0.
Proof.
  intros Hr Hs Hj. unfold scale_row.
  set (g := fun xms : R * (R * R) => (fst xms - fst (snd xms)) / snd (snd xms)).
  rewrite (nth_indep _ 0 (g (0, (0, 0))))
    by (rewrite length_map, length_combine, length_combine; lia).
  rewrite map_nth, combine_nth by (rewrite length_combine; lia).
  rewrite combine_nth by lia. reflexivity.
Qed.

Lemma nth_columns {T : Type} (f : list R -> T) (d : T) (X : list (list R)) (j : nat) :
  (j < ncols X)%nat -> nth j (map f (columns X)) d = f (column X j).
Proof.
  intros Hj. unfold columns. rewrite map_map.
  rewrite (nth_indep _ d ((fun i => f (column X i)) 0%nat))
    by (now rewrite length_map, length_seq).
  rewrite (map_nth (fun i => f (column X i)) (seq 0 (ncols X)) 0%nat j).
  rewrite seq_nth by exact Hj. reflexivity.
Qed.

(** Column [j] of a table scaled by the statistics fitted on [X0]. *)
Lemma column_scaled (X0 X : list (list R)) (s : fitted) (j : nat) :
  fit X0 = Ok s ->
  has_width (ncols X0) X = true ->
  (j < ncols X0)%nat ->
  column (map (scale_row s) X) j =
  map (fun x => (x - mean (column X0 j)) / handle_zeros_in_scale (std (column X0 j)))
      (column X j).
Proof.
  intros Hfit HW Hj. destruct (fit_widths X0 s Hfit) as [Lm Ls].
  destruct (fit_ok X0 s Hfit) as (_ & Hm & _ & Hsc).
  unfold column. rewrite !map_map. apply map_ext_in. intros row Hrow.
  pose proof (has_width_In _ _ _ HW Hrow) as Hlen.
  rewrite nth_scale_row by lia.
  rewrite Hm, Hsc.
  rewrite (nth_columns mean 0 X0 j Hj).
  rewrite (nth_columns (fun c => handle_zeros_in_scale (std c)) 0 X0 j Hj).
  reflexivity.
Qed.

Lemma fitted_width_is_ncols {B : Type} (p : Split.partitions (list R) B) (s : fitted) :
  fit (Split.X_train_final p) = Ok s ->
  length (mean_ s) = ncols (Split.X_train_final p).
Proof. intros H. now destruct (fit_widths _ _ H). Qed.

(** C1, amended.  The scaler left by [main] holds the per-feature mean and
    standard deviation of the training partition; the three partitions
    are scaled row by row with that one scaler.  Entry [j] of a row becomes
    [(x - mean_j) / std_j] where the training standard deviation of
    feature [j] is not 0, and [x - mean_j] where it is 0: a feature
    without spread in the training rows is divided by 1.  The scaler, like
    the scaled training rows, is the same for any other validation and
    test rows. *)
Theorem standardize_fits_on_train_only {B : Type}
  (p : Split.partitions (list R) B) (out : standardized) :
  standardize p = Ok out ->
  exists s : fitted,
    scaler out = Some s /\
    (mean_ s = map mean (columns (Split.X_train_final p)) /\
     scale_ s = map (fun c => handle_zeros_in_scale (std c))
                    (columns (Split.X_train_final p))) /\
    (X_train_scaled out = map (scale_row s) (Split.X_train_final p) /\
     X_val_scaled out = map (scale_row s) (Split.X_val p) /\
     X_test_scaled out = map (scale_row s) (Split.X_test p)) /\
    (forall (row : list R) (j : nat),
        In row (Split.X_train_final p ++ Split.X_val p ++ Split.X_test p) ->
        (j < ncols (Split.X_train_final p))%nat ->
        let mu := mean (column (Split.X_train_final p) j) in
        let sigma := std (column (Split.X_train_final p) j) in
        nth j (scale_row s row) 0 = (nth j row 0 - mu) / handle_zeros_in_scale sigma /\
        (sigma <> 0 -> nth j (scale_row s row) 0 = (nth j row 0 - mu) / sigma) /\
        (sigma = 0 -> nth j (scale_row s row) 0 = nth j row 0 - mu)) /\
    (forall (p' : Split.partitions (list R) B) (out' : standardized),
        Split.X_train_final p' = Split.X_train_final p ->
        standardize p' = Ok out' ->
        scaler out' = scaler out /\ X_train_scaled out' = X_train_scaled out).
Proof.
  intros H. destruct (standardize_ok p out H)
    as (s & Hfit & Hsc & (Etr & Eva & Ete) & (Wtr & Wva & Wte)).
  destruct (fit_ok _ _ Hfit) as (_ & Hm & _ & Hs).
  destruct (fit_widths _ _ Hfit) as [Lm Ls].
  exists s. split; [exact Hsc | ]. split; [now split | ].
  split; [now repeat split | ]. split.
  - intros row j Hin Hj mu sigma.
    assert (Hlen : length row = length (mean_ s)).
    { apply in_app_or in Hin. destruct Hin as [Hin | Hin];
        [now apply (has_width_In _ _ _ Wtr) | ].
      apply in_app_or in Hin. destruct Hin as [Hin | Hin];
        [now apply (has_width_In _ _ _ Wva) | now apply (has_width_In _ _ _ Wte)]. }
    assert (E : nth j (scale_row s row) 0 =
                (nth j row 0 - mu) / handle_zeros_in_scale sigma).
    { rewrite nth_scale_row by lia. rewrite Hm, Hs.
      rewrite (nth_columns mean 0 _ j Hj).
      rewrite (nth_columns (fun c => handle_zeros_in_scale (std c)) 0 _ j Hj).
      reflexivity. }
    split; [exact E | split].
    + intros Hsig. rewrite E. now rewrite handle_zeros_in_scale_id.
    + intros Hsig. rewrite E, Hsig. unfold handle_zeros_in_scale.
      destruct (Req_dec_T 0 0) as [_ | N]; [field | now contradiction N].
  - intros p' out' Hp' H'.
    destruct (standardize_ok p' out' H') as (s' & Hfit' & Hsc' & (Etr' & _) & _).
    rewrite Hp' in Hfit', Etr'. rewrite Hfit in Hfit'. inversion Hfit'; subst s'.
    split; congruence.
Qed.

(** C5.  After [main] has standardised the partitions, every feature
    column of the scaled training data that had spread before scaling has
    mean 0 and standard deviation 1. *)
Theorem standardized_train_mean_0_std_1 {B : Type}
  (p : Split.partitions (list R) B) (out : standardized) (j : nat) :
  standardize p = Ok out ->
  (j < ncols (Split.X_train_final p))%nat ->
  var (column (Split.X_train_final p) j) <> 0 ->
  mean (column (X_train_scaled out) j) = 0 /\
  std (column (X_train_scaled out) j) = 1.
Proof.
  intros H Hj Hv. destruct (standardize_ok p out H)
    as (s & Hfit & _ & (-> & _ & _) & (Wtr & _ & _)).
  rewrite (fitted_width_is_ncols p s Hfit) in Wtr.
  rewrite (column_scaled _ _ s j Hfit Wtr Hj).
  split.
  - apply mean_standardized, var_nonzero_nonempty, Hv.
  - now apply std_standardized.
Qed.

(** The boundary of C5: a training feature without spread is scaled to a
    column of mean 0 and standard deviation 0. *)
Lemma standardized_constant_feature {B : Type}
  (p : Split.partitions (list R) B) (out : standardized) (j : nat) :
  standardize p = Ok out ->
  (j < ncols (Split.X_train_final p))%nat ->
  var (column (Split.X_train_final p) j) = 0 ->
  mean (column (X_train_scaled out) j) = 0 /\
  std (column (X_train_scaled out) j) = 0.
Proof.
  intros H Hj Hv. destruct (standardize_ok p out H)
    as (s & Hfit & _ & (-> & _ & _) & (Wtr & _ & _)).
  rewrite (fitted_width_is_ncols p s Hfit) in Wtr.
  rewrite (column_scaled _ _ s j Hfit Wtr Hj).
  assert (Hne : column (Split.X_train_final p) j <> []).
  { destruct (fit_ok _ _ Hfit) as (Hne & _). unfold column.
    destruct (Split.X_train_final p); [contradiction | discriminate]. }
  split.
  - now apply mean_standardized.
  - now apply std_standardized_constant.
Qed.

(** The demo notebook standardises in the same way, without a validation
    part: the scaler is fitted on the training rows and reused on the test
    rows. *)
Lemma standardize_demo_ok (X_train X_test : list (list R)) (sc : StandardScaler)
  (X_train_scaled X_test_scaled : list (list R)) :
  standardize_demo X_train X_test = Ok (sc, X_train_scaled, X_test_scaled) ->
  exists s : fitted,
    fit X_train = Ok s /\ sc = Some s /\
    X_train_scaled = map (scale_row s) X_train /\
    X_test_scaled = map (scale_row s) X_test /\
    has_width (ncols X_train) X_train = true.
Proof.
  unfold standardize_demo, fit_transform. intros H.
  apply bind_ok in H. destruct H as ([sc' Xtr] & H1 & H).
  apply bind_ok in H1. destruct H1 as (s & Hfit & H1).
  apply bind_ok in H1. destruct H1 as (Xtr' & Htr & H1).
  inversion H1; subst sc' Xtr'; clear H1.
  apply bind_ok in H. destruct H as (Xte & Hte & H).
  inversion H; subst; clear H.
  apply transform_ok in Htr, Hte.
  destruct Htr as (_ & Wtr & ->), Hte as (_ & _ & ->).
  destruct (fit_widths _ _ Hfit) as [Lm _]. rewrite Lm in Wtr.
  exists s. repeat split; assumption.
Qed.

Lemma standardize_demo_mean_0_std_1 (X_train X_test : list (list R))
  (sc : StandardScaler) (X_train_scaled X_test_scaled : list (list R)) (j : nat) :
  standardize_demo X_train X_test = Ok (sc, X_train_scaled, X_test_scaled) ->
  (j < ncols X_train)%nat ->
  var (column X_train j) <> 0 ->
  mean (column X_train_scaled j) = 0 /\ std (column X_train_scaled j) = 1.
Proof.
  intros H Hj Hv.
  destruct (standardize_demo_ok _ _ _ _ _ H) as (s & Hfit & _ & -> & _ & Wtr).
  rewrite (column_scaled _ _ s j Hfit Wtr Hj). split.
  - apply mean_standardized, var_nonzero_nonempty, Hv.
  - now apply std_standardized.
Qed.

End ScalerFacts.

Lemma one_feature_var :
  Scaler.var (Tensor.column (Split.X_train_final Examples.one_feature) 0) = 1%R.
Proof.
  unfold Scaler.var, Tensor.mean, Tensor.sum. simpl. field.
Qed.

Lemma standardize_fits_on_train_only_witness :
  exists out s,
    Scaler.standardize Examples.one_feature = Ok out /\
    Scaler.scaler out = Some s /\
    Scaler.X_val_scaled out = map (Scaler.scale_row s) [[2%R]].
Proof.
  eexists.
  destruct (standardize_fits_on_train_only Examples.one_feature _ eq_refl)
    as (s & Hs & _ & (_ & Hval & _) & _).
  exists s. split; [reflexivity | ]. split; [exact Hs | exact Hval].
Defined.

Lemma constant_feature_mean_std :
  Tensor.mean [2; 2]%R = 2%R /\ Scaler.std [2; 2]%R = 0%R.
Proof.
  assert (Hm : Tensor.mean [2; 2]%R = 2%R)
    by (unfold Tensor.mean, Tensor.sum; simpl; field).
  split; [exact Hm | ].
  unfold Scaler.std, Scaler.var. rewrite Hm.
  replace (Tensor.mean (map (fun x : R => (x - 2) ^ 2) [2; 2]))%R with 0%R
    by (unfold Tensor.mean, Tensor.sum; simpl; field).
  exact sqrt_0.
Qed.

(** C1 as stated fails: for a feature whose training values are all 2 the
    training standard deviation is 0, and the validation value 5 is scaled
    to 3 and the test value 7 to 5, which is [x - mean] and not
    [(x - mean) / std]: no number times the standard deviation gives
    [x - mean]. *)
Lemma standardize_constant_feature_divides_by_1 :
  let mu := Tensor.mean (Tensor.column (Split.X_train_final Samples.constant_feature) 0) in
  let sigma := Scaler.std (Tensor.column (Split.X_train_final Samples.constant_feature) 0) in
  exists out,
    Scaler.standardize Samples.constant_feature = Ok out /\
    (mu = 2 /\ sigma = 0)%R /\
    (Scaler.X_val_scaled out = [[3%R]] /\ Scaler.X_test_scaled out = [[5%R]]) /\
    (forall v : R, v * sigma <> 5 - mu /\ v * sigma <> 7 - mu)%R.
Proof.
  cbv zeta.
  change (Tensor.column (Split.X_train_final Samples.constant_feature) 0)
    with [2; 2]%R.
  destruct constant_feature_mean_std as [Hm Hs].
  assert (H : exists out, Scaler.standardize Samples.constant_feature = Ok out)
    by (eexists; reflexivity).
  destruct H as [out H]. exists out. split; [exact H | ].
  destruct (standardize_ok Samples.constant_feature out H)
    as (s & Hfit & _ & (_ & Eva & Ete) & _).
  destruct (fit_ok _ _ Hfit) as (_ & Hmean & _ & Hscale).
  change (Tensor.columns (Split.X_train_final Samples.constant_feature))
    with [[2; 2]]%R in Hmean, Hscale.
  cbn [map] in Hmean, Hscale. rewrite Hm in Hmean. rewrite Hs in Hscale.
  assert (H1 : Scaler.handle_zeros_in_scale 0 = 1%R).
  { unfold Scaler.handle_zeros_in_scale.
    destruct (Req_dec_T 0 0) as [_ | N]; [reflexivity | now contradiction N]. }
  rewrite H1 in Hscale.
  split; [now split | ]. split; [split | ].
  - rewrite Eva. unfold Scaler.scale_row. rewrite Hmean, Hscale.
    cbn [Split.X_val Samples.constant_feature map combine fst snd].
    do 2 f_equal. field.
  - rewrite Ete. unfold Scaler.scale_row. rewrite Hmean, Hscale.
    cbn [Split.X_test Samples.constant_feature map combine fst snd].
    do 2 f_equal. field.
  - intros v. rewrite Hm, Hs. split; lra.
Qed.

Lemma standardized_train_mean_0_std_1_witness :
  exists out,
    Scaler.standardize Examples.one_feature = Ok out /\
    Tensor.mean (Tensor.column (Scaler.X_train_scaled out) 0) = 0%R /\
    Scaler.std (Tensor.column (Scaler.X_train_scaled out) 0) = 1%R.
Proof.
  eexists. split; [reflexivity | ].
  apply (standardized_train_mean_0_std_1 Examples.one_feature _ 0 eq_refl).
  - simpl. lia.
  - rewrite one_feature_var. lra.
Defined.

(** ** The network *)

Section NetFacts.

Import Tensor Net.
Local Open Scope R_scope.

Lemma length_mapi {A B : Type} (f : nat -> A -> B) (l : list A) :
  length (mapi f l) = length l.
Proof.
  unfold mapi. rewrite length_map, length_combine, length_seq. lia.
Qed.

Lemma In_mapi {A B : Type} (f : nat -> A -> B) (l : list A) (y : B) :
  In y (mapi f l) -> exists i x, In x l /\ y = f i x.
Proof.
  unfold mapi. intros H. apply in_map_iff in H.
  destruct H as ([i x] & <- & Hin). apply in_combine_r in Hin.
  now exists i, x.
Qed.

Lemma has_width_forall {A : Type} (d : nat) (X : list (list A)) :
  has_width d X = true <-> (forall r, In r X -> length r = d).
Proof.
  unfold has_width. rewrite forallb_forall.
  split; intros H r Hr; [apply Nat.eqb_eq | apply Nat.eqb_eq]; now apply H.
Qed.

Lemma Linear_new_shape_ok (init : initializer) (n_in n_out : nat) :
  Linear_shape_ok (Linear_new init n_in n_out).
Proof.
  unfold Linear_shape_ok, Linear_new. cbn [weight bias in_features out_features].
  split; [now rewrite length_map, length_seq | ].
  split; [ | now rewrite length_map, length_seq].
  apply has_width_forall. intros r Hr.
  apply in_map_iff in Hr. destruct Hr as (i & <- & _).
  now rewrite length_map, length_seq.
Qed.

(** [__init__] builds the layer sizes input_dim-64-32-16-1. *)
Lemma WineQualityNet_new_topology (init : nat -> initializer) (d : nat) :
  topology d (WineQualityNet_new init d).
Proof.
  unfold topology, WineQualityNet_new. cbn [fc1 fc2 fc3 fc4 dropout].
  split; [split; [reflexivity | split; [reflexivity | apply Linear_new_shape_ok]] | ].
  split; [split; [reflexivity | split; [reflexivity | apply Linear_new_shape_ok]] | ].
  split; [split; [reflexivity | split; [reflexivity | apply Linear_new_shape_ok]] | ].
  split; [split; [reflexivity | split; [reflexivity | apply Linear_new_shape_ok]] | ].
  reflexivity.
Qed.

Lemma set_training_topology (d : nat) (mode : bool) (m : WineQualityNet) :
  topology d m -> topology d (set_training mode m).
Proof. intros H. exact H. Qed.

(** A well-shaped layer maps shape [(b, in_features)] to shape
    [(b, out_features)]. *)
Lemma Linear_forward_shape (l : Linear) (b : nat) (x : list (list R)) :
  Linear_shape_ok l ->
  shape2 b (in_features l) x ->
  exists y, Linear_forward l x = Ok y /\ shape2 b (out_features l) y.
Proof.
  intros (Hw & _ & Hb) [Hlen Hwid]. unfold Linear_forward. rewrite Hwid.
  eexists. split; [reflexivity | ]. split.
  - now rewrite length_map.
  - apply has_width_forall. intros r Hr. apply in_map_iff in Hr.
    destruct Hr as (x0 & <- & _). unfold linear_row.
    rewrite length_map, length_combine. lia.
Qed.

Lemma ReLU_forward_shape (b d : nat) (x : list (list R)) :
  shape2 b d x -> shape2 b d (ReLU_forward x).
Proof.
  intros [Hlen Hwid]. unfold ReLU_forward. split.
  - now rewrite length_map.
  - apply has_width_forall. intros r Hr. apply in_map_iff in Hr.
    destruct Hr as (r0 & <- & Hr0). rewrite length_map.
    now apply (proj1 (has_width_forall d x) Hwid).
Qed.

Lemma Dropout_forward_shape (p : R) (training : bool) (keep : mask)
  (b d : nat) (x : list (list R)) :
  shape2 b d x -> shape2 b d (Dropout_forward p training keep x).
Proof.
  intros [Hlen Hwid]. unfold Dropout_forward.
  destruct training; [ | now split]. split.
  - now rewrite length_mapi.
  - apply has_width_forall. intros r Hr. apply In_mapi in Hr.
    destruct Hr as (i & r0 & Hr0 & ->). rewrite length_mapi.
    now apply (proj1 (has_width_forall d x) Hwid).
Qed.

(** C8.  A model with the layer sizes of [WineQualityNet(input_dim)] maps
    every input of shape [(batch_size, input_dim)] to an output of shape
    [(batch_size, 1)], in training mode and in evaluation mode. *)
Theorem forward_output_shape (input_dim batch_size : nat) (m : WineQualityNet)
  (keep1 keep2 : mask) (x : list (list R)) :
  topology input_dim m ->
  shape2 batch_size input_dim x ->
  exists y, forward m keep1 keep2 x = Ok y /\ shape2 batch_size 1 y.
Proof.
  intros ((I1 & O1 & S1) & (I2 & O2 & S2) & (I3 & O3 & S3) & (I4 & O4 & S4) & _) Hx.
  unfold forward.
  rewrite <- I1 in Hx.
  destruct (Linear_forward_shape _ _ _ S1 Hx) as (x1 & -> & H1). simpl.
  apply ReLU_forward_shape in H1.
  apply (Dropout_forward_shape (dropout m) (training m) keep1) in H1.
  rewrite O1, <- I2 in H1.
  destruct (Linear_forward_shape _ _ _ S2 H1) as (x2 & -> & H2). simpl.
  apply ReLU_forward_shape in H2.
  apply (Dropout_forward_shape (dropout m) (training m) keep2) in H2.
  rewrite O2, <- I3 in H2.
  destruct (Linear_forward_shape _ _ _ S3 H2) as (x3 & -> & H3). simpl.
  apply ReLU_forward_shape in H3.
  rewrite O3, <- I4 in H3.
  destruct (Linear_forward_shape _ _ _ S4 H3) as (x4 & -> & H4). simpl.
  rewrite O4 in H4. now exists x4.
Qed.

Lemma nth_mapi {A B : Type} (f : nat -> A -> B) (l : list A) (i : nat) (d : B) (a : A) :
  (i < length l)%nat -> nth i (mapi f l) d = f i (nth i l a).
Proof.
  intros Hi. unfold mapi.
  rewrite (nth_indep _ d ((fun ix => f (fst ix) (snd ix)) (0%nat, a)))
    by (rewrite length_map, length_combine, length_seq; lia).
  rewrite (map_nth (fun ix => f (fst ix) (snd ix))).
  rewrite combine_nth by (now rewrite length_seq).
  rewrite seq_nth by exact Hi. reflexivity.
Qed.

(** Dropout in evaluation mode retains every unit. *)
Lemma Dropout_forward_eval (p : R) (keep : mask) (X : list (list R)) :
  Dropout_forward p false keep X = X.
Proof. reflexivity. Qed.

(** Dropout in training mode: a dropped unit is 0, a kept unit is
    rescaled. *)
Lemma Dropout_forward_train (p : R) (keep : mask) (X : list (list R)) (i j : nat) :
  (i < length X)%nat ->
  (j < length (nth i X []))%nat ->
  nth j (nth i (Dropout_forward p true keep X) []) 0 =
  if keep i j then nth j (nth i X []) 0 / (1 - p) else 0.
Proof.
  intros Hi Hj. unfold Dropout_forward.
  rewrite (nth_mapi _ X i [] []) by exact Hi.
  rewrite (nth_mapi _ (nth i X []) j 0 0) by exact Hj.
  reflexivity.
Qed.

(** [forward] read as a chain of layers, for any dropout rate. *)
Lemma forward_compose (m : WineQualityNet) (keep1 keep2 : mask) (x : list (list R)) :
  forward m keep1 keep2 x =
  compose (training m)
    [ LinearLayer (fc1 m); ReLULayer; DropoutLayer (dropout m) keep1;
      LinearLayer (fc2 m); ReLULayer; DropoutLayer (dropout m) keep2;
      LinearLayer (fc3 m); ReLULayer; LinearLayer (fc4 m) ] x.
Proof.
  unfold forward. cbn [compose apply_layer bind].
  destruct (Linear_forward (fc1 m) x) as [x1 | e]; cbn [bind]; [ | reflexivity].
  destruct (Linear_forward (fc2 m) _) as [x2 | e]; cbn [bind]; [ | reflexivity].
  destruct (Linear_forward (fc3 m) _) as [x3 | e]; cbn [bind]; [ | reflexivity].
  destruct (Linear_forward (fc4 m) _) as [x4 | e]; reflexivity.
Qed.

(** C2.  For a model with the layer sizes of [WineQualityNet(input_dim)],
    [forward] is the chain Linear(input_dim,64), ReLU, Dropout(0.2),
    Linear(64,32), ReLU, Dropout(0.2), Linear(32,16), ReLU, Linear(16,1),
    the last layer being linear; in evaluation mode it is the same chain
    with the identity in place of each dropout, whatever the masks; and
    dropout sets a unit to 0 only in training mode. *)
Theorem forward_is_spec_architecture (input_dim : nat) (m : WineQualityNet)
  (keep1 keep2 : mask) (x : list (list R)) :
  topology input_dim m ->
  forward m keep1 keep2 x = compose (training m) (spec_architecture m keep1 keep2) x /\
  (training m = false ->
   forward m keep1 keep2 x = compose false (spec_architecture_eval m) x) /\
  forward (eval m) keep1 keep2 x = compose false (spec_architecture_eval m) x /\
  map (fun l => (in_features l, out_features l)) [fc1 m; fc2 m; fc3 m; fc4 m] =
    [(input_dim, 64); (64, 32); (32, 16); (16, 1)]%nat /\
  (forall (keep : mask) (X : list (list R)),
      Dropout_forward (dropout m) false keep X = X) /\
  (forall (keep : mask) (X : list (list R)) (i j : nat),
      (i < length X)%nat -> (j < length (nth i X []))%nat ->
      nth j (nth i (Dropout_forward (dropout m) true keep X) []) 0 =
      if keep i j then nth j (nth i X []) 0 / (1 - 2 / 10) else 0).
Proof.
  intros ((I1 & O1 & _) & (I2 & O2 & _) & (I3 & O3 & _) & (I4 & O4 & _) & Hp).
  assert (Heval : forall m' : WineQualityNet,
             training m' = false ->
             forward m' keep1 keep2 x = compose false (spec_architecture_eval m') x).
  { intros m' Hm'. rewrite forward_compose, Hm'.
    unfold spec_architecture_eval. cbn [compose apply_layer bind].
    destruct (Linear_forward (fc1 m') x) as [x1 | e]; cbn [bind]; [ | reflexivity].
    rewrite !Dropout_forward_eval. reflexivity. }
  split; [ | split; [ | split; [ | split; [ | split]]]].
  - rewrite forward_compose. unfold spec_architecture. now rewrite Hp.
  - apply Heval.
  - apply (Heval (eval m)). reflexivity.
  - cbn [map]. now rewrite I1, O1, I2, O2, I3, O3, I4, O4.
  - intros keep X. reflexivity.
  - intros keep X i j Hi Hj. rewrite Hp. now apply Dropout_forward_train.
Qed.

End NetFacts.

(** ** Means of batch means *)

Section MeanFacts.

Import Tensor.
Local Open Scope R_scope.

Lemma sum_Permutation (l l' : list R) : Permutation l l' -> sum l = sum l'.
Proof.
  induction 1 as [ | x l l' _ IH | x y l | l l' l'' _ IH1 _ IH2];
    unfold sum in *; simpl; lra.
Qed.

Lemma mean_Permutation (l l' : list R) : Permutation l l' -> mean l = mean l'.
Proof.
  intros H. unfold mean.
  now rewrite (sum_Permutation _ _ H), (Permutation_length H).
Qed.

Lemma sum_concat (bs : list (list R)) : sum (concat bs) = sum (map sum bs).
Proof.
  induction bs as [ | b bs IH]; [reflexivity | ].
  cbn [concat map]. rewrite sum_app, IH. unfold sum at 3. simpl. reflexivity.
Qed.

Lemma length_concat_uniform {T : Type} (k : nat) (bs : list (list T)) :
  Forall (fun b => length b = k) bs ->
  length (concat bs) = (k * length bs)%nat.
Proof.
  induction 1 as [ | b bs Hb _ IH]; cbn [concat length]; [lia | ].
  rewrite length_app, IH, Hb. lia.
Qed.

(** Batches of one common size: the mean of the batch means is the mean
    over all elements. *)
Lemma mean_of_means_uniform (k : nat) (bs : list (list R)) :
  (1 <= k)%nat -> bs <> [] ->
  Forall (fun b => length b = k) bs ->
  mean (map mean bs) = mean (concat bs).
Proof.
  intros Hk Hne Hall. unfold mean at 1 3.
  rewrite length_map, (length_concat_uniform k bs Hall), sum_concat.
  replace (map mean bs) with (map (fun b => / INR k * sum b) bs).
  - rewrite (sum_map_mul (/ INR k) sum), mult_INR. field. split.
    + now apply INR_length_nonzero.
    + apply not_0_INR. lia.
  - apply map_ext_in. intros b Hb. unfold mean.
    rewrite (proj1 (Forall_forall _ _) Hall b Hb). unfold Rdiv. lra.
Qed.

(** Batches of any sizes: the mean over all elements weights each batch
    mean by the share of the batch in the whole. *)
Lemma mean_concat_weighted (bs : list (list R)) :
  Forall (fun b => b <> []) bs -> bs <> [] ->
  mean (concat bs) =
  sum (map (fun b => INR (length b) / INR (length (concat bs)) * mean b) bs).
Proof.
  intros Hall Hne. set (N := length (concat bs)).
  assert (HN : INR N <> 0).
  { apply not_0_INR. unfold N. destruct bs as [ | b bs]; [contradiction | ].
    inversion Hall as [ | ? ? Hb _]; subst. cbn [concat]. rewrite length_app.
    destruct b; [contradiction | simpl; lia]. }
  unfold mean at 1. fold N. rewrite sum_concat.
  replace (map (fun b => INR (length b) / INR N * mean b) bs)
    with (map (fun b => / INR N * sum b) bs).
  - rewrite (sum_map_mul (/ INR N) sum). unfold Rdiv. lra.
  - apply map_ext_in. intros b Hb. unfold mean. field. split; [ | exact HN].
    apply INR_length_nonzero. exact (proj1 (Forall_forall _ _) Hall b Hb).
Qed.

(** The mean of the batch means weights every batch alike. *)
Lemma mean_of_means_unweighted (bs : list (list R)) :
  mean (map mean bs) = sum (map (fun b => 1 / INR (length bs) * mean b) bs).
Proof.
  unfold mean at 1. rewrite length_map.
  rewrite (sum_map_mul (1 / INR (length bs)) mean). unfold Rdiv. lra.
Qed.

End MeanFacts.

(** ** Batches *)

Section ChunkFacts.

Import Train.

Variable A : Type.
Variable bs : nat.
Hypothesis bs_positive : 1 <= bs.

Lemma chunks_fuel_concat (fuel : nat) (l : list A) :
  length l <= fuel -> concat (chunks_fuel fuel bs l) = l.
Proof.
  revert l. induction fuel as [ | fuel IH]; intros l Hl.
  - destruct l; [reflexivity | simpl in Hl; lia].
  - destruct l as [ | a l]; [reflexivity | ].
    cbn [chunks_fuel concat]. rewrite IH, firstn_skipn; [reflexivity | ].
    rewrite length_skipn. cbn [length] in *. lia.
Qed.

Lemma chunks_fuel_nonempty (fuel : nat) (l : list A) :
  Forall (fun c => c <> []) (chunks_fuel fuel bs l).
Proof.
  revert l. induction fuel as [ | fuel IH]; intros l; [constructor | ].
  destruct l as [ | a l]; [constructor | ].
  cbn [chunks_fuel]. constructor; [ | apply IH].
  destruct bs; [lia | discriminate].
Qed.

Lemma chunks_fuel_In (fuel : nat) (l c : list A) (x : A) :
  In c (chunks_fuel fuel bs l) -> In x c -> In x l.
Proof.
  revert l. induction fuel as [ | fuel IH]; intros l Hc Hx; [contradiction | ].
  destruct l as [ | a l]; [contradiction | ].
  cbn [chunks_fuel] in Hc. destruct Hc as [<- | Hc].
  - now apply In_firstn in Hx.
  - apply (In_skipn bs). now apply IH.
Qed.

(** The number of chunks is the number of elements divided by the chunk
    size, rounded up. *)
Lemma chunks_fuel_length (fuel : nat) (l : list A) :
  length l <= fuel ->
  length (chunks_fuel fuel bs l) = (length l + bs - 1) / bs.
Proof.
  revert l. induction fuel as [ | fuel IH]; intros l Hl.
  - destruct l; [ | simpl in Hl; lia].
    cbn [chunks_fuel length]. symmetry. apply Nat.div_small. lia.
  - destruct l as [ | a l].
    + cbn [chunks_fuel length]. symmetry. apply Nat.div_small. lia.
    + cbn [chunks_fuel length].
      rewrite IH by (rewrite length_skipn; cbn [length] in *; lia).
      rewrite length_skipn. cbn [length].
      destruct (Nat.le_gt_cases (S (length l)) bs) as [Hle | Hgt].
      * replace (S (length l) - bs) with 0 by lia.
        rewrite (Nat.div_small (0 + bs - 1)) by lia.
        replace (S (length l) + bs - 1) with (length l + 1 * bs) by lia.
        rewrite Nat.div_add by lia. rewrite Nat.div_small by lia. reflexivity.
      * replace (S (length l) + bs - 1) with (S (length l) - bs + bs - 1 + 1 * bs) by lia.
        rewrite Nat.div_add by lia. lia.
Qed.

(** The fuel plays no part once it covers the list. *)
Lemma chunks_fuel_enough (f1 f2 : nat) (l : list A) :
  length l <= f1 -> length l <= f2 ->
  chunks_fuel f1 bs l = chunks_fuel f2 bs l.
Proof.
  revert f2 l. induction f1 as [ | f1 IH]; intros f2 l H1 H2.
  - destruct l; [ | simpl in H1; lia]. now destruct f2.
  - destruct l as [ | a l]; [now destruct f2 | ].
    destruct f2 as [ | f2]; [simpl in H2; lia | ].
    cbn [chunks_fuel]. f_equal.
    apply IH; rewrite length_skipn; cbn [length] in *; lia.
Qed.

Lemma chunks_cons (l : list A) :
  l <> [] -> chunks bs l = firstn bs l :: chunks bs (skipn bs l).
Proof.
  intros Hne. unfold chunks. destruct l as [ | a l]; [contradiction | ].
  cbn [length chunks_fuel]. f_equal.
  apply chunks_fuel_enough; rewrite ?length_skipn; cbn [length]; lia.
Qed.

(** When the chunk size divides the number of elements, every chunk is
    full. *)
Lemma chunks_fuel_full (fuel : nat) (l : list A) :
  length l <= fuel -> length l mod bs = 0 ->
  Forall (fun c => length c = bs) (chunks_fuel fuel bs l).
Proof.
  revert l. induction fuel as [ | fuel IH]; intros l Hl Hmod; [constructor | ].
  destruct l as [ | a l]; [constructor | ].
  cbn [chunks_fuel].
  assert (Hge : bs <= length (a :: l)).
  { destruct (Nat.le_gt_cases bs (length (a :: l))) as [H | H]; [exact H | ].
    rewrite Nat.mod_small in Hmod by exact H. discriminate Hmod. }
  constructor.
  - rewrite length_firstn. lia.
  - apply IH; rewrite length_skipn; [cbn [length] in *; lia | ].
    replace (length (a :: l)) with ((length (a :: l) - bs) + 1 * bs) in Hmod by lia.
    rewrite Nat.Div0.mod_add in Hmod. exact Hmod.
Qed.

Lemma chunks_full (l : list A) :
  length l mod bs = 0 -> Forall (fun c => length c = bs) (chunks bs l).
Proof. apply chunks_fuel_full. lia. Qed.

Lemma chunks_concat (l : list A) : concat (chunks bs l) = l.
Proof. apply chunks_fuel_concat. lia. Qed.

Lemma chunks_length (l : list A) : length (chunks bs l) = (length l + bs - 1) / bs.
Proof. apply chunks_fuel_length. lia. Qed.

End ChunkFacts.

(** ** The loss of one batch *)

Section BatchLossFacts.

Import Tensor Net Train.
Local Open Scope R_scope.

Lemma length_linear_row (l : Linear) (x : list R) :
  Linear_shape_ok l -> length (linear_row l x) = out_features l.
Proof.
  intros (Hw & _ & Hb). unfold linear_row.
  rewrite length_map, length_combine. lia.
Qed.

Lemma has_width_map {T : Type} (f : T -> list R) (d : nat) (X : list T) :
  (forall x, In x X -> length (f x) = d) -> has_width d (map f X) = true.
Proof.
  intros H. apply has_width_forall. intros r Hr.
  apply in_map_iff in Hr. destruct Hr as (x & <- & Hx). now apply H.
Qed.

(** In evaluation mode the forward pass treats the rows of a batch one by
    one. *)
Lemma forward_eval_rows (d : nat) (m : WineQualityNet) (keep1 keep2 : mask)
  (X : list (list R)) :
  topology d m ->
  training m = false ->
  has_width d X = true ->
  forward m keep1 keep2 X = Ok (map (row_forward m) X).
Proof.
  intros ((I1 & O1 & S1) & (I2 & O2 & S2) & (I3 & O3 & S3) & (I4 & O4 & S4) & _) Hm HX.
  unfold forward, Linear_forward. rewrite Hm, I1, HX. cbn [bind Dropout_forward].
  unfold ReLU_forward. rewrite map_map.
  rewrite I2, has_width_map
    by (intros; rewrite length_map, length_linear_row, O1; auto).
  cbn [bind]. rewrite !map_map.
  rewrite I3, has_width_map
    by (intros; rewrite length_map, length_linear_row, O2; auto).
  cbn [bind]. rewrite !map_map.
  rewrite I4, has_width_map
    by (intros; rewrite length_map, length_linear_row, O3; auto).
  cbn [bind]. rewrite ?map_map. reflexivity.
Qed.

Lemma length_row_forward (d : nat) (m : WineQualityNet) (x : list R) :
  topology d m -> length (row_forward m x) = 1%nat.
Proof.
  intros (_ & _ & _ & (_ & O4 & S4) & _). unfold row_forward.
  now rewrite length_linear_row, O4.
Qed.

Lemma row_forward_predict (d : nat) (m : WineQualityNet) (x : list R) :
  topology d m -> length x = d -> row_forward m x = [predict m x].
Proof.
  intros Ht Hx. unfold predict.
  rewrite (forward_eval_rows d (eval m) no_draw no_draw [x]);
    [ | exact Ht | reflexivity
      | unfold has_width; cbn [forallb]; rewrite Hx, Nat.eqb_refl; reflexivity].
  cbn [map]. change (row_forward (eval m) x) with (row_forward m x).
  pose proof (length_row_forward d m x Ht) as Hlen.
  destruct (row_forward m x) as [ | o [ | ? ?]]; try discriminate. reflexivity.
Qed.

(** [squeeze] of a column of outputs. *)
Lemma squeeze_column (os : list R) :
  squeeze (map (fun o => [o]) os) =
  match os with
  | [o] => T0 o
  | _ => T1 os
  end.
Proof.
  destruct os as [ | o [ | o' os]]; [reflexivity | reflexivity | ].
  unfold squeeze. cbn [map].
  replace (has_width 1 ([o] :: [o'] :: map (fun o0 => [o0]) os)) with true.
  - cbn [map hd]. rewrite map_map. cbn [hd]. now rewrite map_id.
  - symmetry. apply has_width_forall. intros r [<- | [<- | Hr]]; try reflexivity.
    apply in_map_iff in Hr. now destruct Hr as (? & <- & _).
Qed.

(** The criterion on a squeezed column of outputs and a target vector of
    the same length: the mean of the squared differences. *)
Lemma MSELoss_squeezed (os ys : list R) :
  os <> [] -> length os = length ys ->
  MSELoss (squeeze (map (fun o => [o]) os)) (T1 ys) =
  Ok (mean (map (fun oy => (fst oy - snd oy) ^ 2) (combine os ys))).
Proof.
  intros Hne Hlen. rewrite squeeze_column.
  destruct os as [ | o [ | o' os]]; [contradiction | | ].
  - destruct ys as [ | y [ | ? ?]]; try discriminate. reflexivity.
  - unfold MSELoss. cbn [view2 nrows ncols length].
    cbn [broadcast_dim Nat.eqb bind].
    rewrite <- Hlen. cbn [length]. unfold broadcast_dim. rewrite Nat.eqb_refl.
    cbn [bind]. unfold expand, nrows. cbn [length Nat.eqb map].
    unfold expand_row. rewrite <- Hlen. cbn [length].
    rewrite Nat.eqb_refl. cbn [concat]. now rewrite !app_nil_r.
Qed.

Lemma shape2_column (b : nat) (y : list (list R)) :
  shape2 b 1 y -> y = map (fun o => [o]) (map (hd 0) y).
Proof.
  intros [_ Hw]. rewrite map_map. rewrite <- (map_id y) at 1.
  apply map_ext_in. intros r Hr.
  pose proof (proj1 (has_width_forall 1 y) Hw r Hr) as Hlen.
  destruct r as [ | o [ | ? ?]]; try discriminate. reflexivity.
Qed.

(** A batch of at least one sample, each with as many features as the
    model expects, has a loss, in either mode. *)
Lemma batch_loss_returns (d : nat) (m : WineQualityNet) (keep1 keep2 : mask)
  (b : TensorDataset) :
  topology d m -> b <> [] -> has_width d (batch_X b) = true ->
  exists l, batch_loss m keep1 keep2 b = Ok l.
Proof.
  intros Ht Hne Hw. unfold batch_loss.
  destruct (forward_output_shape d (length b) m keep1 keep2 (batch_X b) Ht)
    as (y & -> & Hy).
  { split; [unfold batch_X; now rewrite length_map | exact Hw]. }
  cbn [bind]. rewrite (shape2_column _ _ Hy). unfold batch_y.
  rewrite MSELoss_squeezed; [now eexists | | ].
  - destruct Hy as [Hlen _]. destruct y; [ | discriminate].
    destruct b; [contradiction | discriminate].
  - destruct Hy as [Hlen _]. now rewrite !length_map, Hlen.
Qed.

(** In evaluation mode that loss is the mean squared error of the
    predictions over the samples of the batch. *)
Lemma batch_loss_eval (d : nat) (m : WineQualityNet) (keep1 keep2 : mask)
  (b : TensorDataset) :
  topology d m -> training m = false -> b <> [] ->
  has_width d (batch_X b) = true ->
  batch_loss m keep1 keep2 b = Ok (partition_mse m b).
Proof.
  intros Ht Hm Hne Hw. unfold batch_loss.
  rewrite (forward_eval_rows d m keep1 keep2 _ Ht Hm Hw). cbn [bind].
  assert (Hrows : map (row_forward m) (batch_X b) =
                  map (fun o => [o]) (map (predict m) (batch_X b))).
  { rewrite map_map. apply map_ext_in. intros x Hx.
    apply (row_forward_predict d); [exact Ht | ].
    now apply (proj1 (has_width_forall d (batch_X b)) Hw). }
  rewrite Hrows. unfold batch_y, batch_X.
  rewrite MSELoss_squeezed;
    [ | destruct b; [contradiction | discriminate] | now rewrite !length_map].
  f_equal. unfold partition_mse. f_equal.
  rewrite map_map. clear. induction b as [ | s b IH]; [reflexivity | ].
  cbn [map combine]. now rewrite IH.
Qed.

End BatchLossFacts.

(** ** The validation and training passes *)

Section TrainFacts.

Import Tensor Net StateExn Train.
Local Open Scope R_scope.

Local Notation "'validate_body'" :=
  (fun (total_loss : R) (b : TensorDataset) =>
     mbind get (fun model : WineQualityNet =>
     mbind (lift (forward model no_draw no_draw (batch_X b))) (fun outputs =>
     mbind (lift (MSELoss (squeeze outputs) (batch_y b))) (fun loss =>
     ret (total_loss + loss))))).

(** One turn of the validation loop: the state is read, never written. *)
Lemma validate_body_step (total_loss : R) (b : TensorDataset) (m : WineQualityNet) :
  validate_body total_loss b m =
  (match batch_loss m no_draw no_draw b with
   | Ok loss => Ok (total_loss + loss)
   | Raise e => Raise e
   end, m).
Proof.
  unfold mbind, get, lift, ret, batch_loss.
  destruct (forward m no_draw no_draw (batch_X b)) as [outputs | e]; [ | reflexivity].
  cbn [bind]. destruct (MSELoss (squeeze outputs) (batch_y b)); reflexivity.
Qed.

Lemma validate_loop_state (bs : list TensorDataset) (a : R) (m : WineQualityNet) :
  snd (foldM validate_body a bs m) = m.
Proof.
  revert a. induction bs as [ | b bs IH]; intros a; [reflexivity | ].
  cbn [foldM]. unfold mbind at 1. rewrite validate_body_step.
  destruct (batch_loss m no_draw no_draw b); [apply IH | reflexivity].
Qed.

Lemma validate_loop_value (bs : list TensorDataset) (ls : list R) (a : R)
  (m : WineQualityNet) :
  Forall2 (fun b l => batch_loss m no_draw no_draw b = Ok l) bs ls ->
  fst (foldM validate_body a bs m) = Ok (a + sum ls).
Proof.
  intros H. revert a. induction H as [ | b l bs ls Hb _ IH]; intros a.
  - cbn. f_equal. unfold sum. simpl. lra.
  - cbn [foldM]. unfold mbind at 1. rewrite validate_body_step, Hb.
    rewrite IH. f_equal. unfold sum. simpl. lra.
Qed.

(** [validate] in one piece. *)
Lemma validate_unfold (dl : DataLoader) (order : list nat) (m : WineQualityNet) :
  validate dl order m =
  (match fst (foldM validate_body 0 (batches dl order) (eval m)) with
   | Ok total_loss =>
       if (len dl =? 0)%nat then Raise ZeroDivisionError
       else Ok (total_loss / INR (len dl))
   | Raise e => Raise e
   end, eval m).
Proof.
  unfold validate. unfold mbind at 1. unfold modify at 1. unfold mbind at 1.
  pose proof (validate_loop_state (batches dl order) 0 (eval m)) as Hs.
  destruct (foldM validate_body 0 (batches dl order) (eval m)) as [[t | e] s'];
    cbn [fst snd] in *; subst s'; [ | reflexivity].
  unfold raise, ret. now destruct (len dl =? 0)%nat.
Qed.

Lemma In_pick {T : Type} (l : list T) (idx : list nat) (x : T) :
  In x (pick l idx) -> In x l.
Proof.
  unfold pick. intros H. apply in_flat_map in H. destruct H as (i & _ & H).
  destruct (nth_error l i) eqn:E; [ | contradiction].
  destruct H as [<- | []]. now apply nth_error_In in E.
Qed.

Lemma batches_length (dl : DataLoader) (order : list nat) :
  (1 <= batch_size dl)%nat -> order_ok dl order ->
  length (batches dl order) = len dl.
Proof.
  intros Hbs Hord. unfold batches, len, TensorDataset. cbv zeta.
  rewrite (chunks_length _ _ Hbs).
  destruct (shuffle dl) eqn:E; [ | reflexivity].
  specialize (Hord E).
  rewrite pick_in_range by (now apply Permutation_seq_in_range).
  apply Permutation_length in Hord. now rewrite Hord, length_seq.
Qed.

Lemma batches_In (dl : DataLoader) (order : list nat) (b : TensorDataset)
  (s : list R * R) :
  In b (batches dl order) -> In s b -> In s (dataset dl).
Proof.
  unfold batches, chunks. cbv zeta. intros Hb Hs.
  pose proof (chunks_fuel_In _ _ _ _ _ _ Hb Hs) as Hin.
  destruct (shuffle dl); [now apply In_pick in Hin | exact Hin].
Qed.

Lemma batches_nonempty (dl : DataLoader) (order : list nat) :
  (1 <= batch_size dl)%nat ->
  Forall (fun b => b <> []) (batches dl order).
Proof.
  intros Hbs. unfold batches, chunks. cbv zeta. now apply chunks_fuel_nonempty.
Qed.

Lemma len_positive (dl : DataLoader) :
  (1 <= batch_size dl)%nat -> dataset dl <> [] -> len dl <> 0%nat.
Proof.
  intros Hbs Hne. unfold len.
  assert (1 <= length (dataset dl))%nat
    by (destruct (dataset dl); [contradiction | simpl; lia]).
  replace (length (dataset dl) + batch_size dl - 1)%nat
    with (length (dataset dl) - 1 + 1 * batch_size dl)%nat by lia.
  rewrite Nat.div_add by lia. lia.
Qed.

(** Every batch of a loader over samples of width [d] has a loss under a
    model for [d] features. *)
Lemma batches_have_losses (d : nat) (m : WineQualityNet) (dl : DataLoader)
  (order : list nat) :
  topology d m ->
  (1 <= batch_size dl)%nat ->
  has_width d (map fst (dataset dl)) = true ->
  exists ls, Forall2 (fun b l => batch_loss m no_draw no_draw b = Ok l)
                     (batches dl order) ls.
Proof.
  intros Ht Hbs Hw.
  pose proof (batches_nonempty dl order Hbs) as Hne.
  assert (Hin : forall b, In b (batches dl order) ->
                          forall s, In s b -> In s (dataset dl))
    by (intros b Hb s; now apply batches_In with (order := order)).
  induction (batches dl order) as [ | b bs IH]; [exists []; constructor | ].
  inversion Hne as [ | ? ? Hb Hrest]; subst.
  destruct IH as (ls & Hls); [exact Hrest | intros b' Hb'; apply Hin; now right | ].
  destruct (batch_loss_returns d m no_draw no_draw b Ht Hb) as (l & Hl).
  - apply has_width_forall. intros x Hx. unfold batch_X in Hx.
    apply in_map_iff in Hx. destruct Hx as (s & <- & Hs).
    apply (proj1 (has_width_forall d _) Hw). apply in_map.
    apply (Hin b); [now left | exact Hs].
  - exists (l :: ls). now constructor.
Qed.

Lemma parameters_set_training (mode : bool) (m : WineQualityNet) :
  parameters (set_training mode m) = parameters m.
Proof. reflexivity. Qed.

Lemma pick_nil {T : Type} (idx : list nat) : pick (@nil T) idx = [].
Proof.
  induction idx as [ | i idx IH]; [reflexivity | ].
  cbn. destruct i; exact IH.
Qed.

Lemma batches_empty_dataset (dl : DataLoader) (order : list nat) :
  dataset dl = [] -> batches dl order = [] /\ len dl = 0%nat.
Proof.
  intros H. unfold batches, len. rewrite H, pick_nil. cbv zeta. split.
  - now destruct (shuffle dl).
  - cbn [length]. destruct (batch_size dl) as [ | k]; [reflexivity | ].
    apply Nat.div_small. lia.
Qed.

(** [validate] leaves the model in evaluation mode with every weight and
    bias as it found them, whether it returns or raises; it returns a loss
    for every loader that yields at least one batch of samples with as
    many features as the model expects; over a loader without samples it
    raises [ZeroDivisionError]. *)
Lemma validate_frame (d : nat) (m : WineQualityNet) (dl : DataLoader)
  (order : list nat) :
  (snd (validate dl order m) = eval m /\
   parameters (snd (validate dl order m)) = parameters m) /\
  (topology d m ->
   (1 <= batch_size dl)%nat ->
   dataset dl <> [] ->
   has_width d (map fst (dataset dl)) = true ->
   exists loss, fst (validate dl order m) = Ok loss) /\
  (dataset dl = [] -> fst (validate dl order m) = Raise ZeroDivisionError).
Proof.
  rewrite validate_unfold. cbn [fst snd]. split; [now split | split].
  - intros Ht Hbs Hne Hw.
    destruct (batches_have_losses d (eval m) dl order Ht Hbs Hw) as (ls & Hls).
    rewrite (validate_loop_value _ _ _ _ Hls).
    destruct (Nat.eqb_spec (len dl) 0) as [E | _];
      [now apply len_positive in E | now eexists].
  - intros Hempty. destruct (batches_empty_dataset dl order Hempty) as [-> ->].
    reflexivity.
Qed.

End TrainFacts.

(** ** The validation loss as a mean over batches *)

Section ValidationLoss.

Import Tensor Net StateExn Train.
Local Open Scope R_scope.

Lemma Forall2_map_r {T U : Type} (P : T -> U -> Prop) (f : T -> U) (l : list T) :
  (forall x, In x l -> P x (f x)) -> Forall2 P l (map f l).
Proof.
  induction l as [ | a l IH]; intros H; [constructor | ].
  cbn [map]. constructor; [apply H; now left | apply IH].
  intros x Hx. apply H. now right.
Qed.

Lemma Forall2_length_eq {T U : Type} (P : T -> U -> Prop) (l : list T) (l' : list U) :
  Forall2 P l l' -> length l = length l'.
Proof. induction 1; simpl; congruence. Qed.

(** [validate] when every batch has a loss: the sum of the batch losses
    over the number of batches. *)
Lemma validate_value (dl : DataLoader) (order : list nat) (m : WineQualityNet)
  (ls : list R) :
  (1 <= batch_size dl)%nat -> order_ok dl order ->
  Forall2 (fun b l => batch_loss (eval m) no_draw no_draw b = Ok l)
          (batches dl order) ls ->
  ls <> [] ->
  fst (validate dl order m) = Ok (sum ls / INR (length ls)).
Proof.
  intros Hbs Hord Hls Hne. rewrite validate_unfold. cbn [fst].
  rewrite (validate_loop_value _ _ _ _ Hls).
  rewrite <- (Forall2_length_eq _ _ _ Hls), (batches_length dl order Hbs Hord).
  assert (Hlen : len dl <> 0%nat).
  { rewrite <- (batches_length dl order Hbs Hord), (Forall2_length_eq _ _ _ Hls).
    destruct ls; [contradiction | discriminate]. }
  destruct (Nat.eqb_spec (len dl) 0) as [E | _]; [contradiction | ].
  f_equal. f_equal. lra.
Qed.

(** Under a model for [d] features and over samples of width [d], the
    batch losses of [validate] are the mean squared errors of the
    batches. *)
Lemma validate_batch_losses (d : nat) (m : WineQualityNet) (dl : DataLoader)
  (order : list nat) :
  topology d m ->
  (1 <= batch_size dl)%nat ->
  has_width d (map fst (dataset dl)) = true ->
  Forall2 (fun b l => batch_loss (eval m) no_draw no_draw b = Ok l)
          (batches dl order) (map (partition_mse m) (batches dl order)).
Proof.
  intros Ht Hbs Hw. apply Forall2_map_r. intros b Hb.
  change (partition_mse m b) with (partition_mse (eval m) b).
  apply (batch_loss_eval d); [exact Ht | reflexivity | | ].
  - exact (proj1 (Forall_forall _ _) (batches_nonempty dl order Hbs) b Hb).
  - apply has_width_forall. intros x Hx. unfold batch_X in Hx.
    apply in_map_iff in Hx. destruct Hx as (s & <- & Hs).
    apply (proj1 (has_width_forall d _) Hw). apply in_map.
    exact (batches_In dl order b s Hb Hs).
Qed.

Lemma batches_concat (dl : DataLoader) (order : list nat) :
  (1 <= batch_size dl)%nat ->
  concat (batches dl order) =
  if shuffle dl then pick (dataset dl) order else dataset dl.
Proof. intros Hbs. unfold batches. cbv zeta. now apply chunks_concat. Qed.

Lemma batches_concat_Permutation (dl : DataLoader) (order : list nat) :
  (1 <= batch_size dl)%nat -> order_ok dl order ->
  Permutation (concat (batches dl order)) (dataset dl).
Proof.
  intros Hbs Hord. rewrite batches_concat by exact Hbs.
  destruct (shuffle dl) eqn:E; [ | reflexivity].
  apply pick_Permutation, Hord, E.
Qed.

Lemma partition_mse_concat (m : WineQualityNet) (bs : list TensorDataset) :
  partition_mse m (concat bs) = mean (concat (map (map (squared_error m)) bs)).
Proof. unfold partition_mse. now rewrite concat_map. Qed.

Lemma partition_mse_Permutation (m : WineQualityNet) (ds ds' : TensorDataset) :
  Permutation ds ds' -> partition_mse m ds = partition_mse m ds'.
Proof.
  intros H. unfold partition_mse. apply mean_Permutation. now apply Permutation_map.
Qed.

(** Batches of one common size: the mean of the batch errors is the mean
    squared error over the whole partition. *)
Lemma batch_mean_uniform (m : WineQualityNet) (dl : DataLoader) (order : list nat)
  (k : nat) :
  (1 <= batch_size dl)%nat -> order_ok dl order -> dataset dl <> [] ->
  Forall (fun b => length b = k) (batches dl order) ->
  mean (map (partition_mse m) (batches dl order)) = partition_mse m (dataset dl).
Proof.
  intros Hbs Hord Hne Hall.
  rewrite <- (partition_mse_Permutation m _ _ (batches_concat_Permutation dl order Hbs Hord)).
  rewrite partition_mse_concat.
  pose proof (batches_nonempty dl order Hbs) as Hnb.
  assert (Hbne : batches dl order <> []).
  { intros E. pose proof (batches_concat_Permutation dl order Hbs Hord) as HP.
    rewrite E in HP. apply Permutation_nil in HP. contradiction. }
  rewrite <- (mean_of_means_uniform k).
  - now rewrite map_map.
  - destruct (batches dl order) as [ | b bs]; [contradiction | ].
    inversion Hall; subst. inversion Hnb as [ | ? ? Hb _]; subst.
    destruct b; [contradiction | simpl; lia].
  - destruct (batches dl order); [contradiction | discriminate].
  - apply Forall_forall. intros r Hr. apply in_map_iff in Hr.
    destruct Hr as (b & <- & Hb). rewrite length_map.
    exact (proj1 (Forall_forall _ _) Hall b Hb).
Qed.

(** When the batch size divides the number of samples, all batches have
    that size. *)
Lemma batches_full (dl : DataLoader) (order : list nat) :
  (1 <= batch_size dl)%nat -> order_ok dl order ->
  (length (dataset dl) mod batch_size dl = 0)%nat ->
  Forall (fun b => length b = batch_size dl) (batches dl order).
Proof.
  intros Hbs Hord Hmod. unfold batches. cbv zeta.
  apply (chunks_full _ _ Hbs).
  destruct (shuffle dl) eqn:E; [ | exact Hmod].
  specialize (Hord E).
  rewrite pick_in_range by (now apply Permutation_seq_in_range).
  apply Permutation_length in Hord. now rewrite Hord, length_seq.
Qed.

(** Batches of any sizes: the mean squared error over the partition weights
    each batch error by the share of the batch in the partition. *)
Lemma partition_mse_weighted (m : WineQualityNet) (dl : DataLoader) (order : list nat) :
  (1 <= batch_size dl)%nat -> order_ok dl order -> dataset dl <> [] ->
  partition_mse m (dataset dl) =
  sum (map (fun b => INR (length b) / INR (length (dataset dl)) * partition_mse m b)
           (batches dl order)).
Proof.
  intros Hbs Hord Hne.
  pose proof (batches_concat_Permutation dl order Hbs Hord) as HP.
  rewrite <- (partition_mse_Permutation m _ _ HP), partition_mse_concat.
  rewrite mean_concat_weighted.
  - rewrite map_map. f_equal. apply map_ext. intros b.
    rewrite <- concat_map, !length_map, (Permutation_length HP). reflexivity.
  - apply Forall_forall. intros r Hr. apply in_map_iff in Hr.
    destruct Hr as (b & <- & Hb).
    pose proof (proj1 (Forall_forall _ _) (batches_nonempty dl order Hbs) b Hb).
    destruct b; [contradiction | discriminate].
  - intros E. apply map_eq_nil in E. rewrite E in HP.
    apply Permutation_nil in HP. contradiction.
Qed.

End ValidationLoss.

(** ** The zero-initialised model *)

Section ZeroModel.

Import Tensor Net Train Examples.
Local Open Scope R_scope.

Lemma dot_zero {T : Type} (l : list T) (x : list R) :
  dot (map (fun _ => 0) l) x = 0.
Proof.
  revert x. induction l as [ | a l IH]; intros x; [reflexivity | ].
  destruct x as [ | v x]; [reflexivity | ].
  unfold dot in *. cbn [map combine fst snd]. unfold sum in *. cbn [fold_right].
  rewrite IH. lra.
Qed.

Lemma combine_map_same {T U V : Type} (f : T -> U) (g : T -> V) (l : list T) :
  combine (map f l) (map g l) = map (fun i => (f i, g i)) l.
Proof. induction l as [ | a l IH]; [reflexivity | ]. cbn. now rewrite IH. Qed.

Lemma linear_row_zero (k n_in n_out : nat) (x : list R) :
  linear_row (Linear_new (zero_init k) n_in n_out) x = map (fun _ => 0) (seq 0 n_out).
Proof.
  unfold linear_row, Linear_new. cbn [weight bias zero_init init_weight init_bias].
  rewrite combine_map_same, map_map. apply map_ext. intros i. cbn [fst snd].
  rewrite dot_zero. lra.
Qed.

Lemma relu_zero : relu 0 = 0.
Proof. unfold relu. apply Rmax_left. lra. Qed.

Lemma row_forward_zero_model (x : list R) : row_forward zero_model x = [0].
Proof.
  unfold row_forward, zero_model, WineQualityNet_new. cbn [fc1 fc2 fc3 fc4].
  now rewrite !linear_row_zero.
Qed.

Lemma predict_zero_model (x : list R) : length x = 2%nat -> predict zero_model x = 0.
Proof.
  intros Hx.
  pose proof (row_forward_predict 2 zero_model x
                (WineQualityNet_new_topology zero_init 2) Hx) as H.
  rewrite row_forward_zero_model in H. now inversion H.
Qed.

End ZeroModel.

(** ** Batches of unequal sizes *)

Section UnevenBatches.

Import Tensor Net Train Examples.
Local Open Scope R_scope.

Lemma uneven_loader_batches :
  batches uneven_loader [] =
  [ [([1; 2], 0); ([3; 4], 0)]; [([5; 6], 3)] ].
Proof. reflexivity. Qed.

Lemma uneven_loader_batch_errors :
  map (partition_mse zero_model) (batches uneven_loader []) = [0; 9].
Proof.
  rewrite uneven_loader_batches. unfold partition_mse, squared_error.
  cbn [map fst snd]. rewrite !predict_zero_model by reflexivity.
  unfold mean, sum. cbn [fold_right length INR]. f_equal; [field | ].
  f_equal. field.
Qed.

(** Three samples in batches of two and one: [validate] returns 9/2, the
    mean of the batch errors 0 and 9, while the mean squared error over the
    three samples is 3. *)
Lemma uneven_batches_differ :
  fst (validate uneven_loader [] zero_model) = Ok (9 / 2) /\
  partition_mse zero_model (dataset uneven_loader) = 3 /\
  map (@length _) (batches uneven_loader []) = [2; 1]%nat.
Proof.
  split; [ | split; [ | reflexivity]].
  - rewrite (validate_value uneven_loader [] zero_model
               (map (partition_mse zero_model) (batches uneven_loader []))).
    + rewrite uneven_loader_batch_errors. f_equal.
      unfold sum. cbn [fold_right length INR]. field.
    + simpl. lia.
    + intros H. discriminate H.
    + apply (validate_batch_losses 2).
      * apply WineQualityNet_new_topology.
      * simpl. lia.
      * reflexivity.
    + rewrite uneven_loader_batches. discriminate.
  - unfold partition_mse, squared_error, uneven_loader, three_samples.
    cbn [dataset map fst snd]. rewrite !predict_zero_model by reflexivity.
    unfold mean, sum. cbn [fold_right length INR]. field.
Qed.

Lemma sum_repeat (c : R) (k : nat) : sum (repeat c k) = INR k * c.
Proof.
  induction k as [ | k IH]; [unfold sum; simpl; lra | ].
  rewrite S_INR. unfold sum in *. cbn [repeat fold_right]. rewrite IH. lra.
Qed.

Lemma squared_error_marked (t : R) : squared_error zero_model ([0; 0], t) = t ^ 2.
Proof.
  unfold squared_error. cbn [fst snd]. rewrite predict_zero_model by reflexivity. ring.
Qed.

(** A batch of samples with target 0 has no error under the zero model. *)
Lemma partition_mse_unmarked (b : TensorDataset) :
  (forall s, In s b -> s = ([0; 0], 0)) -> partition_mse zero_model b = 0.
Proof.
  intros H. unfold partition_mse.
  replace (map (squared_error zero_model) b) with (map (fun _ : list R * R => 0) b).
  - unfold mean. rewrite sum_map_const, length_map. unfold Rdiv. ring.
  - apply map_ext_in. intros s Hs. rewrite (H s Hs), squared_error_marked. ring.
Qed.

Lemma partition_mse_marked (k : nat) :
  (1 <= k)%nat -> partition_mse zero_model (repeat ([0; 0], 1) k) = 1.
Proof.
  intros Hk. unfold partition_mse. rewrite map_repeat, squared_error_marked.
  unfold mean. rewrite sum_repeat, repeat_length. field.
  apply not_0_INR. lia.
Qed.

Lemma marked_loader_batches (n bs : nat) :
  (1 <= bs)%nat -> (bs < n)%nat ->
  batches (marked_loader n bs) [] =
  repeat ([0; 0], 1) bs :: chunks bs (repeat ([0; 0], 0) (n - bs)).
Proof.
  intros Hbs Hn. unfold batches, marked_loader, marked_samples.
  cbn [shuffle dataset batch_size].
  rewrite (chunks_cons _ bs Hbs)
    by (destruct bs; [lia | discriminate]).
  rewrite firstn_app, skipn_app, repeat_length, Nat.sub_diag.
  rewrite firstn_all2 by (rewrite repeat_length; lia).
  rewrite skipn_all2 by (rewrite repeat_length; lia).
  cbn [firstn skipn app]. now rewrite app_nil_r.
Qed.

Lemma marked_loader_batch_errors (n bs : nat) :
  (1 <= bs)%nat -> (bs < n)%nat ->
  sum (map (partition_mse zero_model) (batches (marked_loader n bs) [])) = 1.
Proof.
  intros Hbs Hn. rewrite (marked_loader_batches n bs Hbs Hn). cbn [map].
  rewrite (partition_mse_marked bs Hbs).
  replace (map (partition_mse zero_model) (chunks bs (repeat ([0; 0], 0) (n - bs))))
    with (map (fun _ : TensorDataset => 0) (chunks bs (repeat ([0; 0], 0) (n - bs)))).
  - unfold sum at 1. cbn [fold_right]. fold (sum (map (fun _ : TensorDataset => 0)
      (chunks bs (repeat ([0; 0], 0) (n - bs))))).
    rewrite sum_map_const. ring.
  - apply map_ext_in. intros b Hb. symmetry. apply partition_mse_unmarked.
    intros s Hs. unfold chunks in Hb.
    apply (chunks_fuel_In _ _ _ _ _ _ Hb) in Hs. now apply repeat_spec in Hs.
Qed.

Lemma marked_samples_mse (n bs : nat) :
  (1 <= bs)%nat -> (bs < n)%nat ->
  partition_mse zero_model (marked_samples n bs) = INR bs / INR n.
Proof.
  intros Hbs Hn. unfold partition_mse, marked_samples.
  rewrite map_app, !map_repeat, !squared_error_marked. unfold mean.
  rewrite sum_app, !sum_repeat, length_app, !repeat_length.
  replace (bs + (n - bs))%nat with n by lia. field.
  apply not_0_INR. lia.
Qed.

(** Whenever the batch size does not divide the number of samples and there
    is more than one batch, some targets make the value returned by
    [validate] differ from the mean squared error over all samples. *)
Lemma uneven_batch_sizes_differ (n bs : nat) :
  (1 <= bs)%nat -> (bs < n)%nat -> n mod bs <> 0%nat ->
  length (dataset (marked_loader n bs)) = n /\
  exists v,
    fst (validate (marked_loader n bs) [] zero_model) = Ok v /\
    v <> partition_mse zero_model (dataset (marked_loader n bs)).
Proof.
  intros Hbs Hn Hmod.
  assert (Hlen : length (dataset (marked_loader n bs)) = n).
  { cbn [marked_loader dataset]. unfold marked_samples.
    rewrite length_app, !repeat_length. lia. }
  split; [exact Hlen | ].
  assert (Hord : order_ok (marked_loader n bs) []) by (intros H; discriminate H).
  assert (Hw : has_width 2 (map fst (dataset (marked_loader n bs))) = true).
  { apply has_width_forall. intros r Hr. apply in_map_iff in Hr.
    destruct Hr as (s & <- & Hs). cbn [marked_loader dataset] in Hs.
    unfold marked_samples in Hs. apply in_app_or in Hs.
    destruct Hs as [Hs | Hs]; apply repeat_spec in Hs; now subst s. }
  pose proof (validate_batch_losses 2 zero_model (marked_loader n bs) []
                (WineQualityNet_new_topology zero_init 2) Hbs Hw) as Hls.
  assert (Hm : length (map (partition_mse zero_model) (batches (marked_loader n bs) []))
               = len (marked_loader n bs))
    by (rewrite length_map; now apply batches_length).
  assert (Hmpos : len (marked_loader n bs) <> 0%nat).
  { apply len_positive; [exact Hbs | ]. intros E. rewrite E in Hlen.
    simpl in Hlen. lia. }
  eexists. split.
  - apply (validate_value (marked_loader n bs) [] zero_model _ Hbs Hord Hls).
    intros E. rewrite E in Hm. simpl in Hm. lia.
  - rewrite Hm, (marked_loader_batch_errors n bs Hbs Hn).
    cbn [marked_loader dataset]. rewrite (marked_samples_mse n bs Hbs Hn).
    set (m := len (marked_loader n bs)) in *.
    intros E. apply Hmod.
    assert (Hn0 : INR n <> 0) by (apply not_0_INR; lia).
    assert (Hm0 : INR m <> 0) by (now apply not_0_INR).
    assert (E' : INR n = INR (bs * m)).
    { rewrite mult_INR. apply (Rmult_eq_compat_r (INR n * INR m)) in E.
      field_simplify in E; [lra | exact Hn0 | exact Hm0]. }
    apply INR_eq in E'. rewrite E', Nat.mul_comm. apply Nat.Div0.mod_mul.
Qed.

End UnevenBatches.

(** ** The epoch loop *)

Section EpochFacts.

Import Tensor Net StateExn Train.
Local Open Scope R_scope.

Variable OptState : Type.
Variable backward_step :
  WineQualityNet -> OptState -> mask -> mask -> TensorDataset ->
  WineQualityNet * OptState.

Local Notation "'train_body' rnd" :=
  (fun (total_loss : R) (ib : nat * TensorDataset) =>
     let i := fst ib in
     let b := snd ib in
     mbind get (fun s : WineQualityNet * OptState =>
     mbind (lift (forward (fst s) (keep1 rnd i) (keep2 rnd i) (batch_X b)))
       (fun outputs =>
     mbind (lift (MSELoss (squeeze outputs) (batch_y b))) (fun loss =>
     mbind (modify (fun s : WineQualityNet * OptState =>
                      backward_step (fst s) (snd s) (keep1 rnd i) (keep2 rnd i) b))
       (fun _ => ret (total_loss + loss))))))
  (at level 10).

(** One turn of the training loop: the loss of the batch under the model
    as it stands, then the update of model and optimizer. *)
Lemma train_body_step (rnd : draws) (total_loss : R) (i : nat) (b : TensorDataset)
  (s : WineQualityNet * OptState) :
  (train_body rnd) total_loss (i, b) s =
  match batch_loss (fst s) (keep1 rnd i) (keep2 rnd i) b with
  | Ok loss =>
      (Ok (total_loss + loss),
       backward_step (fst s) (snd s) (keep1 rnd i) (keep2 rnd i) b)
  | Raise e => (Raise e, s)
  end.
Proof.
  cbn [fst snd]. unfold mbind, get, lift, ret, modify, batch_loss.
  destruct (forward (fst s) (keep1 rnd i) (keep2 rnd i) (batch_X b))
    as [outputs | e]; [ | reflexivity].
  cbn [bind]. destruct (MSELoss (squeeze outputs) (batch_y b)); reflexivity.
Qed.

Lemma train_loop (rnd : draws) (ibs : list (nat * TensorDataset)) (ls : list R)
  (a : R) (s s' : WineQualityNet * OptState) :
  train_steps backward_step rnd s ibs ls s' ->
  foldM (train_body rnd) a ibs s = (Ok (a + sum ls), s').
Proof.
  intros H. revert a.
  induction H as [s | s s' i b rest l ls Hl _ IH]; intros a.
  - cbn. unfold ret. f_equal. f_equal. unfold sum. simpl. lra.
  - cbn [foldM]. unfold mbind at 1. rewrite train_body_step, Hl.
    rewrite IH. f_equal. f_equal. unfold sum. simpl. lra.
Qed.

Lemma train_steps_length (rnd : draws) (ibs : list (nat * TensorDataset))
  (ls : list R) (s s' : WineQualityNet * OptState) :
  train_steps backward_step rnd s ibs ls s' -> length ls = length ibs.
Proof. induction 1; simpl; congruence. Qed.

(** [train_epoch] when every batch has a loss. *)
Lemma train_epoch_value (dl : DataLoader) (rnd : draws) (ls : list R)
  (s s' : WineQualityNet * OptState) :
  train_steps backward_step rnd (train (fst s), snd s)
    (combine (seq 0 (length (batches dl (order rnd)))) (batches dl (order rnd)))
    ls s' ->
  len dl <> 0%nat ->
  train_epoch backward_step dl rnd s = (Ok (sum ls / INR (len dl)), s').
Proof.
  intros H Hlen. unfold train_epoch.
  unfold mbind at 1. unfold modify at 1. unfold mbind at 1.
  match goal with
  | |- context [foldM ?f ?a ?l ?st] =>
      replace (foldM f a l st) with (@Ok R (0 + sum ls), s')
        by (symmetry; exact (train_loop rnd _ ls 0 _ s' H))
  end.
  destruct (Nat.eqb_spec (len dl) 0) as [E | _]; [contradiction | ].
  unfold ret. f_equal. f_equal. f_equal. lra.
Qed.

(** The validation phase and the two [append]s of a turn of the epoch
    loop leave the weights and biases as the training phase left them. *)
Lemma epoch_parameters (train_loader val_loader : DataLoader) (rnd : draws)
  (val_order : list nat) (s : run OptState) :
  parameters
    (model (snd (epoch backward_step train_loader val_loader rnd val_order s))) =
  parameters
    (model (snd (on_model_optimizer (train_epoch backward_step train_loader rnd) s))).
Proof.
  unfold epoch. unfold mbind at 1.
  destruct (on_model_optimizer (train_epoch backward_step train_loader rnd) s)
    as [[a | e] s1]; [ | reflexivity].
  cbn [snd]. unfold mbind at 1. unfold modify at 1. unfold mbind at 1.
  unfold on_model, zoom. cbn [model].
  rewrite validate_unfold.
  match goal with
  | |- context [match ?r with Ok _ => _ | Raise _ => _ end] => destruct r
  end; reflexivity.
Qed.

(** C7, as the code has it.  [validate] leaves the model in evaluation
    mode with every weight and bias of the four layers as it found them,
    whether it returns or raises; it returns a loss for every loader that
    yields at least one batch of samples with as many features as the
    model expects, and raises [ZeroDivisionError] over a loader without
    samples; and after a turn of the epoch loop the weights and biases are
    those left by the training phase. *)
Theorem validate_leaves_parameters (d : nat) (m : WineQualityNet) (dl : DataLoader)
  (order : list nat) (train_loader val_loader : DataLoader) (rnd : draws)
  (val_order : list nat) (s : run OptState) :
  (snd (validate dl order m) = eval m /\
   parameters (snd (validate dl order m)) = parameters m) /\
  (topology d m ->
   (1 <= batch_size dl)%nat ->
   dataset dl <> [] ->
   has_width d (map fst (dataset dl)) = true ->
   exists loss, fst (validate dl order m) = Ok loss) /\
  (dataset dl = [] -> fst (validate dl order m) = Raise ZeroDivisionError) /\
  parameters
    (model (snd (epoch backward_step train_loader val_loader rnd val_order s))) =
  parameters
    (model (snd (on_model_optimizer (train_epoch backward_step train_loader rnd) s))).
Proof.
  destruct (validate_frame d m dl order) as (H1 & H2 & H3).
  split; [exact H1 | split; [exact H2 | split; [exact H3 | ]]].
  apply epoch_parameters.
Qed.

(** C10.  For a loader with a positive batch size: the value returned by
    [validate], and likewise by [train_epoch], is the sum of the losses of
    the batches divided by the number of batches; under a model for [d]
    features and over samples of width [d] the batch losses of [validate]
    are the mean squared errors of the batches, every batch entering the
    average with the same weight whatever its size, whereas the mean
    squared error over all samples weights a batch by its share of the
    samples; the two agree when all batches have one size, as they do when
    the batch size divides the number of samples; and whenever the batch
    size does not divide the number of samples and there is more than one
    batch, some targets make them differ, as do three samples taken in
    batches of two and one. *)
Theorem epoch_loss_is_unweighted_batch_mean (d : nat) (m : WineQualityNet)
  (dl : DataLoader) (order : list nat) :
  (1 <= batch_size dl)%nat ->
  order_ok dl order ->
  (forall ls : list R,
      Forall2 (fun b l => batch_loss (eval m) no_draw no_draw b = Ok l)
              (batches dl order) ls ->
      ls <> [] ->
      fst (validate dl order m) = Ok (sum ls / INR (length ls))) /\
  (forall (rnd : draws) (s s' : WineQualityNet * OptState) (lt : list R),
      order_ok dl (Train.order rnd) ->
      train_steps backward_step rnd (train (fst s), snd s)
        (combine (seq 0 (length (batches dl (Train.order rnd))))
                 (batches dl (Train.order rnd)))
        lt s' ->
      lt <> [] ->
      train_epoch backward_step dl rnd s = (Ok (sum lt / INR (length lt)), s')) /\
  (topology d m ->
   dataset dl <> [] ->
   has_width d (map fst (dataset dl)) = true ->
   fst (validate dl order m) = Ok (mean (map (partition_mse m) (batches dl order))) /\
   mean (map (partition_mse m) (batches dl order)) =
     sum (map (fun b => 1 / INR (length (batches dl order)) * partition_mse m b)
              (batches dl order)) /\
   partition_mse m (dataset dl) =
     sum (map (fun b => INR (length b) / INR (length (dataset dl)) * partition_mse m b)
              (batches dl order)) /\
   (forall k : nat,
       Forall (fun b => length b = k) (batches dl order) ->
       mean (map (partition_mse m) (batches dl order)) = partition_mse m (dataset dl)) /\
   ((length (dataset dl) mod batch_size dl = 0)%nat ->
    mean (map (partition_mse m) (batches dl order)) = partition_mse m (dataset dl))) /\
  (forall n bs : nat,
      (1 <= bs)%nat -> (bs < n)%nat -> (n mod bs <> 0)%nat ->
      length (dataset (Examples.marked_loader n bs)) = n /\
      exists v,
        fst (validate (Examples.marked_loader n bs) [] Examples.zero_model) = Ok v /\
        v <> partition_mse Examples.zero_model (dataset (Examples.marked_loader n bs))) /\
  (fst (validate Examples.uneven_loader [] Examples.zero_model) = Ok (9 / 2) /\
   partition_mse Examples.zero_model (dataset Examples.uneven_loader) = 3 /\
   map (@length _) (batches Examples.uneven_loader []) = [2; 1]%nat).
Proof.
  intros Hbs Hord.
  split; [ | split; [ | split; [ | split;
    [exact uneven_batch_sizes_differ | exact uneven_batches_differ]]]].
  - intros ls Hls Hne. now apply validate_value.
  - intros rnd s s' lt Hordt Hsteps Hne.
    pose proof (train_steps_length _ _ _ _ _ Hsteps) as Hlen.
    rewrite length_combine, length_seq, Nat.min_id in Hlen.
    rewrite (batches_length dl _ Hbs Hordt) in Hlen.
    rewrite Hlen. apply train_epoch_value; [exact Hsteps | ].
    rewrite <- Hlen. destruct lt; [contradiction | discriminate].
  - intros Ht Hne Hw.
    pose proof (validate_batch_losses d m dl order Ht Hbs Hw) as Hls.
    assert (Hbne : batches dl order <> []).
    { intros E. pose proof (batches_concat_Permutation dl order Hbs Hord) as HP.
      rewrite E in HP. apply Permutation_nil in HP. contradiction. }
    split; [ | split; [ | split; [ | split]]].
    + rewrite (validate_value dl order m _ Hbs Hord Hls).
      * unfold mean. reflexivity.
      * intros E. apply map_eq_nil in E. contradiction.
    + unfold mean at 1. rewrite length_map.
      rewrite (sum_map_mul (1 / INR (length (batches dl order))) (partition_mse m)).
      unfold Rdiv. lra.
    + now apply partition_mse_weighted.
    + intros k Hall. now apply (batch_mean_uniform m dl order k).
    + intros Hmod. apply (batch_mean_uniform m dl order (batch_size dl)); try assumption.
      now apply batches_full.
Qed.

End EpochFacts.

(** C7 as stated fails: over a loader without samples [validate] returns no
    loss, it divides by zero. *)
Lemma validate_empty_loader_raises :
  fst (Train.validate Examples.empty_loader [] Examples.zero_model) =
  Raise ZeroDivisionError.
Proof. reflexivity. Qed.

(** ** Persistence *)

Section PersistFacts.

Import Tensor Net Train Persist.

Variable OptState : Type.
Variable weights_only_default : bool.

(** In evaluation mode the dropout draws play no part. *)
Lemma forward_eval_masks (m : WineQualityNet) (keep1 keep2 keep1' keep2' : mask)
  (x : list (list R)) :
  training m = false ->
  forward m keep1 keep2 x = forward m keep1' keep2' x.
Proof. intros Hm. unfold forward. rewrite Hm. reflexivity. Qed.

Lemma same_shape_true (s t : tensor) :
  tensor_shape s = tensor_shape t -> same_shape s t = true.
Proof.
  intros H. unfold same_shape.
  destruct (list_eq_dec Nat.eq_dec (tensor_shape s) (tensor_shape t));
    [reflexivity | contradiction].
Qed.

Lemma ncols_of_width {T : Type} (d : nat) (X : list (list T)) :
  X <> [] -> has_width d X = true -> ncols X = d.
Proof.
  destruct X as [ | r X]; [contradiction | ]. intros _ H.
  apply (proj1 (has_width_forall d (r :: X)) H). now left.
Qed.

(** A layer of the right sizes is restored from its own two entries,
    whatever the values of the layer it is loaded into. *)
Lemma load_layer_own (sd : list (string * tensor)) (prefix : string)
  (l fresh : Linear) :
  lookup (prefix ++ ".weight") sd = Some (T2 (weight l)) ->
  lookup (prefix ++ ".bias") sd = Some (T1 (bias l)) ->
  Linear_shape_ok l -> Linear_shape_ok fresh ->
  in_features fresh = in_features l ->
  out_features fresh = out_features l ->
  out_features l <> 0 ->
  load_layer sd prefix fresh = Ok l.
Proof.
  intros HW Hb (Lw & Ww & Lb) (Fw & FWw & Fb) Hin Hout Hpos.
  assert (Hne : weight l <> []) by (intros E; rewrite E in Lw; simpl in Lw; lia).
  assert (Fne : weight fresh <> [])
    by (intros E; rewrite E in Fw; simpl in Fw; lia).
  pose proof (ncols_of_width _ _ Hne Ww) as Cl.
  pose proof (ncols_of_width _ _ Fne FWw) as Cf.
  unfold load_layer, load_weight, load_bias. rewrite HW, Hb.
  rewrite (same_shape_true (T2 (weight l)) (T2 (weight fresh)))
    by (cbn [tensor_shape]; unfold nrows; congruence).
  rewrite Cf, Hin, Ww. cbn [andb bind].
  rewrite (same_shape_true (T1 (bias l)) (T1 (bias fresh)))
    by (cbn [tensor_shape]; congruence).
  cbn [bind]. rewrite Hout. now destruct l.
Qed.

(** [load_state_dict] of a model's own state dict into a fresh model of
    the same input dimension gives the model back, in the mode of the fresh
    one. *)
Lemma load_state_dict_own (init : nat -> initializer) (d : nat) (m : WineQualityNet) :
  topology d m ->
  load_state_dict (WineQualityNet_new init d) (state_dict m) = Ok (train m).
Proof.
  intros Ht.
  pose proof (WineQualityNet_new_topology init d) as Hf.
  destruct Ht as ((I1 & O1 & S1) & (I2 & O2 & S2) & (I3 & O3 & S3) & (I4 & O4 & S4) & Hp).
  destruct Hf as ((J1 & P1 & T1') & (J2 & P2 & T2') & (J3 & P3 & T3') & (J4 & P4 & T4') & Hq).
  unfold load_state_dict.
  replace (forallb (fun kv => mem (fst kv) parameter_names) (state_dict m)) with true
    by reflexivity.
  cbn [negb].
  rewrite (load_layer_own (state_dict m) "fc1" (fc1 m)); try reflexivity;
    try assumption; try congruence; try lia.
  cbn [bind].
  rewrite (load_layer_own (state_dict m) "fc2" (fc2 m)); try reflexivity;
    try assumption; try congruence; try lia.
  cbn [bind].
  rewrite (load_layer_own (state_dict m) "fc3" (fc3 m)); try reflexivity;
    try assumption; try congruence; try lia.
  cbn [bind].
  rewrite (load_layer_own (state_dict m) "fc4" (fc4 m)); try reflexivity;
    try assumption; try congruence; try lia.
  cbn [bind]. unfold train, set_training. rewrite Hq, <- Hp. reflexivity.
Qed.

(** C4, at the load cell of the notebook.  Whatever checkpoint the save
    cell has written, the load cell raises [TypeError]: its keyword
    [weighta_only] is known neither to [torch.load] nor to the unpickler.
    Whatever the files, the load cell never returns a model. *)
Theorem load_cell_raises_TypeError (init : nat -> initializer)
  (model : WineQualityNet) (optimizer : OptState) (scaler : Scaler.StandardScaler)
  (X_train : list (list R)) (train_losses val_losses : list R)
  (fs : files OptState) :
  load_cell weights_only_default init
    (save_cell model optimizer scaler X_train train_losses val_losses fs) =
  Raise TypeError /\
  (forall fs' : files OptState,
      load_cell weights_only_default init fs' = Raise TypeError \/
      load_cell weights_only_default init fs' = Raise FileNotFoundError).
Proof.
  split; [reflexivity | ].
  intros fs'. unfold load_cell, load_with, torch_load.
  destruct (lookup (normpath "./wine_quality_model.pth") fs') as [obj | ];
    [left | right]; reflexivity.
Qed.

(** With the keyword spelled [weights_only], the load cell returns the
    saved model in evaluation mode, and its predictions are those of the
    saved model in evaluation mode. *)
Lemma load_cell_weights_only_round_trip (init : nat -> initializer)
  (model : WineQualityNet) (optimizer : OptState) (scaler : Scaler.StandardScaler)
  (X_train : list (list R)) (train_losses val_losses : list R)
  (fs : files OptState) :
  topology (ncols X_train) model ->
  load_cell_weights_only weights_only_default init
    (save_cell model optimizer scaler X_train train_losses val_losses fs) =
  Ok (eval model) /\
  forall (loaded : WineQualityNet),
    load_cell_weights_only weights_only_default init
      (save_cell model optimizer scaler X_train train_losses val_losses fs) =
    Ok loaded ->
    forall (keep1 keep2 keep1' keep2' : mask) (x : list (list R)),
      forward loaded keep1 keep2 x = forward (eval model) keep1' keep2' x.
Proof.
  intros Ht.
  assert (Hload : load_cell_weights_only weights_only_default init
                    (save_cell model optimizer scaler X_train train_losses val_losses fs)
                  = Ok (eval model)).
  2: { split; [exact Hload | ]. intros loaded Hl. rewrite Hload in Hl.
       inversion Hl; subst loaded. intros. apply forward_eval_masks. reflexivity. }
  { unfold load_cell_weights_only, load_with, save_cell, torch_save.
    replace (torch_load weights_only_default _ _ _)
      with (Ok {| model_state_dict := state_dict model;
                  optimizer_state_dict := optimizer;
                  Persist.scaler := scaler;
                  input_dim := ncols X_train;
                  Persist.train_losses := train_losses;
                  Persist.val_losses := val_losses |})
      by reflexivity.
    cbn [bind input_dim model_state_dict].
    rewrite (load_state_dict_own init _ model Ht). reflexivity. }
Qed.

End PersistFacts.

(** ** The R² score *)

Section MetricsFacts.

Import Tensor Metrics.
Local Open Scope R_scope.

Lemma squared_errors_self (y : list R) : sum (squared_errors y y) = 0.
Proof.
  unfold squared_errors, sum.
  induction y as [ | a y IH]; [reflexivity | ].
  cbn [combine map fold_right fst snd]. rewrite IH. ring.
Qed.

(** The denominator of R² is the variance times the number of samples. *)
Lemma denominator_var (y : list R) :
  y <> [] ->
  sum (map (fun t => (t - mean y) ^ 2) y) = Scaler.var y * INR (length y).
Proof.
  intros Hne. unfold Scaler.var, mean at 2. rewrite length_map.
  field. now apply INR_length_nonzero.
Qed.

Lemma var_singleton (a : R) : Scaler.var [a] = 0.
Proof. unfold Scaler.var, mean, sum. simpl. field. Qed.

Lemma var_nonzero_two_samples (y : list R) :
  Scaler.var y <> 0 -> (2 <= length y)%nat.
Proof.
  intros H. destruct y as [ | a [ | b y]]; simpl; try lia; exfalso; apply H.
  - unfold Scaler.var, mean, sum, Rdiv. simpl. lra.
  - apply var_singleton.
Qed.

(** Equal lengths and no squared error: the predictions are the
    targets. *)
Lemma squared_errors_zero (y p : list R) :
  length y = length p -> sum (squared_errors y p) = 0 -> p = y.
Proof.
  intros Hlen H.
  pose proof (sum_squares_zero (fun tp : R * R => fst tp - snd tp) (combine y p) H) as Hz.
  clear H. revert p Hlen Hz. induction y as [ | a y IH]; intros [ | b p] Hlen Hz;
    try discriminate; [reflexivity | ].
  f_equal.
  - specialize (Hz (a, b) (or_introl eq_refl)). simpl in Hz. lra.
  - apply IH; [simpl in Hlen; congruence | ].
    intros x Hx. apply Hz. now right.
Qed.

(** With targets of nonzero variance, predictions equal to the targets
    score 1. *)
Lemma r2_score_perfect (y : list R) :
  Scaler.var y <> 0 -> r2_score y y = Ok (Finite 1).
Proof.
  intros Hv. pose proof (var_nonzero_two_samples y Hv) as Hlen.
  unfold r2_score, check_reg_targets. rewrite Nat.eqb_refl. cbn [negb].
  destruct (Nat.eqb_spec (length y) 0) as [E | _]; [lia | ]. cbn [bind].
  destruct (Nat.ltb_spec (length y) 2) as [E | _]; [lia | ].
  rewrite squared_errors_self.
  destruct (Req_dec_T _ 0) as [_ | _];
    destruct (Req_dec_T 0 0) as [_ | N]; try reflexivity; now contradiction N.
Qed.

(** With constant targets and at least two samples, the score is the
    number 1 for predictions equal to the targets and the number 0 for
    any other predictions. *)
Lemma r2_score_constant_target (y p : list R) :
  Scaler.var y = 0 -> (2 <= length y)%nat -> length p = length y ->
  r2_score y p = Ok (Finite (if list_eq_dec Req_dec_T p y then 1 else 0)).
Proof.
  intros Hv Hlen Hp.
  assert (Hne : y <> []) by (intros ->; simpl in Hlen; lia).
  unfold r2_score, check_reg_targets. rewrite Hp, Nat.eqb_refl. cbn [negb].
  destruct (Nat.eqb_spec (length y) 0) as [E | _]; [lia | ]. cbn [bind].
  destruct (Nat.ltb_spec (length y) 2) as [E | _]; [lia | ].
  rewrite (denominator_var y Hne), Hv, Rmult_0_l.
  destruct (Req_dec_T 0 0) as [_ | N]; [ | now contradiction N].
  destruct (Req_dec_T (sum (squared_errors y p)) 0) as [Hz | Hnz];
    destruct (list_eq_dec Req_dec_T p y) as [E | NE]; try reflexivity.
  - exfalso. apply NE. apply squared_errors_zero; [now symmetry | exact Hz].
  - exfalso. apply Hnz. rewrite E. apply squared_errors_self.
Qed.

(** C9, as the code has it.  With targets of nonzero variance, predictions
    equal to the targets score exactly 1.  With targets of zero variance
    and at least two samples the score is an ordinary number, 1 for
    predictions equal to the targets and 0 for any other; only a single
    sample gives NaN with a warning. *)
Theorem r2_score_perfect_and_constant (y p : list R) :
  (Scaler.var y <> 0 -> r2_score y y = Ok (Finite 1)) /\
  (Scaler.var y = 0 -> (2 <= length y)%nat -> length p = length y ->
   r2_score y p = Ok (Finite (if list_eq_dec Req_dec_T p y then 1 else 0))) /\
  (length y = 1%nat -> length p = 1%nat -> r2_score y p = Ok NaN_with_warning).
Proof.
  split; [apply r2_score_perfect | split; [apply r2_score_constant_target | ]].
  intros Hy Hp. unfold r2_score, check_reg_targets. rewrite Hy, Hp. reflexivity.
Qed.

End MetricsFacts.

(** C9 as stated fails: two equal targets have zero variance, and the score
    of a wrong prediction for them is the ordinary number 0, that of the
    right prediction the ordinary number 1. *)
Lemma r2_score_constant_target_is_a_number :
  Scaler.var [5; 5]%R = 0%R /\
  Metrics.r2_score [5; 5]%R [4; 6]%R = Ok (Metrics.Finite 0) /\
  Metrics.r2_score [5; 5]%R [5; 5]%R = Ok (Metrics.Finite 1).
Proof.
  assert (Hv : Scaler.var [5; 5]%R = 0%R)
    by (unfold Scaler.var, Tensor.mean, Tensor.sum; simpl; field).
  split; [exact Hv | split].
  - rewrite (r2_score_constant_target [5; 5]%R [4; 6]%R Hv); [ | simpl; lia | reflexivity].
    destruct (list_eq_dec Req_dec_T [4; 6]%R [5; 5]%R) as [E | _]; [ | reflexivity].
    exfalso. inversion E. lra.
  - rewrite (r2_score_constant_target [5; 5]%R [5; 5]%R Hv); [ | simpl; lia | reflexivity].
    destruct (list_eq_dec Req_dec_T [5; 5]%R [5; 5]%R) as [_ | N]; [reflexivity | ].
    now contradiction N.
Qed.

(** ** The theorems at concrete inputs *)

Lemma forward_is_spec_architecture_witness :
  Net.forward Examples.zero_model Train.no_draw Train.no_draw [[1; 2]]%R =
  Net.compose true
    (Net.spec_architecture Examples.zero_model Train.no_draw Train.no_draw)
    [[1; 2]]%R.
Proof.
  exact (proj1 (forward_is_spec_architecture 2 Examples.zero_model
                  Train.no_draw Train.no_draw [[1; 2]]%R
                  (WineQualityNet_new_topology Examples.zero_init 2))).
Defined.

Lemma forward_output_shape_witness :
  exists y,
    Net.forward Examples.zero_model Train.no_draw Train.no_draw [[1; 2]; [3; 4]]%R = Ok y /\
    Net.shape2 2 1 y.
Proof.
  apply (forward_output_shape 2 2 Examples.zero_model Train.no_draw Train.no_draw).
  - apply WineQualityNet_new_topology.
  - split; reflexivity.
Defined.

Lemma validate_leaves_parameters_witness :
  Net.parameters (snd (Train.validate Examples.uneven_loader [] Examples.zero_model)) =
  Net.parameters Examples.zero_model /\
  exists loss,
    fst (Train.validate Examples.uneven_loader [] Examples.zero_model) = Ok loss.
Proof.
  destruct (validate_leaves_parameters unit (fun m o _ _ _ => (m, o))
              2 Examples.zero_model Examples.uneven_loader []
              Examples.uneven_loader Examples.uneven_loader
              {| Train.order := []; Train.keep1 := fun _ => Train.no_draw;
                 Train.keep2 := fun _ => Train.no_draw |}
              []
              {| Train.model := Examples.zero_model; Train.optimizer := tt;
                 Train.train_losses := []; Train.val_losses := [] |})
    as ([_ Hp] & Hret & _).
  split; [exact Hp | ].
  apply Hret.
  - apply WineQualityNet_new_topology.
  - simpl. lia.
  - discriminate.
  - reflexivity.
Defined.

Lemma epoch_loss_is_unweighted_batch_mean_witness :
  fst (Train.validate Examples.uneven_loader [] Examples.zero_model) =
  Ok (Tensor.mean (map (Train.partition_mse Examples.zero_model)
                       (Train.batches Examples.uneven_loader []))).
Proof.
  destruct (epoch_loss_is_unweighted_batch_mean unit (fun m o _ _ _ => (m, o))
              2 Examples.zero_model Examples.uneven_loader [])
    as (_ & _ & H & _).
  - simpl. lia.
  - intros Hs. discriminate Hs.
  - apply H.
    + apply WineQualityNet_new_topology.
    + discriminate.
    + reflexivity.
Defined.

Lemma two_targets_var : Scaler.var [1; 3]%R = 1%R.
Proof. unfold Scaler.var, Tensor.mean, Tensor.sum. simpl. field. Qed.

Lemma r2_score_perfect_and_constant_witness :
  Metrics.r2_score [1; 3]%R [1; 3]%R = Ok (Metrics.Finite 1).
Proof.
  apply (proj1 (r2_score_perfect_and_constant [1; 3]%R [1; 3]%R)).
  rewrite two_targets_var. lra.
Defined.

(** * Further properties of the code *)

(** ** Splitting: failures and sizes *)

Section SplitSizes.

Import Split.

Variable rng_permutation : nat -> list nat.
Hypothesis rng_permutation_ok :
  forall n, Permutation (rng_permutation n) (seq 0 n).

(** A fifth of [n], rounded up. *)
Lemma ceil_fifth (n : nat) :
  Z.to_nat (Qceiling ((1 # 5) * inject_Z (Z.of_nat n))) = (n + 4) / 5.
Proof.
  unfold Qceiling, Qfloor, Qopp, Qmult, inject_Z. cbn [Qnum Qden].
  rewrite Z.mul_1_l. change (Z.pos (5 * 1)) with 5%Z.
  apply Nat2Z.inj. rewrite Nat2Z.inj_div, Nat2Z.inj_add.
  change (Z.of_nat 4) with 4%Z. change (Z.of_nat 5) with 5%Z.
  pose proof (Zle_0_nat n) as Hn. revert Hn.
  generalize (Z.of_nat n). intros z Hz.
  rewrite Z2Nat.id; Z.div_mod_to_equations; lia.
Qed.

Lemma validate_shuffle_split_fifth (n : nat) :
  validate_shuffle_split n (1 # 5) =
  if n <=? 1 then Raise ValueError else Ok (n - (n + 4) / 5, (n + 4) / 5).
Proof.
  unfold validate_shuffle_split.
  replace (Qle_bool (1 # 5) 0 || Qle_bool 1 (1 # 5)) with false by reflexivity.
  rewrite ceil_fifth.
  pose proof (Nat.div_mod_eq (n + 4) 5) as Hd.
  pose proof (Nat.mod_upper_bound (n + 4) 5 ltac:(lia)) as Hm.
  destruct (Nat.leb_spec n 1) as [H1 | H1];
    destruct (Nat.eqb_spec (n - (n + 4) / 5) 0) as [H0 | H0];
    try reflexivity; exfalso; lia.
Qed.

Lemma train_test_split_mismatch {A B : Type} (X : list A) (y : list B) (q : Q) :
  length X <> length y -> train_test_split rng_permutation X y q = Raise ValueError.
Proof.
  intros H. unfold train_test_split.
  destruct (Nat.eqb_spec (length X) (length y)); [contradiction | reflexivity].
Qed.

Lemma train_test_split_bad_fraction {A B : Type} (X : list A) (y : list B) (q : Q) :
  (q <= 0 \/ 1 <= q)%Q -> train_test_split rng_permutation X y q = Raise ValueError.
Proof.
  intros H. unfold train_test_split.
  destruct (negb (length X =? length y)); [reflexivity | ].
  unfold validate_shuffle_split.
  replace (Qle_bool q 0 || Qle_bool 1 q) with true; [reflexivity | ].
  symmetry. apply orb_true_iff.
  destruct H as [H | H]; [left | right]; now apply Qle_bool_iff.
Qed.

Lemma train_test_split_too_few {A B : Type} (X : list A) (y : list B) :
  length X <= 1 -> train_test_split rng_permutation X y (1 # 5) = Raise ValueError.
Proof.
  intros H. unfold train_test_split.
  destruct (negb (length X =? length y)); [reflexivity | ].
  rewrite validate_shuffle_split_fifth.
  destruct (Nat.leb_spec (length X) 1); [reflexivity | lia].
Qed.

(** The split of the demo notebook, and each of the two of [main]: with at
    least two rows it returns, the second part holding a fifth of the rows,
    rounded up. *)
Lemma train_test_split_fifth {A B : Type} (X : list A) (y : list B) :
  length y = length X -> 2 <= length X ->
  exists X_tr X_te y_tr y_te,
    train_test_split rng_permutation X y (1 # 5) = Ok (X_tr, X_te, y_tr, y_te) /\
    (length X_te = (length X + 4) / 5 /\ length y_te = (length X + 4) / 5) /\
    (length X_tr = length X - (length X + 4) / 5 /\
     length y_tr = length X - (length X + 4) / 5).
Proof.
  intros Hy Hn.
  assert (Hv : validate_shuffle_split (length X) (1 # 5) =
               Ok (length X - (length X + 4) / 5, (length X + 4) / 5)).
  { rewrite validate_shuffle_split_fifth.
    destruct (Nat.leb_spec (length X) 1); [lia | reflexivity]. }
  destruct (train_test_split_returns rng_permutation rng_permutation_ok
              X y (1 # 5) _ _ Hy Hv) as (X_tr & X_te & y_tr & y_te & H).
  exists X_tr, X_te, y_tr, y_te. split; [exact H | ].
  destruct (train_test_split_lengths rng_permutation rng_permutation_ok
              _ _ _ _ _ _ _ _ _ Hv H) as [[L1 L2] [L3 L4]].
  repeat split; assumption.
Qed.

(** X1.  [main]'s two splits fail with [ValueError] when the features and
    the targets differ in length, when the test fraction is not strictly
    between 0 and 1, and, at the default fraction 0.2, when the table has
    fewer than three rows; with three rows or more they return. *)
Theorem main_split_fails_or_returns {A B : Type} (X : list A) (y : list B) (q : Q) :
  (length X <> length y -> main_split rng_permutation X y q = Raise ValueError) /\
  ((q <= 0 \/ 1 <= q)%Q -> main_split rng_permutation X y q = Raise ValueError) /\
  (length y = length X -> length X < 3 ->
   main_split rng_permutation X y (1 # 5) = Raise ValueError) /\
  (length y = length X -> 3 <= length X ->
   exists p, main_split rng_permutation X y (1 # 5) = Ok p).
Proof.
  split; [ | split; [ | split]].
  - intros H. unfold main_split. now rewrite train_test_split_mismatch.
  - intros H. unfold main_split. now rewrite train_test_split_bad_fraction.
  - intros Hy Hn. unfold main_split.
    destruct (Nat.le_gt_cases (length X) 1) as [H1 | H1];
      [now rewrite train_test_split_too_few | ].
    destruct (train_test_split_fifth X y Hy H1)
      as (X_tr & X_te & y_tr & y_te & -> & _ & [L1 L2]).
    cbn [bind]. rewrite train_test_split_too_few; [reflexivity | ].
    rewrite L1. replace (length X) with 2 by lia. simpl. lia.
  - intros Hy Hn. unfold main_split.
    destruct (train_test_split_fifth X y Hy ltac:(lia))
      as (X_tr & X_te & y_tr & y_te & -> & _ & [L1 L2]).
    cbn [bind].
    pose proof (Nat.div_mod_eq (length X + 4) 5) as Hd.
    pose proof (Nat.mod_upper_bound (length X + 4) 5 ltac:(lia)) as Hm.
    destruct (train_test_split_fifth X_tr y_tr ltac:(congruence) ltac:(lia))
      as (X_trf & X_va & y_trf & y_va & -> & _).
    cbn [bind]. now eexists.
Qed.

(** X2.  At the default fraction 0.2, for a table of [n] rows: the test
    part holds [n/5] rows rounded up, the validation part a fifth of the
    remaining rows rounded up, the training part the rest; each held-out
    part is the least number of rows that reaches a fifth. *)
Theorem main_split_sizes {A B : Type} (X : list A) (y : list B) (p : partitions A B) :
  main_split rng_permutation X y (1 # 5) = Ok p ->
  let n := length X in
  let n_test := (n + 4) / 5 in
  let n_rest := n - n_test in
  let n_val := (n_rest + 4) / 5 in
  (length (X_test p) = n_test /\ length (y_test p) = n_test) /\
  (length (X_val p) = n_val /\ length (y_val p) = n_val) /\
  (length (X_train_final p) = n_rest - n_val /\
   length (y_train_final p) = n_rest - n_val) /\
  (n <= 5 * n_test < n + 5) /\
  (n_rest <= 5 * n_val < n_rest + 5) /\
  3 <= n.
Proof.
  intros H n n_test n_rest n_val. unfold main_split in H.
  apply bind_ok in H. destruct H as ([[[X_tr X_te] y_tr] y_te] & H1 & H).
  apply bind_ok in H. destruct H as ([[[X_trf X_va] y_trf] y_va] & H2 & H).
  inversion H; subst p; clear H. cbn [X_test y_test X_val y_val X_train_final y_train_final].
  pose proof (train_test_split_indices rng_permutation rng_permutation_ok _ _ _ _ _ _ _ H1)
    as (a1 & b1 & Hv1 & Hy1 & _).
  pose proof (train_test_split_indices rng_permutation rng_permutation_ok _ _ _ _ _ _ _ H2)
    as (a2 & b2 & Hv2 & Hy2 & _).
  destruct (train_test_split_lengths rng_permutation rng_permutation_ok
              _ _ _ _ _ _ _ _ _ Hv1 H1) as [[L1 L2] [L3 L4]].
  destruct (train_test_split_lengths rng_permutation rng_permutation_ok
              _ _ _ _ _ _ _ _ _ Hv2 H2) as [[M1 M2] [M3 M4]].
  rewrite validate_shuffle_split_fifth in Hv1, Hv2.
  destruct (Nat.leb_spec (length X) 1) as [ | G1]; [discriminate | ].
  destruct (Nat.leb_spec (length X_tr) 1) as [ | G2]; [discriminate | ].
  injection Hv1 as E1 E2. injection Hv2 as E3 E4.
  rewrite <- E1 in L1, L3. rewrite <- E2 in L2, L4.
  rewrite <- E3 in M1, M3. rewrite <- E4 in M2, M4.
  clear E1 E2 E3 E4.
  change (fst (Nat.divmod (length X + 4) 4 0 4)) with ((length X + 4) / 5) in *.
  fold n in L1, L2, L3, L4, G1. fold n_test in L1, L2, L3, L4.
  fold n_rest in L1, L3. rewrite L1 in M1, M2, M3, M4, G2.
  fold n_val in M1, M2, M3, M4.
  pose proof (Nat.div_mod_eq (n + 4) 5) as Hd.
  pose proof (Nat.mod_upper_bound (n + 4) 5 ltac:(lia)) as Hm.
  pose proof (Nat.div_mod_eq (n_rest + 4) 5) as Hd'.
  pose proof (Nat.mod_upper_bound (n_rest + 4) 5 ltac:(lia)) as Hm'.
  fold n_test in Hd. fold n_val in Hd'.
  assert (G3 : 1 < n_rest) by exact G2.
  repeat split; try assumption; try lia.
Qed.

End SplitSizes.

Lemma main_split_fails_or_returns_witness :
  exists p : Split.partitions nat nat,
    Split.main_split (fun n => seq 0 n) [10; 11; 12] [0; 1; 2] (1 # 5) = Ok p.
Proof.
  apply (main_split_fails_or_returns (fun n => seq 0 n)
           (fun n => Permutation_refl (seq 0 n)) [10; 11; 12] [0; 1; 2] (1 # 5)).
  - reflexivity.
  - simpl. lia.
Defined.

Lemma main_split_sizes_witness :
  length [12; 13; 14] = 5 - (5 + 4) / 5 - (5 - (5 + 4) / 5 + 4) / 5.
Proof.
  exact (proj1 (proj1 (proj2 (proj2
    (main_split_sizes (fun n => seq 0 n) (fun n => Permutation_refl (seq 0 n))
       [10; 11; 12; 13; 14] [0; 1; 2; 3; 4]
       {| Split.X_train_final := [12; 13; 14]; Split.y_train_final := [2; 3; 4];
          Split.X_val := [11]; Split.y_val := [1];
          Split.X_test := [10]; Split.y_test := [0] |}
       eq_refl))))).
Defined.

(** ** Standardisation: when it returns, and what it preserves *)

(** [fit] as modelled accepts rows without entries, which scikit-learn
    refuses; the statements on when the scaler returns are therefore made
    for tables with at least one feature. *)

Section ScalerMore.

Import Tensor Scaler.
Local Open Scope R_scope.

Lemma transform_fitted (s : fitted) (X : list (list R)) :
  (X <> [] /\ has_width (length (mean_ s)) X = true /\
   transform (Some s) X = Ok (map (scale_row s) X)) \/
  ((X = [] \/ has_width (length (mean_ s)) X = false) /\
   transform (Some s) X = Raise ValueError).
Proof.
  unfold transform. destruct X as [ | r X]; [right; split; [now left | reflexivity] | ].
  destruct (has_width (length (mean_ s)) (r :: X)) eqn:E.
  - left. split; [discriminate | split; reflexivity].
  - right. split; [now right | reflexivity].
Qed.

Lemma fit_nonempty (X : list (list R)) :
  X <> [] -> exists s, fit X = Ok s /\ length (mean_ s) = ncols X.
Proof.
  intros H. destruct X as [ | r X]; [contradiction | ].
  eexists. split; [reflexivity | ].
  cbn [mean_]. unfold columns. now rewrite !length_map, length_seq.
Qed.

(** X3.  For partitions with at least one feature, the standardising block
    of [main] returns exactly when each of the three partitions has a row
    and all their rows have as many entries as the first training row; when
    it fails, the exception is [ValueError], never [NotFittedError]. *)
Theorem standardize_returns_iff {B : Type} (p : Split.partitions (list R) B) :
  (1 <= ncols (Split.X_train_final p))%nat ->
  ((exists out, standardize p = Ok out) <->
   (Split.X_train_final p <> [] /\
    has_width (ncols (Split.X_train_final p)) (Split.X_train_final p) = true) /\
   (Split.X_val p <> [] /\
    has_width (ncols (Split.X_train_final p)) (Split.X_val p) = true) /\
   (Split.X_test p <> [] /\
    has_width (ncols (Split.X_train_final p)) (Split.X_test p) = true)) /\
  (forall e, standardize p = Raise e -> e = ValueError).
Proof.
  intros _. unfold standardize, fit_transform, StandardScaler_new.
  destruct (Split.X_train_final p) as [ | r Xtr] eqn:Etr.
  - cbn [fit bind]. split.
    + split; [intros [out H]; discriminate H | intros [[H _] _]; now contradiction H].
    + intros e H. now inversion H.
  - destruct (fit_nonempty (r :: Xtr)) as (s & Hfit & Hlen); [discriminate | ].
    rewrite Hfit. cbn [bind]. rewrite <- Hlen.
    destruct (transform_fitted s (r :: Xtr)) as [(N1 & W1 & ->) | ([N1 | W1] & ->)];
      cbn [bind].
    2: discriminate N1.
    2: { split; [ | intros e H; now inversion H].
         split; [intros [out H]; discriminate H | ].
         intros [[_ H] _]. rewrite W1 in H. discriminate H. }
    destruct (transform_fitted s (Split.X_val p)) as [(N2 & W2 & ->) | (F2 & ->)];
      cbn [bind].
    2: { split; [ | intros e H; now inversion H].
         split; [intros [out H]; discriminate H | ].
         intros (_ & [Hn Hw] & _). destruct F2 as [F2 | F2];
           [contradiction | rewrite F2 in Hw; discriminate Hw]. }
    destruct (transform_fitted s (Split.X_test p)) as [(N3 & W3 & ->) | (F3 & ->)];
      cbn [bind].
    2: { split; [ | intros e H; now inversion H].
         split; [intros [out H]; discriminate H | ].
         intros (_ & _ & [Hn Hw]). destruct F3 as [F3 | F3];
           [contradiction | rewrite F3 in Hw; discriminate Hw]. }
    split; [ | intros e H; discriminate H].
    split; [intros _ | intros _; now eexists].
    repeat split; assumption.
Qed.

Lemma fitted_scale_nth (X : list (list R)) (s : fitted) (j : nat) :
  fit X = Ok s -> (j < ncols X)%nat -> 0 < nth j (scale_ s) 0.
Proof.
  intros Hfit Hj. destruct (fit_ok X s Hfit) as (_ & _ & _ & ->).
  rewrite (nth_columns (fun c => handle_zeros_in_scale (std c)) 0 X j Hj).
  unfold handle_zeros_in_scale.
  destruct (Req_dec_T (std (column X j)) 0) as [E | N]; [lra | ].
  pose proof (sqrt_pos (var (column X j))) as Hpos. unfold std in *. lra.
Qed.

(** X4.  The scales of a fitted scaler are all positive, so that scaling
    never divides by zero and keeps, feature by feature, the strict order of
    any two rows of the fitted width. *)
Theorem fitted_scale_positive_monotone (X : list (list R)) (s : fitted) :
  fit X = Ok s ->
  Forall (fun sc => 0 < sc) (scale_ s) /\
  forall (r1 r2 : list R) (j : nat),
    length r1 = ncols X -> length r2 = ncols X -> (j < ncols X)%nat ->
    (nth j r1 0 < nth j r2 0 <->
     nth j (scale_row s r1) 0 < nth j (scale_row s r2) 0).
Proof.
  intros Hfit. destruct (fit_widths X s Hfit) as [Lm Ls]. split.
  - apply Forall_forall. intros sc Hsc.
    destruct (In_nth _ _ 0 Hsc) as (j & Hj & <-).
    apply (fitted_scale_nth X s j Hfit). lia.
  - intros r1 r2 j L1 L2 Hj.
    rewrite !nth_scale_row by lia.
    pose proof (fitted_scale_nth X s j Hfit Hj) as Hpos.
    set (sc := nth j (scale_ s) 0) in *. set (mu := nth j (mean_ s) 0).
    assert (Hinv : 0 < / sc) by now apply Rinv_0_lt_compat.
    unfold Rdiv. split; intros H.
    + apply Rmult_lt_compat_r; [exact Hinv | lra].
    + apply Rmult_lt_reg_r in H; [lra | exact Hinv].
Qed.

End ScalerMore.

Lemma standardize_returns_iff_witness :
  exists out, Scaler.standardize Examples.one_feature = Ok out.
Proof.
  apply (proj1 (standardize_returns_iff Examples.one_feature ltac:(simpl; lia))).
  repeat split; discriminate.
Defined.

Lemma fitted_scale_positive_monotone_witness :
  exists s, Scaler.fit [[1]; [3]]%R = Ok s /\ Forall (fun sc => (0 < sc)%R) (Scaler.scale_ s).
Proof.
  eexists. split; [reflexivity | ].
  exact (proj1 (fitted_scale_positive_monotone [[1]; [3]]%R _ eq_refl)).
Defined.

(** ** The network: size and failures *)

Section NetMore.

Import Tensor Net Train Inspect.
Local Open Scope R_scope.

Lemma numel2_of_shape (l : Linear) :
  Linear_shape_ok l -> numel2 (weight l) = (out_features l * in_features l)%nat.
Proof.
  intros (Hlen & Hw & _). unfold numel2. rewrite <- Hlen.
  assert (H : Forall (fun r => length r = in_features l) (weight l))
    by (apply Forall_forall, has_width_forall, Hw).
  rewrite (length_concat_uniform (in_features l) (weight l) H). lia.
Qed.

(** X5.  The number of parameters printed by the demo notebook is
    [64 * input_dim + 2689] for every model with the layer sizes of
    [WineQualityNet(input_dim)]: 3393 for the eleven features of the wine
    table. *)
Theorem total_parameters_formula (input_dim : nat) (m : WineQualityNet) :
  topology input_dim m ->
  total_parameters m = (64 * input_dim + 2689)%nat /\
  (input_dim = 11%nat -> total_parameters m = 3393%nat).
Proof.
  intros ((I1 & O1 & S1) & (I2 & O2 & S2) & (I3 & O3 & S3) & (I4 & O4 & S4) & _).
  assert (H : total_parameters m = (64 * input_dim + 2689)%nat).
  { unfold total_parameters, parameters. cbn [flat_map app fst snd fold_right].
    rewrite !numel2_of_shape by assumption. unfold numel1.
    destruct S1 as (_ & _ & B1), S2 as (_ & _ & B2), S3 as (_ & _ & B3),
             S4 as (_ & _ & B4).
    rewrite B1, B2, B3, B4, I1, O1, I2, O2, I3, O3, I4, O4. lia. }
  split; [exact H | intros ->; rewrite H; reflexivity].
Qed.

Lemma Linear_forward_fails (l : Linear) (x : list (list R)) :
  has_width (in_features l) x = false -> Linear_forward l x = Raise RuntimeError.
Proof. intros H. unfold Linear_forward. now rewrite H. Qed.

(** Each layer hands the next one rows of the width it expects. *)
Lemma forward_on_width (input_dim : nat) (m : WineQualityNet)
  (keep1 keep2 : mask) (x : list (list R)) :
  topology input_dim m -> has_width input_dim x = true ->
  exists y, forward m keep1 keep2 x = Ok y.
Proof.
  intros ((I1 & O1 & S1) & (I2 & O2 & S2) & (I3 & O3 & S3) & (I4 & O4 & S4) & _) Hw.
  assert (Hx : shape2 (length x) input_dim x) by now split.
  unfold forward.
  rewrite <- I1 in Hx.
  destruct (Linear_forward_shape _ _ _ S1 Hx) as (x1 & -> & H1). simpl.
  apply ReLU_forward_shape in H1.
  apply (Dropout_forward_shape (dropout m) (training m) keep1) in H1.
  rewrite O1, <- I2 in H1.
  destruct (Linear_forward_shape _ _ _ S2 H1) as (x2 & -> & H2). simpl.
  apply ReLU_forward_shape in H2.
  apply (Dropout_forward_shape (dropout m) (training m) keep2) in H2.
  rewrite O2, <- I3 in H2.
  destruct (Linear_forward_shape _ _ _ S3 H2) as (x3 & -> & H3). simpl.
  apply ReLU_forward_shape in H3.
  rewrite O3, <- I4 in H3.
  destruct (Linear_forward_shape _ _ _ S4 H3) as (x4 & -> & H4). simpl.
  now exists x4.
Qed.

(** X6.  A model with the layer sizes of [WineQualityNet(input_dim)]
    returns an output exactly for the batches all of whose rows have
    [input_dim] entries; for any other batch the forward pass raises
    [RuntimeError], in either mode. *)
Theorem forward_returns_iff (input_dim : nat) (m : WineQualityNet)
  (keep1 keep2 : mask) (x : list (list R)) :
  topology input_dim m ->
  ((exists y, forward m keep1 keep2 x = Ok y) <-> has_width input_dim x = true) /\
  (has_width input_dim x = false -> forward m keep1 keep2 x = Raise RuntimeError).
Proof.
  intros Ht.
  assert (Hfail : has_width input_dim x = false ->
                  forward m keep1 keep2 x = Raise RuntimeError).
  { intros H. destruct Ht as ((I1 & _) & _). unfold forward.
    rewrite Linear_forward_fails by (now rewrite I1). reflexivity. }
  split; [ | exact Hfail]. split.
  - intros [y Hy]. destruct (has_width input_dim x) eqn:E; [reflexivity | ].
    rewrite (Hfail eq_refl) in Hy. discriminate Hy.
  - intros Hw. exact (forward_on_width input_dim m keep1 keep2 x Ht Hw).
Qed.

End NetMore.

Lemma total_parameters_formula_witness :
  Inspect.total_parameters Examples.zero_model = (64 * 2 + 2689)%nat.
Proof.
  exact (proj1 (total_parameters_formula 2 Examples.zero_model
                  (WineQualityNet_new_topology Examples.zero_init 2))).
Defined.

Lemma forward_returns_iff_witness :
  Net.forward Examples.zero_model Train.no_draw Train.no_draw [[1; 2; 3]]%R =
  Raise RuntimeError.
Proof.
  apply (proj2 (forward_returns_iff 2 Examples.zero_model Train.no_draw Train.no_draw
                  [[1; 2; 3]]%R (WineQualityNet_new_topology Examples.zero_init 2))).
  reflexivity.
Defined.

(** ** The metrics of the evaluation *)

Section MetricsMore.

Import Tensor Metrics.
Local Open Scope R_scope.

Lemma check_reg_targets_cases (y p : list R) :
  (length y = length p /\ y <> [] /\ check_reg_targets y p = Ok tt) \/
  ((length y <> length p \/ y = []) /\ check_reg_targets y p = Raise ValueError).
Proof.
  unfold check_reg_targets.
  destruct (Nat.eqb_spec (length y) (length p)) as [E | N]; cbn [negb].
  - destruct (Nat.eqb_spec (length y) 0) as [Z | NZ].
    + right. split; [right; now apply length_zero_iff_nil | reflexivity].
    + left. split; [exact E | split; [ | reflexivity]]. intros ->. now apply NZ.
  - right. split; [now left | reflexivity].
Qed.

Lemma length_squared_errors (y p : list R) :
  length y = length p -> length (squared_errors y p) = length y.
Proof.
  intros H. unfold squared_errors. rewrite length_map, length_combine. lia.
Qed.

Lemma sum_squared_errors_nonneg (y p : list R) : 0 <= sum (squared_errors y p).
Proof.
  unfold squared_errors.
  apply (sum_squares_nonneg (fun tp : R * R => fst tp - snd tp)).
Qed.

(** The numerator of R² is the mean squared error times the number of
    samples. *)
Lemma numerator_mse (y p : list R) :
  length y = length p -> y <> [] ->
  sum (squared_errors y p) = mean (squared_errors y p) * INR (length y).
Proof.
  intros Hlen Hne. unfold mean. rewrite (length_squared_errors y p Hlen).
  field. now apply INR_length_nonzero.
Qed.

Lemma r2_score_cases_nonconstant (y p : list R) :
  length y = length p -> Scaler.var y <> 0 ->
  r2_score y p =
  Ok (Finite (1 - mean (squared_errors y p) / Scaler.var y)).
Proof.
  intros Hlen Hv.
  pose proof (var_nonzero_two_samples y Hv) as H2.
  assert (Hne : y <> []) by (intros ->; simpl in H2; lia).
  pose proof (INR_length_nonzero y Hne) as Hn.
  unfold r2_score.
  destruct (check_reg_targets_cases y p) as [(_ & _ & ->) | ([N | N] & _)];
    [ | contradiction | contradiction].
  cbn [bind]. rewrite <- Hlen.
  destruct (Nat.ltb_spec (length y) 2) as [L | _]; [lia | ].
  rewrite (denominator_var y Hne), (numerator_mse y p Hlen Hne).
  destruct (Req_dec_T (Scaler.var y * INR (length y)) 0) as [E | _].
  - exfalso. apply Rmult_integral in E. destruct E; contradiction.
  - destruct (Req_dec_T (mean (squared_errors y p) * INR (length y)) 0) as [E | _].
    + apply Rmult_integral in E. destruct E as [E | E]; [ | contradiction].
      rewrite E. do 2 f_equal. unfold Rdiv. ring.
    + do 2 f_equal. field. split; assumption.
Qed.

(** The two ways the metrics block can end. *)
Lemma test_metrics_cases (y p : list R) :
  (length y = length p /\ y <> [] /\
   exists sc, r2_score y p = Ok sc /\
     test_metrics y p =
     Ok (mean (squared_errors y p), sc, sqrt (mean (squared_errors y p)))) \/
  ((length y <> length p \/ y = []) /\ test_metrics y p = Raise ValueError).
Proof.
  unfold test_metrics, mean_squared_error, r2_score.
  destruct (check_reg_targets_cases y p) as [(Hlen & Hne & ->) | (Hbad & ->)];
    cbn [bind].
  - left. split; [exact Hlen | split; [exact Hne | ]].
    destruct (length p <? 2)%nat; [eexists; split; reflexivity | ].
    cbv zeta.
    destruct (Req_dec_T _ 0); destruct (Req_dec_T _ 0);
      eexists; split; reflexivity.
  - right. split; [exact Hbad | reflexivity].
Qed.

Lemma mse_nonneg_zero (y p : list R) :
  length y = length p -> y <> [] ->
  0 <= mean (squared_errors y p) /\ (mean (squared_errors y p) = 0 <-> p = y).
Proof.
  intros Hlen Hne.
  pose proof (INR_length_nonzero y Hne) as Hn.
  assert (Hpos : 0 < INR (length y))
    by (apply lt_0_INR; destruct y; [contradiction | simpl; lia]).
  split.
  - unfold mean. rewrite (length_squared_errors y p Hlen).
    apply Rmult_le_pos; [apply sum_squared_errors_nonneg | ].
    left. now apply Rinv_0_lt_compat.
  - split.
    + intros Hz. apply squared_errors_zero; [exact Hlen | ].
      rewrite (numerator_mse y p Hlen Hne), Hz. ring.
    + intros ->. unfold mean. rewrite squared_errors_self. unfold Rdiv. ring.
Qed.

(** X8.  The metrics block returns exactly when targets and predictions
    are equally many and at least one; otherwise it raises [ValueError]
    before any metric is computed. *)
Theorem test_metrics_returns_iff (y p : list R) :
  ((exists r, test_metrics y p = Ok r) <-> (length y = length p /\ y <> [])) /\
  (forall e, test_metrics y p = Raise e -> e = ValueError).
Proof.
  destruct (test_metrics_cases y p)
    as [(Hlen & Hne & sc & _ & ->) | (Hbad & ->)].
  - split.
    + split; [intros _; now split | intros _; now eexists].
    + intros e H. discriminate H.
  - split.
    + split; [intros [r H]; discriminate H | ].
      intros [Hlen Hne]. destruct Hbad; contradiction.
    + intros e H. now inversion H.
Qed.



(** X11.  Predicting the mean of the targets for every sample gives a mean
    squared error equal to the variance of the targets and, for targets
    that are not all equal, an R² of 0. *)
Theorem mean_baseline_metrics (y : list R) :
  Scaler.var y <> 0 ->
  mean_squared_error y (map (fun _ => mean y) y) = Ok (Scaler.var y) /\
  r2_score y (map (fun _ => mean y) y) = Ok (Finite 0).
Proof.
  intros Hv.
  assert (Hlen : length y = length (map (fun _ : R => mean y) y))
    by now rewrite length_map.
  assert (Hse : squared_errors y (map (fun _ => mean y) y) =
                map (fun t => (t - mean y) ^ 2) y).
  { unfold squared_errors. generalize (mean y). intros c. clear Hv Hlen.
    induction y as [ | a l IH]; [reflexivity | ].
    cbn [map combine fst snd]. f_equal. exact IH. }
  split.
  - unfold mean_squared_error.
    destruct (check_reg_targets_cases y (map (fun _ => mean y) y))
      as [(_ & _ & ->) | ([N | N] & _)].
    + cbn [bind]. now rewrite Hse.
    + contradiction.
    + exfalso. apply (var_nonzero_nonempty y Hv N).
  - rewrite (r2_score_cases_nonconstant y _ Hlen Hv), Hse.
    do 2 f_equal. fold (Scaler.var y). field. exact Hv.
Qed.

End MetricsMore.


Lemma test_metrics_returns_iff_witness :
  exists r, Metrics.test_metrics [1; 3]%R [2; 2]%R = Ok r.
Proof.
  apply (proj1 (test_metrics_returns_iff [1; 3]%R [2; 2]%R)).
  split; [reflexivity | discriminate].
Defined.

Lemma mean_baseline_metrics_witness :
  Metrics.r2_score [1; 3]%R (map (fun _ => Tensor.mean [1; 3]%R) [1; 3]%R) =
  Ok (Metrics.Finite 0).
Proof.
  refine (proj2 (mean_baseline_metrics [1; 3]%R _)).
  rewrite two_targets_var. lra.
Defined.




(** ** Separating features and target *)

Section FrameFacts.

Import Tensor Frame.
Local Open Scope string_scope.
Local Open Scope list_scope.

Variable label : string.

Lemma index_of_None (cols : list string) :
  index_of label cols = None <-> ~ In label cols.
Proof.
  induction cols as [ | c cols IH]; cbn [index_of In].
  - split; [intros _ [] | reflexivity].
  - destruct (String.eqb_spec c label) as [E | N].
    + split; [discriminate | intros H; exfalso; apply H; now left].
    + destruct (index_of label cols) as [k | ]; cbn [option_map].
      * split; [discriminate | ]. intros H. exfalso.
        assert (Hk : Some k = None)
          by (apply (proj2 IH); intros Hin; apply H; now right).
        discriminate Hk.
      * split; [ | reflexivity]. intros _ [H | H]; [contradiction | ].
        now apply (proj1 IH).
Qed.

Lemma index_of_Some (cols : list string) (j : nat) :
  index_of label cols = Some j -> j < length cols /\ nth j cols "" = label.
Proof.
  revert j. induction cols as [ | c cols IH]; intros j; cbn [index_of];
    [discriminate | ].
  destruct (String.eqb_spec c label) as [E | N].
  - intros H. inversion H. cbn. split; [lia | exact E].
  - destruct (index_of label cols) as [k | ]; cbn [option_map]; [ | discriminate].
    intros H. inversion H. destruct (IH k eq_refl) as [Hk Hn].
    cbn [length nth]. split; [lia | exact Hn].
Qed.

(** A row keeps all its entries when no column carries the label. *)
Lemma drop_entries_absent {A : Type} (cols : list string) (row : list A) :
  ~ In label cols -> length row = length cols ->
  drop_entries label cols row = row.
Proof.
  revert row. induction cols as [ | c cols IH]; intros [ | x row] Hout Hlen;
    try discriminate; [reflexivity | ].
  cbn [drop_entries].
  destruct (String.eqb_spec c label) as [E | N].
  - exfalso. apply Hout. now left.
  - f_equal. apply IH; [ | cbn in Hlen; lia].
    intros H. apply Hout. now right.
Qed.

(** Dropping the labelled column from a row removes the one entry at the
    position of the label. *)
Lemma drop_entries_split (cols : list string) (row : list R) (j : nat) :
  NoDup cols -> index_of label cols = Some j -> length row = length cols ->
  S (length (drop_entries label cols row)) = length cols /\
  row = firstn j (drop_entries label cols row)
        ++ nth j row 0%R :: skipn j (drop_entries label cols row).
Proof.
  revert row j. induction cols as [ | c cols IH]; intros [ | x row] j Hnd Hj Hlen;
    try discriminate.
  cbn [index_of] in Hj. cbn [drop_entries]. cbn [length] in Hlen.
  inversion Hnd as [ | ? ? Hc Hnd']; subst.
  destruct (String.eqb_spec c label) as [E | N].
  - inversion Hj; subst j. subst c.
    rewrite drop_entries_absent by (assumption || lia).
    cbn [length firstn skipn nth app]. split; [lia | reflexivity].
  - destruct (index_of label cols) as [k | ] eqn:Ek; cbn [option_map] in Hj;
      [ | discriminate].
    inversion Hj; subst j.
    destruct (IH row k Hnd' eq_refl ltac:(lia)) as [Hl Hr].
    cbn [length firstn skipn nth app]. split; [lia | ].
    f_equal. exact Hr.
Qed.

End FrameFacts.

Section SeparateFacts.

Import Tensor Frame.
Local Open Scope string_scope.
Local Open Scope list_scope.

(** X12.  On a table with distinct column labels and complete rows, the
    separation of features and target fails with [KeyError] exactly when no
    column is labelled [quality]; otherwise [X] and [y] have one entry per
    row of the table, every row of [X] has the logged number of features,
    one less than the table has columns, and putting each target back at
    the position of the [quality] column gives the rows of the table
    again. *)
Theorem separate_splits_table (wine_data : DataFrame) :
  frame_ok wine_data ->
  (separate wine_data = None <-> ~ In "quality" (columns wine_data)) /\
  (forall sp, separate wine_data = Some sp ->
     num_samples sp = length (X sp) /\
     length (y sp) = length (X sp) /\
     (forall row, In row (X sp) -> Z.of_nat (length row) = num_features sp) /\
     exists j, index_of "quality" (columns wine_data) = Some j /\
       values wine_data =
       map (fun xy => firstn j (fst xy) ++ snd xy :: skipn j (fst xy))
           (combine (X sp) (y sp))).
Proof.
  intros [Hnd Hw]. unfold separate, drop_values, getitem_values, shape.
  cbn [fst snd]. split.
  - rewrite <- (index_of_None "quality" (columns wine_data)).
    destruct (index_of "quality" (columns wine_data)); split;
      intros H; try discriminate H; reflexivity.
  - intros sp.
    destruct (index_of "quality" (columns wine_data)) as [j | ] eqn:Ej;
      [ | discriminate].
    intros H. inversion H; subst sp; clear H. cbn [num_samples num_features X y].
    rewrite !length_map.
    assert (Hrow : forall row, In row (values wine_data) ->
                   S (length (drop_entries "quality" (columns wine_data) row)) =
                   length (columns wine_data) /\
                   row = firstn j (drop_entries "quality" (columns wine_data) row)
                         ++ nth j row 0%R
                         :: skipn j (drop_entries "quality" (columns wine_data) row)).
    { intros row Hin.
      apply (drop_entries_split "quality" (columns wine_data) row j Hnd Ej).
      exact (has_width_In _ _ row Hw Hin). }
    split; [reflexivity | ]. split; [reflexivity | ]. split.
    + intros row Hin. apply in_map_iff in Hin. destruct Hin as (r & <- & Hr).
      destruct (Hrow r Hr) as [Hl _]. lia.
    + exists j. split; [reflexivity | ].
      rewrite <- (map_id (values wine_data)) at 1.
      generalize Hrow. generalize (values wine_data). intros rows Hrows.
      induction rows as [ | r rows IH]; [reflexivity | ].
      cbn [map combine fst snd]. f_equal.
      * exact (proj2 (Hrows r (or_introl eq_refl))).
      * apply IH. intros row Hin. apply Hrows. now right.
Qed.

End SeparateFacts.

Lemma small_frame_ok : Frame.frame_ok Samples.small_frame.
Proof.
  split; [ | reflexivity].
  cbn [Samples.small_frame Frame.columns].
  repeat constructor; cbn [In]; intros H;
    repeat (destruct H as [H | H]; [discriminate H | ]); exact H.
Qed.

Lemma separate_splits_table_witness :
  Frame.separate Samples.small_frame = None <->
  ~ In "quality"%string (Frame.columns Samples.small_frame).
Proof.
  exact (proj1 (separate_splits_table Samples.small_frame small_frame_ok)).
Defined.

(** ** The batches of one pass over a loader *)

Section PassFacts.

Import Tensor Train.

Variable A : Type.
Variable bs : nat.
Hypothesis bs_positive : 1 <= bs.

Lemma chunks_fuel_sizes (fuel : nat) (l : list A) :
  Forall (fun c => 1 <= length c <= bs) (chunks_fuel fuel bs l).
Proof.
  revert l. induction fuel as [ | fuel IH]; intros l; [constructor | ].
  destruct l as [ | a l]; [constructor | ].
  cbn [chunks_fuel]. constructor; [ | apply IH].
  rewrite length_firstn. cbn [length]. lia.
Qed.

(** Every chunk but the last is full. *)
Lemma chunks_fuel_all_but_last (fuel : nat) (l : list A) (i : nat) :
  S i < length (chunks_fuel fuel bs l) ->
  length (nth i (chunks_fuel fuel bs l) []) = bs.
Proof.
  revert l i. induction fuel as [ | fuel IH]; intros l i Hi;
    [cbn in Hi; lia | ].
  destruct l as [ | a l]; [cbn in Hi; lia | ].
  cbn [chunks_fuel length] in Hi. cbn [chunks_fuel].
  destruct i as [ | i].
  - cbn [nth]. rewrite length_firstn.
    destruct fuel as [ | fuel]; [cbn in Hi; lia | ].
    destruct (skipn bs (a :: l)) as [ | z rest] eqn:E; [cbn in Hi; lia | ].
    assert (Hlen : length (skipn bs (a :: l)) = S (length rest))
      by now rewrite E.
    rewrite length_skipn in Hlen. lia.
  - cbn [nth]. apply IH. lia.
Qed.

(** A chunk is full or holds the remainder of the division. *)
Lemma chunks_fuel_remainder (fuel : nat) (l : list A) :
  Forall (fun c => length c = bs \/ length c = length l mod bs)
         (chunks_fuel fuel bs l).
Proof.
  revert l. induction fuel as [ | fuel IH]; intros l; [constructor | ].
  destruct l as [ | a l]; [constructor | ].
  cbn [chunks_fuel]. constructor.
  - rewrite length_firstn.
    destruct (Nat.le_gt_cases bs (length (a :: l))) as [H | H]; [left; lia | ].
    right. rewrite Nat.mod_small by exact H. lia.
  - destruct (Nat.le_gt_cases bs (length (a :: l))) as [H | H].
    + specialize (IH (skipn bs (a :: l))). rewrite length_skipn in IH.
      replace ((length (a :: l) - bs) mod bs) with (length (a :: l) mod bs) in IH;
        [exact IH | ].
      replace (length (a :: l)) with ((length (a :: l) - bs) + 1 * bs) at 1 by lia.
      apply Nat.Div0.mod_add.
    + rewrite skipn_all2 by lia. destruct fuel; constructor.
Qed.

(** A remainder of one sample gives a chunk of one sample. *)
Lemma chunks_fuel_single (fuel : nat) (l : list A) :
  length l <= fuel -> l <> [] -> bs = 1 \/ length l mod bs = 1 ->
  Exists (fun c => length c = 1) (chunks_fuel fuel bs l).
Proof.
  revert l. induction fuel as [ | fuel IH]; intros l Hf Hne Hone.
  - destruct l; [contradiction | cbn in Hf; lia].
  - destruct l as [ | a l]; [contradiction | ].
    cbn [chunks_fuel].
    destruct Hone as [H1 | Hmod].
    + apply Exists_cons_hd. rewrite length_firstn, H1. cbn [length]. lia.
    + destruct (Nat.le_gt_cases bs (length (a :: l))) as [H | H].
      * apply Exists_cons_tl. apply IH.
        -- rewrite length_skipn. cbn [length] in *. lia.
        -- intros E. apply (f_equal (@length A)) in E.
           rewrite length_skipn in E. cbn [length] in E.
           assert (Hbs : length (a :: l) = bs) by (cbn [length] in *; lia).
           rewrite Hbs, Nat.Div0.mod_same in Hmod. discriminate Hmod.
        -- right. rewrite length_skipn.
           replace (length (a :: l)) with ((length (a :: l) - bs) + 1 * bs)
             in Hmod at 1 by lia.
           now rewrite Nat.Div0.mod_add in Hmod.
      * apply Exists_cons_hd. rewrite Nat.mod_small in Hmod by exact H.
        rewrite length_firstn, Hmod. lia.
Qed.

End PassFacts.

Section LoaderPass.

Import Tensor Train.

(** X13.  One pass over a loader with a positive batch size hands out
    [len] batches that together hold every sample of the data set exactly
    once, in the order of the data set when the loader does not shuffle;
    no batch is empty or larger than the batch size, and every batch but
    the last is full. *)
Theorem batches_cover_pass (dl : DataLoader) (order : list nat) :
  1 <= batch_size dl -> order_ok dl order ->
  length (batches dl order) = len dl /\
  Permutation (concat (batches dl order)) (dataset dl) /\
  (shuffle dl = false -> concat (batches dl order) = dataset dl) /\
  Forall (fun b => 1 <= length b <= batch_size dl) (batches dl order) /\
  (forall i, S i < len dl ->
     length (nth i (batches dl order) []) = batch_size dl).
Proof.
  intros Hbs Hord.
  pose proof (batches_length dl order Hbs Hord) as Hlen.
  split; [exact Hlen | ].
  split; [exact (batches_concat_Permutation dl order Hbs Hord) | ].
  split; [ | split].
  - intros Hsh. rewrite (batches_concat dl order Hbs), Hsh. reflexivity.
  - unfold batches, chunks. cbv zeta. now apply chunks_fuel_sizes.
  - intros i Hi. rewrite <- Hlen in Hi. revert Hi.
    unfold batches, chunks. cbv zeta. now apply chunks_fuel_all_but_last.
Qed.

End LoaderPass.

Lemma batches_cover_pass_witness :
  length (Train.batches Examples.uneven_loader []) = Train.len Examples.uneven_loader.
Proof.
  refine (proj1 (batches_cover_pass Examples.uneven_loader [] _ _)).
  - cbn. lia.
  - intros H. discriminate H.
Defined.

(** ** Evaluation on the test set *)

(** The lemmas below compute in exact real arithmetic, where the output for
    a row does not depend on its batch; the program's single-precision
    numbers agree with them up to rounding only, so the statements kept as
    properties of the evaluation are about when it returns and what it
    raises. *)

Section EvaluateFacts.

Import Tensor Net StateExn Train Metrics Evaluate.
Local Open Scope R_scope.

Local Notation "'evaluation_body'" :=
  (fun (lists : list item * list item) (b : TensorDataset) =>
     let test_predictions := fst lists in
     let test_targets := snd lists in
     mbind get (fun model =>
     mbind (lift (forward model no_draw no_draw (batch_X b))) (fun outputs =>
     let outputs := squeeze outputs in
     mbind (lift (elements outputs)) (fun new_predictions =>
     mbind (lift (elements (batch_y b))) (fun new_targets =>
     ret (test_predictions ++ new_predictions, test_targets ++ new_targets)))))).

(** The outputs of a model in evaluation mode, as a column. *)
Lemma forward_eval_column (d : nat) (m : WineQualityNet) (X : list (list R)) :
  topology d m -> has_width d X = true ->
  forward (eval m) no_draw no_draw X = Ok (map (fun o => [o]) (map (predict m) X)).
Proof.
  intros Ht Hw.
  rewrite (forward_eval_rows d (eval m) no_draw no_draw X Ht eq_refl Hw).
  f_equal. rewrite map_map. apply map_ext_in. intros r Hr.
  change (row_forward (eval m) r) with (row_forward m r).
  apply (row_forward_predict d m r Ht).
  exact (proj1 (has_width_forall d X) Hw r Hr).
Qed.

Lemma evaluation_body_step (d : nat) (m : WineQualityNet)
  (lists : list item * list item) (b : TensorDataset) :
  topology d m -> has_width d (batch_X b) = true ->
  evaluation_body lists b (eval m) =
  (if not_single b
   then Ok (fst lists ++ map Scalar (map (predict m) (batch_X b)),
            snd lists ++ map Scalar (map snd b))
   else Raise TypeError, eval m).
Proof.
  intros Ht Hw. cbv zeta. unfold mbind, get, lift, ret.
  rewrite (forward_eval_column d m (batch_X b) Ht Hw), squeeze_column.
  unfold not_single, batch_X, batch_y.
  destruct b as [ | s [ | s' b]]; reflexivity.
Qed.

Lemma evaluation_loop (d : nat) (m : WineQualityNet) (bs : list TensorDataset)
  (lists : list item * list item) :
  topology d m ->
  (forall b, In b bs -> has_width d (batch_X b) = true) ->
  foldM evaluation_body lists bs (eval m) =
  (if forallb not_single bs
   then Ok (fst lists ++ map Scalar (map (predict m) (map fst (concat bs))),
            snd lists ++ map Scalar (map snd (concat bs)))
   else Raise TypeError, eval m).
Proof.
  intros Ht. revert lists. induction bs as [ | b bs IH]; intros lists Hw.
  - cbn. unfold ret. rewrite !app_nil_r. now destruct lists.
  - cbn [foldM]. unfold mbind at 1.
    match goal with
    | |- (let (_, _) := ?c in _) = _ =>
        replace c with
          (if not_single b
           then Ok (fst lists ++ map Scalar (map (predict m) (batch_X b)),
                    snd lists ++ map Scalar (map snd b))
           else @Raise (list item * list item) TypeError, eval m)
          by (symmetry;
              exact (evaluation_body_step d m lists b Ht (Hw b (or_introl eq_refl))))
    end.
    cbn [forallb concat]. destruct (not_single b); cbn [andb]; [ | reflexivity].
    rewrite IH by (intros b' Hb'; apply Hw; now right).
    cbn [fst snd]. rewrite !map_app, <- !app_assoc. reflexivity.
Qed.

Lemma np_array_scalars (l : list R) : np_array (map Scalar l) = Ok (T1 l).
Proof.
  unfold np_array.
  replace (forallb is_scalar (map Scalar l)) with true
    by (symmetry; apply forallb_forall; intros it Hit;
        apply in_map_iff in Hit; now destruct Hit as (? & <- & _)).
  do 2 f_equal. unfold scalars. induction l as [ | a l IH]; [reflexivity | ].
  cbn [map flat_map app]. now rewrite IH.
Qed.

(** The evaluation of [main] in one piece. *)
Lemma main_evaluation_unfold (d : nat) (m : WineQualityNet) (dl : DataLoader)
  (order : list nat) :
  topology d m ->
  has_width d (map fst (dataset dl)) = true ->
  main_evaluation dl order m =
  (if forallb not_single (batches dl order)
   then test_metrics (map snd (concat (batches dl order)))
                     (map (predict m) (map fst (concat (batches dl order))))
   else Raise TypeError, eval m).
Proof.
  intros Ht Hw. unfold main_evaluation.
  unfold mbind at 1. unfold modify at 1. unfold mbind at 1.
  assert (Hb : forall b, In b (batches dl order) -> has_width d (batch_X b) = true).
  { intros b Hb. apply has_width_forall. intros r Hr.
    apply in_map_iff in Hr. destruct Hr as (s & <- & Hs).
    apply (has_width_In d (map fst (dataset dl)) (fst s) Hw).
    apply in_map. exact (batches_In dl order b s Hb Hs). }
  match goal with
  | |- context [foldM ?f ?a ?l ?st] =>
      replace (foldM f a l st) with (foldM evaluation_body a l st) by reflexivity
  end.
  rewrite (evaluation_loop d m (batches dl order) ([], []) Ht Hb).
  destruct (forallb not_single (batches dl order)); [ | reflexivity].
  cbn [fst snd app]. unfold mbind, lift.
  rewrite !np_array_scalars. cbn [as_predictions bind]. reflexivity.
Qed.

(** The evaluation of the demo notebook in one piece. *)
Lemma demo_evaluation_unfold (d : nat) (m : WineQualityNet) (X_test : list (list R))
  (y_test : list R) :
  topology d m -> has_width d X_test = true ->
  demo_evaluation X_test y_test m =
  (if (length X_test =? 1)%nat then Raise TypeError
   else test_metrics y_test (map (predict m) X_test), eval m).
Proof.
  intros Ht Hw. unfold demo_evaluation.
  unfold mbind at 1. unfold modify at 1. unfold mbind, get, lift.
  rewrite (forward_eval_column d m X_test Ht Hw), squeeze_column.
  destruct X_test as [ | r [ | r' X']]; reflexivity.
Qed.

Lemma forallb_not_single (bsz n : nat) (bs : list TensorDataset) :
  (2 <= bsz)%nat -> (n mod bsz <> 1)%nat ->
  Forall (fun c => length c = bsz \/ length c = (n mod bsz)%nat) bs ->
  forallb not_single bs = true.
Proof.
  intros Hb Hn H. apply forallb_forall. intros b Hin.
  apply (proj1 (Forall_forall _ _) H) in Hin. unfold not_single.
  destruct (Nat.eqb_spec (length b) 1) as [E | _]; [ | reflexivity].
  destruct Hin as [Hin | Hin]; lia.
Qed.

Lemma forallb_single (bs : list TensorDataset) :
  Exists (fun c => length c = 1%nat) bs -> forallb not_single bs = false.
Proof.
  induction 1 as [b bs Hb | b bs _ IH]; cbn [forallb].
  - unfold not_single. now rewrite Hb.
  - rewrite IH. apply andb_false_r.
Qed.

Lemma length_pass (dl : DataLoader) (order : list nat) :
  order_ok dl order -> length (pass dl order) = length (dataset dl).
Proof.
  intros Hord. unfold pass. destruct (shuffle dl) eqn:E; [ | reflexivity].
  apply Permutation_length, pick_Permutation, Hord, E.
Qed.

(** X14.  The evaluation of [main] always leaves the model in evaluation
    mode.  For a model with the layer sizes of [WineQualityNet(d)] and a
    test loader of samples with [d] features it returns its three metrics
    exactly when the loader holds a sample, the batch size is at least 2
    and no single sample is left over for the last batch; the mean squared
    error and its root are then not negative.  Over a loader without
    samples it raises [ValueError]. *)
Theorem main_evaluation_returns_iff (d : nat) (m : WineQualityNet) (dl : DataLoader)
  (order : list nat) :
  topology d m ->
  has_width d (map fst (dataset dl)) = true ->
  order_ok dl order ->
  (1 <= batch_size dl)%nat ->
  snd (main_evaluation dl order m) = eval m /\
  ((exists r, fst (main_evaluation dl order m) = Ok r) <->
   (dataset dl <> [] /\ (2 <= batch_size dl)%nat /\
    (length (dataset dl) mod batch_size dl <> 1)%nat)) /\
  (dataset dl = [] -> fst (main_evaluation dl order m) = Raise ValueError) /\
  (forall (mse rmse : R) (r2 : score),
     fst (main_evaluation dl order m) = Ok (mse, r2, rmse) -> 0 <= mse /\ 0 <= rmse).
Proof.
  intros Ht Hw Hord Hbs.
  rewrite (main_evaluation_unfold d m dl order Ht Hw). cbn [fst snd].
  split; [reflexivity | ].
  assert (Hconcat : concat (batches dl order) = pass dl order)
    by exact (batches_concat dl order Hbs).
  rewrite Hconcat.
  assert (Hlen : length (map snd (pass dl order)) =
                 length (map (predict m) (map fst (pass dl order))))
    by now rewrite !length_map.
  destruct (dataset dl) as [ | s0 ds] eqn:Eds.
  - (* no samples *)
    destruct (batches_empty_dataset dl order Eds) as [Hb _].
    assert (Hp : pass dl order = []).
    { rewrite <- Hconcat, Hb. reflexivity. }
    rewrite Hb, Hp. cbn [forallb map].
    replace (test_metrics [] []) with (@Raise (R * score * R) ValueError)
      by reflexivity.
    split; [ | split].
    + split; [intros [r H]; discriminate H | intros (H & _); now contradiction H].
    + reflexivity.
    + intros mse rmse r2 H. discriminate H.
  - (* at least one sample *)
    assert (Hne : dataset dl <> []) by (rewrite Eds; discriminate).
    rewrite <- Eds in *. clear Eds s0 ds.
    assert (Hpne : map snd (pass dl order) <> []).
    { intros E. apply (f_equal (@length _)) in E.
      rewrite length_map, (length_pass dl order Hord) in E.
      destruct (dataset dl); [now apply Hne | discriminate E]. }
    destruct (Nat.eq_dec (batch_size dl) 1) as [B1 | B1];
      [ | destruct (Nat.eq_dec (length (dataset dl) mod batch_size dl) 1)
            as [M1 | M1]].
    + rewrite forallb_single.
      * split; [ | split].
        -- split; [intros [r H]; discriminate H | intros (_ & H & _); lia].
        -- intros H. contradiction.
        -- intros mse rmse r2 H. discriminate H.
      * unfold batches, chunks. cbv zeta.
        apply (chunks_fuel_single _ _ Hbs); [lia | | now left].
        intros E. assert (E' : pass dl order = []) by exact E.
        rewrite E' in Hpne. now apply Hpne.
    + rewrite forallb_single.
      * split; [ | split].
        -- split; [intros [r H]; discriminate H | intros (_ & _ & H); contradiction].
        -- intros H. contradiction.
        -- intros mse rmse r2 H. discriminate H.
      * unfold batches, chunks. cbv zeta.
        apply (chunks_fuel_single _ _ Hbs); [lia | | ].
        -- intros E. assert (E' : pass dl order = []) by exact E.
           rewrite E' in Hpne. now apply Hpne.
        -- right. rewrite <- (length_pass dl order Hord) in M1. exact M1.
    + rewrite (forallb_not_single (batch_size dl) (length (dataset dl)));
        [ | lia | exact M1 | ].
      * destruct (test_metrics_cases (map snd (pass dl order))
                    (map (predict m) (map fst (pass dl order))))
          as [(_ & _ & sc & _ & E) | ([N | N] & _)];
          [ | contradiction | contradiction].
        rewrite E. split; [ | split].
        -- split; [intros _ | intros _; now eexists].
           split; [exact Hne | split; [lia | exact M1]].
        -- intros H. contradiction.
        -- intros mse rmse r2 H. inversion H; subst.
           split; [ | apply sqrt_pos].
           exact (proj1 (mse_nonneg_zero _ _ Hlen Hpne)).
      * rewrite <- (length_pass dl order Hord).
        unfold batches, chunks. cbv zeta.
        now apply chunks_fuel_remainder.
Qed.

(** X15.  When the test loader hands out a batch of exactly one sample,
    because the batch size is 1 or one sample is left over for the last
    batch, the evaluation of [main] raises [TypeError]: the squeezed
    output of that batch has no dimension left to iterate over.  The demo
    notebook, which evaluates the whole test set at once, fails in this
    way only for a test set of one sample. *)
Theorem main_evaluation_single_sample_batch (d : nat) (m : WineQualityNet)
  (dl : DataLoader) (order : list nat) :
  topology d m ->
  has_width d (map fst (dataset dl)) = true ->
  order_ok dl order ->
  (1 <= batch_size dl)%nat ->
  dataset dl <> [] ->
  (batch_size dl = 1 \/ length (dataset dl) mod batch_size dl = 1)%nat ->
  main_evaluation dl order m = (Raise TypeError, eval m) /\
  (demo_evaluation (map fst (dataset dl)) (map snd (dataset dl)) m =
   (Raise TypeError, eval m) <-> length (dataset dl) = 1%nat).
Proof.
  intros Ht Hw Hord Hbs Hne Hone. split.
  - rewrite (main_evaluation_unfold d m dl order Ht Hw).
    rewrite forallb_single; [reflexivity | ].
    unfold batches, chunks. cbv zeta.
    apply (chunks_fuel_single _ _ Hbs); [lia | | ].
    + intros E. assert (E' : pass dl order = []) by exact E.
      apply (f_equal (@length _)) in E'. clear E. rename E' into E.
      rewrite (length_pass dl order Hord) in E.
      destruct (dataset dl); [now apply Hne | discriminate E].
    + rewrite <- (length_pass dl order Hord) in Hone. exact Hone.
  - rewrite (demo_evaluation_unfold d m _ _ Ht Hw), length_map.
    destruct (Nat.eqb_spec (length (dataset dl)) 1) as [E | N].
    + split; [intros _; exact E | reflexivity].
    + split; [ | intros E; contradiction]. intros H. exfalso.
      destruct (test_metrics_cases (map snd (dataset dl))
                  (map (predict m) (map fst (dataset dl))))
        as [(_ & _ & sc & _ & E) | (_ & E)]; rewrite E in H; discriminate H.
Qed.

End EvaluateFacts.

Lemma main_evaluation_returns_iff_witness :
  exists r,
    fst (Evaluate.main_evaluation Samples.even_loader [] Examples.zero_model) = Ok r.
Proof.
  refine (proj2 (proj1 (proj2 (main_evaluation_returns_iff 2 Examples.zero_model
                   Samples.even_loader []
                   (WineQualityNet_new_topology Examples.zero_init 2) eq_refl _ _))) _).
  - intros H. discriminate H.
  - cbn. lia.
  - split; [discriminate | ]. split; cbn; lia.
Defined.

Lemma main_evaluation_single_sample_batch_witness :
  Evaluate.main_evaluation Examples.uneven_loader [] Examples.zero_model =
  (Raise TypeError, Net.eval Examples.zero_model).
Proof.
  refine (proj1 (main_evaluation_single_sample_batch 2 Examples.zero_model
                   Examples.uneven_loader []
                   (WineQualityNet_new_topology Examples.zero_init 2) eq_refl _ _ _ _)).
  - intros H. discriminate H.
  - cbn. lia.
  - discriminate.
  - right. reflexivity.
Defined.

(** ** The training pass and the epoch loop *)

Section TrainMore.

Import Tensor Net StateExn Train.
Local Open Scope R_scope.

Variable OptState : Type.
Variable backward_step :
  WineQualityNet -> OptState -> mask -> mask -> TensorDataset ->
  WineQualityNet * OptState.

Lemma mean_squares_nonneg {T : Type} (f : T -> R) (l : list T) :
  0 <= mean (map (fun x => f x ^ 2) l).
Proof.
  unfold mean. rewrite length_map.
  pose proof (sum_squares_nonneg f l) as Hs.
  destruct l as [ | a l].
  - unfold sum, Rdiv. cbn. lra.
  - apply Rmult_le_pos; [exact Hs | ].
    left. apply Rinv_0_lt_compat, lt_0_INR. cbn. lia.
Qed.

Lemma MSELoss_nonneg (input target : tensor) (l : R) :
  MSELoss input target = Ok l -> 0 <= l.
Proof.
  unfold MSELoss. cbv zeta.
  destruct (broadcast_dim _ _) as [n | e]; [ | discriminate].
  cbn [bind]. destruct (broadcast_dim _ _) as [k | e]; [ | discriminate].
  cbn [bind]. intros H. inversion H.
  apply (mean_squares_nonneg (fun xy : R * R => fst xy - snd xy)).
Qed.

Lemma batch_loss_nonneg (m : WineQualityNet) (k1 k2 : mask) (b : TensorDataset)
  (l : R) :
  batch_loss m k1 k2 b = Ok l -> 0 <= l.
Proof.
  unfold batch_loss.
  destruct (forward m k1 k2 (batch_X b)) as [outputs | e]; [ | discriminate].
  cbn [bind]. apply MSELoss_nonneg.
Qed.

Section PreservedTopology.

Variable d : nat.

(** The optimizer updates the values of the parameters and nothing else. *)
Hypothesis backward_step_topology :
  forall m o k1 k2 b, topology d m -> topology d (fst (backward_step m o k1 k2 b)).

Lemma train_steps_exist (rnd : draws) (ibs : list (nat * TensorDataset))
  (s : WineQualityNet * OptState) :
  topology d (fst s) ->
  (forall ib, In ib ibs -> snd ib <> [] /\ has_width d (batch_X (snd ib)) = true) ->
  exists ls s',
    train_steps backward_step rnd s ibs ls s' /\
    topology d (fst s') /\ Forall (fun l => 0 <= l) ls.
Proof.
  revert s. induction ibs as [ | [i b] ibs IH]; intros s Ht Hb.
  - exists [], s. split; [constructor | split; [exact Ht | constructor]].
  - destruct (Hb (i, b) (or_introl eq_refl)) as [Hne Hw]. cbn [snd] in Hne, Hw.
    destruct (batch_loss_returns d (fst s) (keep1 rnd i) (keep2 rnd i) b Ht Hne Hw)
      as (l & Hl).
    destruct (IH (backward_step (fst s) (snd s) (keep1 rnd i) (keep2 rnd i) b))
      as (ls & s' & Hsteps & Ht' & Hpos).
    + now apply backward_step_topology.
    + intros ib Hin. apply Hb. now right.
    + exists (l :: ls), s'. split; [now constructor | split; [exact Ht' | ]].
      constructor; [ | exact Hpos]. exact (batch_loss_nonneg _ _ _ _ _ Hl).
Qed.

Lemma train_epoch_ok (dl : DataLoader) (rnd : draws) (s : WineQualityNet * OptState) :
  topology d (fst s) ->
  (1 <= batch_size dl)%nat ->
  dataset dl <> [] ->
  has_width d (map fst (dataset dl)) = true ->
  exists ls s',
    train_epoch backward_step dl rnd s = (Ok (sum ls / INR (len dl)), s') /\
    train_steps backward_step rnd (train (fst s), snd s)
      (combine (seq 0 (length (batches dl (order rnd)))) (batches dl (order rnd)))
      ls s' /\
    topology d (fst s') /\ Forall (fun l => 0 <= l) ls.
Proof.
  intros Ht Hbs Hne Hw.
  destruct (train_steps_exist rnd
              (combine (seq 0 (length (batches dl (order rnd)))) (batches dl (order rnd)))
              (train (fst s), snd s) Ht) as (ls & s' & Hsteps & Ht' & Hpos).
  - intros [i b] Hin. apply in_combine_r in Hin. cbn [snd]. split.
    + exact (proj1 (Forall_forall _ _) (batches_nonempty dl (order rnd) Hbs) b Hin).
    + apply has_width_forall. intros r Hr.
      apply in_map_iff in Hr. destruct Hr as (x & <- & Hx).
      apply (has_width_In d (map fst (dataset dl)) (fst x) Hw).
      apply in_map. exact (batches_In dl (order rnd) b x Hin Hx).
  - exists ls, s'. split; [ | split; [exact Hsteps | split; assumption]].
    apply (train_epoch_value OptState backward_step dl rnd ls s s' Hsteps).
    now apply len_positive.
Qed.

(** X16.  With an optimizer that keeps the layer sizes, a training pass
    over a loader that holds at least one sample of the width the model
    expects returns: it takes one optimizer step per batch, [len] of them,
    each on the model as the previous step left it; what it returns is the
    sum of the batch losses over the number of batches, which is not
    negative; and the model keeps its layer sizes. *)
Theorem train_epoch_returns (dl : DataLoader) (rnd : draws)
  (s : WineQualityNet * OptState) :
  topology d (fst s) ->
  (1 <= batch_size dl)%nat ->
  order_ok dl (order rnd) ->
  dataset dl <> [] ->
  has_width d (map fst (dataset dl)) = true ->
  exists ls s',
    train_epoch backward_step dl rnd s = (Ok (sum ls / INR (len dl)), s') /\
    train_steps backward_step rnd (train (fst s), snd s)
      (combine (seq 0 (length (batches dl (order rnd)))) (batches dl (order rnd)))
      ls s' /\
    length ls = len dl /\
    0 <= sum ls / INR (len dl) /\
    topology d (fst s').
Proof.
  intros Ht Hbs Hord Hne Hw.
  destruct (train_epoch_ok dl rnd s Ht Hbs Hne Hw) as (ls & s' & Hrun & Hsteps & Ht' & Hpos).
  exists ls, s'. split; [exact Hrun | split; [exact Hsteps | ]].
  assert (Hlen : length ls = len dl).
  { rewrite (train_steps_length OptState backward_step rnd _ ls _ s' Hsteps).
    rewrite length_combine, length_seq, Nat.min_id.
    exact (batches_length dl (order rnd) Hbs Hord). }
  split; [exact Hlen | split; [ | exact Ht']].
  apply Rmult_le_pos; [now apply sum_nonneg | ].
  left. apply Rinv_0_lt_compat, lt_0_INR.
  pose proof (len_positive dl Hbs Hne). lia.
Qed.

End PreservedTopology.

(** X17.  A training pass over a loader without samples raises
    [ZeroDivisionError]: no optimizer step is taken, and the model is left
    in training mode with the parameters it had. *)
Theorem train_epoch_empty_loader (dl : DataLoader) (rnd : draws)
  (s : WineQualityNet * OptState) :
  dataset dl = [] ->
  train_epoch backward_step dl rnd s =
  (Raise ZeroDivisionError, (train (fst s), snd s)) /\
  parameters (fst (snd (train_epoch backward_step dl rnd s))) = parameters (fst s).
Proof.
  intros Hempty.
  destruct (batches_empty_dataset dl (order rnd) Hempty) as [Hb Hl].
  assert (H : train_epoch backward_step dl rnd s =
              (Raise ZeroDivisionError, (train (fst s), snd s))).
  { unfold train_epoch. rewrite Hb, Hl. reflexivity. }
  split; [exact H | ]. rewrite H. reflexivity.
Qed.

(** One turn of the epoch loop in one piece. *)
Lemma epoch_unfold (train_loader val_loader : DataLoader) (rnd : draws)
  (val_order : list nat) (s : run OptState) :
  epoch backward_step train_loader val_loader rnd val_order s =
  match train_epoch backward_step train_loader rnd (model s, optimizer s) with
  | (Raise e, mo) =>
      (Raise e, {| model := fst mo; optimizer := snd mo;
                   train_losses := train_losses s; val_losses := val_losses s |})
  | (Ok a, mo) =>
      match fst (validate val_loader val_order (fst mo)) with
      | Ok v =>
          (Ok tt, {| model := eval (fst mo); optimizer := snd mo;
                     train_losses := train_losses s ++ [a];
                     val_losses := val_losses s ++ [v] |})
      | Raise e =>
          (Raise e, {| model := eval (fst mo); optimizer := snd mo;
                       train_losses := train_losses s ++ [a];
                       val_losses := val_losses s |})
      end
  end.
Proof.
  unfold epoch. unfold mbind at 1. unfold on_model_optimizer at 1, zoom at 1.
  destruct (train_epoch backward_step train_loader rnd (model s, optimizer s))
    as [[a | e] mo]; [ | reflexivity].
  unfold mbind at 1. unfold modify at 1. unfold mbind at 1.
  unfold on_model, zoom. cbn [model].
  rewrite validate_unfold. cbn [fst].
  match goal with
  | |- context [match ?r with Ok _ => _ | Raise _ => _ end] => destruct r as [t | e]
  end; [destruct (len val_loader =? 0)%nat | ]; reflexivity.
Qed.

(** One turn of the epoch loop ends in one of three ways. *)
Lemma epoch_cases (train_loader val_loader : DataLoader) (rnd : draws)
  (val_order : list nat) (s : run OptState) :
  let r := epoch backward_step train_loader val_loader rnd val_order s in
  (exists a v, fst r = Ok tt /\
     train_losses (snd r) = train_losses s ++ [a] /\
     val_losses (snd r) = val_losses s ++ [v] /\
     training (model (snd r)) = false) \/
  (exists e, fst r = Raise e /\
     train_losses (snd r) = train_losses s /\
     val_losses (snd r) = val_losses s) \/
  (exists e a, fst r = Raise e /\
     train_losses (snd r) = train_losses s ++ [a] /\
     val_losses (snd r) = val_losses s).
Proof.
  cbv zeta. rewrite epoch_unfold.
  destruct (train_epoch backward_step train_loader rnd (model s, optimizer s))
    as [[a | e] mo].
  - destruct (fst (validate val_loader val_order (fst mo))) as [v | e].
    + left. exists a, v. cbn. auto.
    + right. right. exists e, a. cbn. auto.
  - right. left. exists e. cbn. auto.
Qed.

(** X18.  Whatever the optimizer does and however the loop ends, the epoch
    loop only appends to the two loss histories: after a loop that
    returns, each history has grown by one entry per epoch; after a loop
    that raises, the validation history has grown by fewer entries than
    there are epochs, and the training history by as many or one more. *)
Theorem training_loop_histories (train_loader val_loader : DataLoader)
  (rnds : list (draws * list nat)) (s : run OptState) :
  let r := Loop.training_loop backward_step train_loader val_loader rnds s in
  exists tl vl,
    train_losses (snd r) = train_losses s ++ tl /\
    val_losses (snd r) = val_losses s ++ vl /\
    (fst r = Ok tt -> length tl = length rnds /\ length vl = length rnds) /\
    (forall e, fst r = Raise e ->
       (length vl < length rnds)%nat /\
       (length tl = length vl \/ length tl = S (length vl))).
Proof.
  cbv zeta. revert s. induction rnds as [ | rnd rnds IH]; intros s.
  - exists [], []. cbn. rewrite !app_nil_r.
    split; [reflexivity | split; [reflexivity | split]].
    + intros _. now split.
    + intros e H. discriminate H.
  - cbn [Loop.training_loop]. unfold mbind.
    pose proof (epoch_cases train_loader val_loader (fst rnd) (snd rnd) s) as Hc.
    cbv zeta in Hc.
    destruct (epoch backward_step train_loader val_loader (fst rnd) (snd rnd) s)
      as [[[] | e0] s1]; cbn [fst snd] in Hc |- *.
    + destruct Hc as [(a & v & _ & Ha & Hv & _) | [(e & He & _) | (e & a & He & _)]];
        try discriminate He.
      destruct (IH s1) as (tl & vl & Htl & Hvl & Hok & Herr).
      exists (a :: tl), (v :: vl).
      rewrite Htl, Hvl, Ha, Hv, <- !app_assoc. cbn [app length].
      split; [reflexivity | split; [reflexivity | split]].
      * intros H. destruct (Hok H). split; congruence.
      * intros e H. destruct (Herr e H) as [H1 H2]. split; [lia | lia].
    + destruct Hc as [(a & v & He & _) | [(e' & _ & Ha & Hv) | (e' & a & _ & Ha & Hv)]];
        try discriminate He.
      * exists [], []. rewrite Ha, Hv, !app_nil_r. cbn [length].
        split; [reflexivity | split; [reflexivity | split]].
        -- intros H. discriminate H.
        -- intros _ _. split; [lia | now left].
      * exists [a], []. rewrite Ha, Hv, !app_nil_r. cbn [length].
        split; [reflexivity | split; [reflexivity | split]].
        -- intros H. discriminate H.
        -- intros _ _. split; [lia | now right].
Qed.

Section LoopReturns.

Variable d : nat.

Hypothesis backward_step_topology :
  forall m o k1 k2 b, topology d m -> topology d (fst (backward_step m o k1 k2 b)).

Lemma losses_nonneg (m : WineQualityNet) (bs : list TensorDataset) (ls : list R) :
  Forall2 (fun b l => batch_loss m no_draw no_draw b = Ok l) bs ls ->
  Forall (fun l => 0 <= l) ls.
Proof.
  induction 1 as [ | b l bs ls Hb _ IH]; constructor; [ | exact IH].
  exact (batch_loss_nonneg _ _ _ _ _ Hb).
Qed.

Lemma validate_ok_nonneg (m : WineQualityNet) (dl : DataLoader) (order : list nat) :
  topology d m ->
  (1 <= batch_size dl)%nat ->
  dataset dl <> [] ->
  has_width d (map fst (dataset dl)) = true ->
  exists v, validate dl order m = (Ok v, eval m) /\ 0 <= v.
Proof.
  intros Ht Hbs Hne Hw. rewrite validate_unfold.
  destruct (batches_have_losses d (eval m) dl order Ht Hbs Hw) as (ls & Hls).
  rewrite (validate_loop_value _ _ _ _ Hls).
  pose proof (len_positive dl Hbs Hne) as Hlen.
  destruct (Nat.eqb_spec (len dl) 0) as [E | _]; [contradiction | ].
  eexists. split; [reflexivity | ].
  apply Rmult_le_pos.
  - pose proof (sum_nonneg ls (losses_nonneg _ _ _ Hls)). lra.
  - left. apply Rinv_0_lt_compat, lt_0_INR. lia.
Qed.

Lemma epoch_ok (train_loader val_loader : DataLoader) (rnd : draws)
  (val_order : list nat) (s : run OptState) :
  topology d (model s) ->
  (1 <= batch_size train_loader)%nat ->
  dataset train_loader <> [] ->
  has_width d (map fst (dataset train_loader)) = true ->
  (1 <= batch_size val_loader)%nat ->
  dataset val_loader <> [] ->
  has_width d (map fst (dataset val_loader)) = true ->
  exists a v s',
    epoch backward_step train_loader val_loader rnd val_order s = (Ok tt, s') /\
    topology d (model s') /\ training (model s') = false /\
    train_losses s' = train_losses s ++ [a] /\
    val_losses s' = val_losses s ++ [v] /\
    0 <= a /\ 0 <= v.
Proof.
  intros Ht Hbs Hne Hw Hbs' Hne' Hw'. rewrite epoch_unfold.
  destruct (train_epoch_ok d backward_step_topology train_loader rnd
              (model s, optimizer s) Ht Hbs Hne Hw)
    as (ls & s1 & Hrun & _ & Ht1 & Hpos).
  rewrite Hrun.
  destruct (validate_ok_nonneg (fst s1) val_loader val_order Ht1 Hbs' Hne' Hw')
    as (v & Hv & Hvpos).
  rewrite Hv. cbn [fst].
  eexists _, v, _. split; [reflexivity | ]. cbn [model train_losses val_losses].
  split; [exact Ht1 | ]. split; [reflexivity | ].
  split; [reflexivity | ]. split; [reflexivity | ]. split; [ | exact Hvpos].
  apply Rmult_le_pos; [now apply sum_nonneg | ].
  left. apply Rinv_0_lt_compat, lt_0_INR.
  pose proof (len_positive train_loader Hbs Hne). lia.
Qed.

(** X19.  With an optimizer that keeps the layer sizes, and a training
    loader and a validation loader that each hold at least one sample of
    the width the model expects, the epoch loop runs through all its
    epochs: it returns, every loss it records is non-negative, the model
    keeps its layer sizes, and after at least one epoch the model is left
    in evaluation mode. *)
Theorem training_loop_returns (train_loader val_loader : DataLoader)
  (rnds : list (draws * list nat)) (s : run OptState) :
  topology d (model s) ->
  (1 <= batch_size train_loader)%nat ->
  dataset train_loader <> [] ->
  has_width d (map fst (dataset train_loader)) = true ->
  (1 <= batch_size val_loader)%nat ->
  dataset val_loader <> [] ->
  has_width d (map fst (dataset val_loader)) = true ->
  exists s' tl vl,
    Loop.training_loop backward_step train_loader val_loader rnds s = (Ok tt, s') /\
    topology d (model s') /\
    (rnds <> [] -> training (model s') = false) /\
    train_losses s' = train_losses s ++ tl /\
    val_losses s' = val_losses s ++ vl /\
    Forall (fun l => 0 <= l) tl /\ Forall (fun l => 0 <= l) vl.
Proof.
  intros Ht Hbs Hne Hw Hbs' Hne' Hw'. revert s Ht.
  induction rnds as [ | rnd rnds IH]; intros s Ht.
  - exists s, [], []. cbn. rewrite !app_nil_r.
    split; [reflexivity | split; [exact Ht | split]].
    + intros H. now contradiction H.
    + repeat split; constructor.
  - cbn [Loop.training_loop]. unfold mbind.
    destruct (epoch_ok train_loader val_loader (fst rnd) (snd rnd) s
                Ht Hbs Hne Hw Hbs' Hne' Hw')
      as (a & v & s1 & Hrun & Ht1 & Hm1 & Ha & Hv & Hapos & Hvpos).
    rewrite Hrun.
    destruct (IH s1 Ht1) as (s' & tl & vl & Hloop & Ht' & Hm' & Htl & Hvl & Hpt & Hpv).
    exists s', (a :: tl), (v :: vl).
    split; [exact Hloop | split; [exact Ht' | split]].
    + intros _. destruct rnds as [ | rnd' rnds'].
      * cbn in Hloop. inversion Hloop; subst s'. exact Hm1.
      * apply Hm'. discriminate.
    + rewrite Htl, Hvl, Ha, Hv, <- !app_assoc. cbn [app].
      split; [reflexivity | split; [reflexivity | split]]; now constructor.
Qed.

End LoopReturns.

End TrainMore.

Lemma idle_step_topology (d : nat) (m : Net.WineQualityNet) (o : unit)
  (k1 k2 : Net.mask) (b : Train.TensorDataset) :
  Net.topology d m -> Net.topology d (fst (Samples.idle_step m o k1 k2 b)).
Proof. intros H. exact H. Qed.

Lemma train_epoch_returns_witness :
  exists ls s',
    Train.train_epoch Samples.idle_step Samples.even_loader Samples.plain_draws
      (Examples.zero_model, tt) =
    (Ok (Tensor.sum ls / INR (Train.len Samples.even_loader))%R, s') /\
    Train.train_steps Samples.idle_step Samples.plain_draws
      (Net.train Examples.zero_model, tt)
      (combine (seq 0 (length (Train.batches Samples.even_loader [])))
               (Train.batches Samples.even_loader []))
      ls s' /\
    length ls = Train.len Samples.even_loader /\
    (0 <= Tensor.sum ls / INR (Train.len Samples.even_loader))%R /\
    Net.topology 2 (fst s').
Proof.
  refine (train_epoch_returns unit Samples.idle_step 2 (idle_step_topology 2)
            Samples.even_loader Samples.plain_draws (Examples.zero_model, tt)
            (WineQualityNet_new_topology Examples.zero_init 2) _ _ _ eq_refl).
  - cbn. lia.
  - intros H. discriminate H.
  - discriminate.
Defined.

Lemma train_epoch_empty_loader_witness :
  Train.train_epoch Samples.idle_step Examples.empty_loader Samples.plain_draws
    (Examples.zero_model, tt) =
  (Raise ZeroDivisionError, (Net.train Examples.zero_model, tt)).
Proof.
  exact (proj1 (train_epoch_empty_loader unit Samples.idle_step Examples.empty_loader
                  Samples.plain_draws (Examples.zero_model, tt) eq_refl)).
Defined.

Lemma training_loop_returns_witness :
  exists s' tl vl,
    Loop.training_loop Samples.idle_step Samples.even_loader Samples.even_loader
      [(Samples.plain_draws, [])] Samples.fresh_run = (Ok tt, s') /\
    Net.topology 2 (Train.model s') /\
    ([(Samples.plain_draws, @nil nat)] <> [] -> Net.training (Train.model s') = false) /\
    Train.train_losses s' = Train.train_losses Samples.fresh_run ++ tl /\
    Train.val_losses s' = Train.val_losses Samples.fresh_run ++ vl /\
    Forall (fun l => 0 <= l)%R tl /\ Forall (fun l => 0 <= l)%R vl.
Proof.
  refine (training_loop_returns unit Samples.idle_step 2 (idle_step_topology 2)
            Samples.even_loader Samples.even_loader [(Samples.plain_draws, [])]
            Samples.fresh_run (WineQualityNet_new_topology Examples.zero_init 2)
            _ _ eq_refl _ _ eq_refl).
  - cbn. lia.
  - discriminate.
  - cbn. lia.
  - discriminate.
Defined.

(** ** Loading a state dict into a model of another size *)

Section PersistMore.

Import Tensor Net Train Persist.

Lemma same_shape_false (s t : tensor) :
  tensor_shape s <> tensor_shape t -> same_shape s t = false.
Proof.
  intros H. unfold same_shape.
  destruct (list_eq_dec Nat.eq_dec (tensor_shape s) (tensor_shape t));
    [contradiction | reflexivity].
Qed.

Lemma ncols_first_weight (d : nat) (m : WineQualityNet) :
  topology d m -> ncols (weight (fc1 m)) = d.
Proof.
  intros ((I1 & O1 & (Lw & Ww & _)) & _).
  rewrite <- I1. apply ncols_of_width; [ | exact Ww].
  intros E. rewrite E in Lw. cbn in Lw. lia.
Qed.

(** X20.  A state dict taken from a model for [d] features loads into a
    freshly built [WineQualityNet(d')] exactly when [d' = d]: then the
    result has the saved parameters, whatever the fresh model was
    initialised with; otherwise [load_state_dict] raises [RuntimeError]
    for the size mismatch of the first layer. *)
Theorem load_state_dict_input_dim (init : nat -> initializer) (d d' : nat)
  (m : WineQualityNet) :
  topology d m ->
  (d' = d ->
   load_state_dict (WineQualityNet_new init d') (state_dict m) = Ok (train m)) /\
  (d' <> d ->
   load_state_dict (WineQualityNet_new init d') (state_dict m) = Raise RuntimeError).
Proof.
  intros Ht. split.
  - intros ->. exact (load_state_dict_own init d m Ht).
  - intros Hd.
    pose proof (ncols_first_weight d m Ht) as Hm.
    pose proof (ncols_first_weight d' _ (WineQualityNet_new_topology init d')) as Hf.
    unfold load_state_dict.
    replace (forallb (fun kv => mem (fst kv) parameter_names) (state_dict m)) with true
      by reflexivity.
    cbn [negb]. unfold load_layer at 1, load_weight at 1.
    replace (lookup ("fc1" ++ ".weight") (state_dict m))
      with (Some (T2 (weight (fc1 m)))) by reflexivity.
    rewrite same_shape_false; [reflexivity | ].
    cbn [tensor_shape]. rewrite Hm, Hf. intros E. inversion E. now apply Hd.
Qed.

End PersistMore.

Lemma load_state_dict_input_dim_witness :
  Persist.load_state_dict (Net.WineQualityNet_new Examples.zero_init 3)
    (Persist.state_dict Examples.zero_model) = Raise RuntimeError.
Proof.
  refine (proj2 (load_state_dict_input_dim Examples.zero_init 2 3 Examples.zero_model
                   (WineQualityNet_new_topology Examples.zero_init 2)) _).
  discriminate.
Defined.

(** ** The data preparation as a whole *)

(** As for the scaler alone, the statements are made for tables with at
    least one feature column beside [quality]. *)

Section PrepareFacts.

Import Tensor Split Train Prepare.

Variable rng_permutation : nat -> list nat.
Hypothesis rng_permutation_ok :
  forall n, Permutation (rng_permutation n) (seq 0 n).

Lemma validate_shuffle_split_raises (n : nat) (q : Q) (e : exn) :
  validate_shuffle_split n q = Raise e -> e = ValueError.
Proof.
  unfold validate_shuffle_split.
  destruct (Qle_bool q 0 || Qle_bool 1 q); [intros H; now inversion H | ].
  cbv zeta. destruct (_ =? 0); intros H; [now inversion H | discriminate H].
Qed.

(** The held-out part of a split that returns is not empty. *)
Lemma validate_shuffle_split_test_positive (n : nat) (q : Q) (n_train n_test : nat) :
  validate_shuffle_split n q = Ok (n_train, n_test) -> 0 < n_test.
Proof.
  unfold validate_shuffle_split.
  destruct (Qle_bool q 0) eqn:E0; [discriminate | ].
  destruct (Qle_bool 1 q); [discriminate | ]. cbn [orb]. cbv zeta.
  destruct (Nat.eqb_spec (n - Z.to_nat (Qceiling (q * inject_Z (Z.of_nat n)))) 0)
    as [ | Hn]; [discriminate | ].
  intros H. inversion H; subst; clear H.
  assert (Hq : (0 < q)%Q).
  { apply Qnot_le_lt. intros Hle. apply Qle_bool_iff in Hle. congruence. }
  assert (Hz : (0 < inject_Z (Z.of_nat n))%Q).
  { unfold Qlt, inject_Z. cbn. lia. }
  pose proof (Qmult_lt_0_compat _ _ Hq Hz) as Hp.
  pose proof (Qle_ceiling (q * inject_Z (Z.of_nat n))) as Hc.
  pose proof (Qlt_le_trans _ _ _ Hp Hc) as Hpos.
  set (c := Qceiling (q * inject_Z (Z.of_nat n))) in *.
  unfold Qlt in Hpos. cbn [inject_Z Qnum Qden] in Hpos. lia.
Qed.

Lemma train_test_split_raises {A B : Type} (X : list A) (y : list B) (q : Q) (e : exn) :
  train_test_split rng_permutation X y q = Raise e -> e = ValueError.
Proof.
  destruct (Nat.eq_dec (length X) (length y)) as [Hy | Hy].
  - destruct (validate_shuffle_split (length X) q) as [[a b] | e'] eqn:Hv.
    + destruct (train_test_split_returns rng_permutation rng_permutation_ok
                  X y q a b (eq_sym Hy) Hv) as (? & ? & ? & ? & ->).
      discriminate.
    + unfold train_test_split. rewrite Hv.
      destruct (negb (length X =? length y)); intros H; inversion H;
        [reflexivity | ]. subst. exact (validate_shuffle_split_raises _ _ _ Hv).
  - rewrite (train_test_split_mismatch rng_permutation X y q Hy).
    intros H. now inversion H.
Qed.

(** What one split hands back: rows of its input, targets in step with
    them, and two parts that are not empty. *)
Lemma train_test_split_parts {A B : Type} (X : list A) (y : list B) (q : Q)
  (X_tr X_te : list A) (y_tr y_te : list B) :
  train_test_split rng_permutation X y q = Ok (X_tr, X_te, y_tr, y_te) ->
  (forall r, In r X_tr \/ In r X_te -> In r X) /\
  (length y_tr = length X_tr /\ length y_te = length X_te) /\
  (X_tr <> [] /\ X_te <> []) /\
  length X_tr + length X_te = length X /\
  exists n_test, validate_shuffle_split (length X) q = Ok (length X_tr, n_test).
Proof.
  intros H.
  destruct (train_test_split_indices rng_permutation rng_permutation_ok
              _ _ _ _ _ _ _ H) as (a & b & Hv & Hy & E1 & E2 & _).
  destruct (train_test_split_lengths rng_permutation rng_permutation_ok
              _ _ _ _ _ _ _ _ _ Hv H) as [[L1 L2] [L3 L4]].
  destruct (validate_shuffle_split_sizes _ _ _ _ Hv) as [Hsum Htr].
  pose proof (validate_shuffle_split_test_positive _ _ _ _ Hv) as Hte.
  split; [ | split; [ | split; [ | split]]].
  - intros r [Hr | Hr]; [rewrite E1 in Hr | rewrite E2 in Hr];
      exact (In_pick _ _ _ Hr).
  - split; congruence.
  - split; intros E; rewrite E in *; cbn in *; lia.
  - lia.
  - exists b. now rewrite L1.
Qed.

Lemma main_split_raises {A B : Type} (X : list A) (y : list B) (q : Q) (e : exn) :
  main_split rng_permutation X y q = Raise e -> e = ValueError.
Proof.
  unfold main_split.
  destruct (train_test_split rng_permutation X y q)
    as [[[[X_tr X_te] y_tr] y_te] | e1] eqn:H1; cbn [bind].
  - destruct (train_test_split rng_permutation X_tr y_tr (1 # 5))
      as [[[[X_trf X_va] y_trf] y_va] | e2] eqn:H2; cbn [bind].
    + discriminate.
    + intros H. inversion H; subst. exact (train_test_split_raises _ _ _ _ H2).
  - intros H. inversion H; subst. exact (train_test_split_raises _ _ _ _ H1).
Qed.

Lemma main_split_parts {A B : Type} (X : list A) (y : list B) (q : Q)
  (p : partitions A B) :
  main_split rng_permutation X y q = Ok p ->
  (forall r, In r (X_train_final p) \/ In r (X_val p) \/ In r (X_test p) -> In r X) /\
  (length (y_train_final p) = length (X_train_final p) /\
   length (y_val p) = length (X_val p) /\
   length (y_test p) = length (X_test p)) /\
  (X_train_final p <> [] /\ X_val p <> [] /\ X_test p <> []) /\
  length (X_train_final p) + length (X_val p) + length (X_test p) = length X /\
  exists n_rest n_test,
    validate_shuffle_split (length X) q = Ok (n_rest, n_test) /\ 2 <= n_rest.
Proof.
  intros H. unfold main_split in H.
  apply bind_ok in H. destruct H as ([[[X_tr X_te] y_tr] y_te] & H1 & H).
  apply bind_ok in H. destruct H as ([[[X_trf X_va] y_trf] y_va] & H2 & H).
  inversion H; subst p; clear H.
  cbn [X_test y_test X_val y_val X_train_final y_train_final].
  destruct (train_test_split_parts _ _ _ _ _ _ _ H1)
    as (In1 & [Ly1 Ly1'] & [N1 N1'] & S1 & (b1 & Hv1)).
  destruct (train_test_split_parts _ _ _ _ _ _ _ H2)
    as (In2 & [Ly2 Ly2'] & [N2 N2'] & S2 & _).
  split; [ | split; [ | split; [ | split]]].
  - intros r [Hr | [Hr | Hr]]; apply In1; auto.
  - auto.
  - auto.
  - lia.
  - exists (length X_tr), b1. split; [exact Hv1 | ].
    destruct (Nat.le_gt_cases (length X_tr) 1) as [Hle | Hgt]; [ | lia].
    rewrite (train_test_split_too_few rng_permutation X_tr y_tr Hle) in H2.
    discriminate H2.
Qed.

Lemma main_split_returns {A B : Type} (X : list A) (y : list B) (q : Q)
  (n_rest n_test : nat) :
  length y = length X ->
  validate_shuffle_split (length X) q = Ok (n_rest, n_test) -> 2 <= n_rest ->
  exists p, main_split rng_permutation X y q = Ok p.
Proof.
  intros Hy Hv Hn. unfold main_split.
  destruct (train_test_split_returns rng_permutation rng_permutation_ok
              X y q _ _ Hy Hv) as (X_tr & X_te & y_tr & y_te & H1).
  rewrite H1. cbn [bind].
  destruct (train_test_split_lengths rng_permutation rng_permutation_ok
              _ _ _ _ _ _ _ _ _ Hv H1) as [[L1 _] [L3 _]].
  destruct (train_test_split_fifth rng_permutation rng_permutation_ok X_tr y_tr)
    as (X_trf & X_va & y_trf & y_va & -> & _); [congruence | lia | ].
  cbn [bind]. now eexists.
Qed.

(** The separation of a well-formed table with a [quality] column. *)
Lemma separate_ok (wine_data : Frame.DataFrame) :
  Frame.frame_ok wine_data ->
  In "quality"%string (Frame.columns wine_data) ->
  exists sp, Frame.separate wine_data = Some sp /\
    length (Frame.y sp) = length (Frame.X sp) /\
    length (Frame.X sp) = length (Frame.values wine_data) /\
    has_width (length (Frame.columns wine_data) - 1) (Frame.X sp) = true.
Proof.
  intros [Hnd Hw] Hin.
  unfold Frame.separate, Frame.drop_values, Frame.getitem_values.
  destruct (Frame.index_of "quality"%string (Frame.columns wine_data)) as [j | ] eqn:Ej.
  - eexists. split; [reflexivity | ]. cbn [Frame.X Frame.y].
    rewrite !length_map. split; [reflexivity | split; [reflexivity | ]].
    apply has_width_forall. intros r Hr.
    apply in_map_iff in Hr. destruct Hr as (row & <- & Hrow).
    destruct (drop_entries_split "quality"%string (Frame.columns wine_data) row j Hnd Ej
                (has_width_In _ _ row Hw Hrow)) as [Hl _].
    lia.
  - exfalso. now apply (proj1 (index_of_None "quality"%string (Frame.columns wine_data)) Ej).
Qed.

Lemma separate_missing (wine_data : Frame.DataFrame) :
  ~ In "quality"%string (Frame.columns wine_data) -> Frame.separate wine_data = None.
Proof.
  intros Hout. unfold Frame.separate, Frame.drop_values.
  now rewrite (proj2 (index_of_None "quality"%string (Frame.columns wine_data)) Hout).
Qed.

Lemma length_scale_row (s : Scaler.fitted) (row : list R) (d : nat) :
  length (Scaler.mean_ s) = d -> length (Scaler.scale_ s) = d -> length row = d ->
  length (Scaler.scale_row s row) = d.
Proof.
  intros Hm Hs Hr. unfold Scaler.scale_row.
  rewrite length_map, !length_combine. lia.
Qed.

(** The standardising block on three parts of one width, none empty. *)
Lemma standardize_returns {B : Type} (p : partitions (list R) B) (d : nat) :
  X_train_final p <> [] -> X_val p <> [] -> X_test p <> [] ->
  has_width d (X_train_final p) = true ->
  has_width d (X_val p) = true ->
  has_width d (X_test p) = true ->
  exists st,
    Scaler.standardize p = Ok st /\
    length (Scaler.X_train_scaled st) = length (X_train_final p) /\
    length (Scaler.X_val_scaled st) = length (X_val p) /\
    length (Scaler.X_test_scaled st) = length (X_test p) /\
    has_width d (Scaler.X_train_scaled st) = true /\
    has_width d (Scaler.X_val_scaled st) = true /\
    has_width d (Scaler.X_test_scaled st) = true.
Proof.
  intros N1 N2 N3 W1 W2 W3.
  destruct (fit_nonempty (X_train_final p) N1) as (s & Hfit & Hlen).
  pose proof (ncols_of_width d (X_train_final p) N1 W1) as Hd.
  rewrite Hd in Hlen.
  destruct (fit_widths _ _ Hfit) as [_ Hsc]. rewrite Hd in Hsc.
  assert (Hst : Scaler.standardize p =
                Ok {| Scaler.scaler := Some s;
                      Scaler.X_train_scaled := map (Scaler.scale_row s) (X_train_final p);
                      Scaler.X_val_scaled := map (Scaler.scale_row s) (X_val p);
                      Scaler.X_test_scaled := map (Scaler.scale_row s) (X_test p) |}).
  { unfold Scaler.standardize, Scaler.fit_transform. rewrite Hfit. cbn [bind].
    destruct (transform_fitted s (X_train_final p)) as [(_ & _ & ->) | ([F | F] & _)];
      [ | contradiction | rewrite Hlen, W1 in F; discriminate F].
    cbn [bind].
    destruct (transform_fitted s (X_val p)) as [(_ & _ & ->) | ([F | F] & _)];
      [ | contradiction | rewrite Hlen, W2 in F; discriminate F].
    cbn [bind].
    destruct (transform_fitted s (X_test p)) as [(_ & _ & ->) | ([F | F] & _)];
      [ | contradiction | rewrite Hlen, W3 in F; discriminate F].
    reflexivity. }
  eexists. split; [exact Hst | ].
  cbn [Scaler.X_train_scaled Scaler.X_val_scaled Scaler.X_test_scaled].
  rewrite !length_map.
  assert (Hrows : forall X, has_width d X = true ->
                  has_width d (map (Scaler.scale_row s) X) = true).
  { intros X HX. apply has_width_forall. intros r Hr.
    apply in_map_iff in Hr. destruct Hr as (row & <- & Hrow).
    apply (length_scale_row s row d Hlen Hsc).
    exact (has_width_In d X row HX Hrow). }
  repeat split; auto.
Qed.

Lemma has_width_combine (d : nat) (Xs : list (list R)) (ys : list R) :
  has_width d Xs = true -> has_width d (map fst (combine Xs ys)) = true.
Proof.
  intros H. apply has_width_forall. intros r Hr.
  apply in_map_iff in Hr. destruct Hr as ([x t] & <- & Hxy).
  apply in_combine_l in Hxy. exact (has_width_In d Xs x H Hxy).
Qed.

(** The preparation after a separation and a split that returned. *)
Lemma prepare_data_returned (wine_data : Frame.DataFrame) (q : Q) (bs : nat)
  (sp : Frame.separated) (p : partitions (list R) R) :
  Frame.frame_ok wine_data ->
  Frame.separate wine_data = Some sp ->
  main_split rng_permutation (Frame.X sp) (Frame.y sp) q = Ok p ->
  exists st,
    prepare_data rng_permutation wine_data q bs =
    (if (bs =? 0)%nat then Failed (Exn ValueError) else Done (loaders_of p st bs)) /\
    ncols (X_train_final p) = length (Frame.columns wine_data) - 1 /\
    (length (Scaler.X_train_scaled st) = length (X_train_final p) /\
     length (Scaler.X_val_scaled st) = length (X_val p) /\
     length (Scaler.X_test_scaled st) = length (X_test p)) /\
    (has_width (length (Frame.columns wine_data) - 1) (Scaler.X_train_scaled st) = true /\
     has_width (length (Frame.columns wine_data) - 1) (Scaler.X_val_scaled st) = true /\
     has_width (length (Frame.columns wine_data) - 1) (Scaler.X_test_scaled st) = true) /\
    length (Frame.X sp) = length (Frame.values wine_data).
Proof.
  intros Hok Hsep Hms.
  assert (Hin : In "quality"%string (Frame.columns wine_data)).
  { destruct (in_dec string_dec "quality"%string (Frame.columns wine_data))
      as [H | H]; [exact H | ].
    rewrite (separate_missing wine_data H) in Hsep. discriminate Hsep. }
  destruct (separate_ok wine_data Hok Hin) as (sp' & Hsep' & Hy & Hx & Hw).
  rewrite Hsep in Hsep'. inversion Hsep'; subst sp'; clear Hsep'.
  set (d := length (Frame.columns wine_data) - 1) in *.
  destruct (main_split_parts _ _ _ _ Hms)
    as (Hrows & (Ly1 & Ly2 & Ly3) & (N1 & N2 & N3) & Hsum & _).
  assert (Hpart : forall part, (forall r, In r part -> In r (Frame.X sp)) ->
                  has_width d part = true).
  { intros part Hp. apply has_width_forall. intros r Hr.
    exact (has_width_In d (Frame.X sp) r Hw (Hp r Hr)). }
  assert (W1 : has_width d (X_train_final p) = true) by (apply Hpart; auto).
  assert (W2 : has_width d (X_val p) = true) by (apply Hpart; auto).
  assert (W3 : has_width d (X_test p) = true) by (apply Hpart; auto).
  destruct (standardize_returns p d N1 N2 N3 W1 W2 W3)
    as (st & Hst & L1 & L2 & L3 & S1 & S2 & S3).
  exists st. split; [ | split; [ | split; [ | split]]].
  - unfold prepare_data. rewrite Hsep. cbn [or_KeyError and_then].
    rewrite Hms. cbn [of_result and_then]. rewrite Hst. cbn [of_result and_then].
    unfold TensorDataset_new.
    rewrite (proj2 (Nat.eqb_eq _ _) (eq_trans L1 (eq_sym Ly1))). cbn [and_then].
    rewrite (proj2 (Nat.eqb_eq _ _) (eq_trans L2 (eq_sym Ly2))). cbn [and_then].
    rewrite (proj2 (Nat.eqb_eq _ _) (eq_trans L3 (eq_sym Ly3))). cbn [and_then].
    unfold DataLoader_new. destruct (bs =? 0)%nat; reflexivity.
  - exact (ncols_of_width d (X_train_final p) N1 W1).
  - auto.
  - auto.
  - exact Hx.
Qed.

(** X21.  For a well-formed table with at least one feature column, the
    data preparation of [main] returns its three loaders exactly when the
    table has a [quality] column, the first split is valid for the number
    of rows and leaves at least two rows for the second, and the batch
    size is positive.  A missing [quality] column is a [KeyError]; every
    other failure is a [ValueError], and the length check of
    [TensorDataset] never fails. *)
Theorem prepare_data_returns_iff (wine_data : Frame.DataFrame) (q : Q) (bs : nat) :
  Frame.frame_ok wine_data ->
  2 <= length (Frame.columns wine_data) ->
  ((exists r, prepare_data rng_permutation wine_data q bs = Done r) <->
   In "quality"%string (Frame.columns wine_data) /\
   (exists n_rest n_test,
      validate_shuffle_split (length (Frame.values wine_data)) q = Ok (n_rest, n_test) /\
      2 <= n_rest) /\
   1 <= bs) /\
  (forall f, prepare_data rng_permutation wine_data q bs = Failed f ->
     (f = KeyError /\ ~ In "quality"%string (Frame.columns wine_data)) \/
     (f = Exn ValueError /\ In "quality"%string (Frame.columns wine_data))).
Proof.
  intros Hok _.
  destruct (in_dec string_dec "quality"%string (Frame.columns wine_data))
    as [Hin | Hout].
  - destruct (separate_ok wine_data Hok Hin) as (sp & Hsep & Hy & Hx & Hw).
    destruct (main_split rng_permutation (Frame.X sp) (Frame.y sp) q)
      as [p | e] eqn:Hms.
    + destruct (prepare_data_returned wine_data q bs sp p Hok Hsep Hms)
        as (st & Hrun & _).
      destruct (main_split_parts _ _ _ _ Hms) as (_ & _ & _ & _ & Hv).
      rewrite Hx in Hv. rewrite Hrun.
      destruct (Nat.eqb_spec bs 0) as [E | N]; split.
      * split; [intros [r H]; discriminate H | intros (_ & _ & H); lia].
      * intros f H. inversion H. right. now split.
      * split; [intros _ | intros _; now eexists].
        split; [exact Hin | split; [exact Hv | lia]].
      * intros f H. discriminate H.
    + assert (Hrun : prepare_data rng_permutation wine_data q bs =
                     Failed (Exn ValueError)).
      { unfold prepare_data. rewrite Hsep. cbn [or_KeyError and_then].
        rewrite Hms. cbn [of_result and_then].
        now rewrite (main_split_raises _ _ _ _ Hms). }
      rewrite Hrun. split.
      * split; [intros [r H]; discriminate H | ].
        intros (_ & (n_rest & n_test & Hv & Hn) & _). exfalso.
        rewrite <- Hx in Hv.
        destruct (main_split_returns (Frame.X sp) (Frame.y sp) q n_rest n_test
                    Hy Hv Hn) as (p & Hp).
        rewrite Hp in Hms. discriminate Hms.
      * intros f H. inversion H. right. now split.
  - assert (Hrun : prepare_data rng_permutation wine_data q bs = Failed KeyError).
    { unfold prepare_data. now rewrite (separate_missing wine_data Hout). }
    rewrite Hrun. split.
    + split; [intros [r H]; discriminate H | intros (H & _); contradiction].
    + intros f H. inversion H. left. now split.
Qed.

(** X22.  When the data preparation of [main] returns, the three loaders
    share the given batch size, only the training loader shuffles, no
    loader is empty, together they hold as many samples as the table has
    rows, and every sample has [input_dim] features, the number of columns
    of the table less one: the width the model is then built for. *)
Theorem prepare_data_loaders (wine_data : Frame.DataFrame) (q : Q) (bs : nat)
  (r : prepared) :
  Frame.frame_ok wine_data ->
  2 <= length (Frame.columns wine_data) ->
  prepare_data rng_permutation wine_data q bs = Done r ->
  input_dim r = length (Frame.columns wine_data) - 1 /\
  (shuffle (train_loader r) = true /\ shuffle (val_loader r) = false /\
   shuffle (test_loader r) = false) /\
  (forall dl, In dl [train_loader r; val_loader r; test_loader r] ->
     batch_size dl = bs /\ 1 <= bs /\ dataset dl <> [] /\
     has_width (input_dim r) (map fst (dataset dl)) = true) /\
  length (dataset (train_loader r)) + length (dataset (val_loader r))
  + length (dataset (test_loader r)) = length (Frame.values wine_data).
Proof.
  intros Hok _ Hrun.
  destruct (Frame.separate wine_data) as [sp | ] eqn:Hsep;
    [ | unfold prepare_data in Hrun; rewrite Hsep in Hrun; discriminate Hrun].
  destruct (main_split rng_permutation (Frame.X sp) (Frame.y sp) q)
    as [p | e] eqn:Hms;
    [ | unfold prepare_data in Hrun; rewrite Hsep in Hrun;
        cbn [or_KeyError and_then] in Hrun; rewrite Hms in Hrun; discriminate Hrun].
  destruct (prepare_data_returned wine_data q bs sp p Hok Hsep Hms)
    as (st & Hrun' & Hd & (L1 & L2 & L3) & (S1 & S2 & S3) & Hx).
  rewrite Hrun' in Hrun.
  destruct (Nat.eqb_spec bs 0) as [E | N]; [discriminate Hrun | ].
  inversion Hrun; subst r; clear Hrun.
  destruct (main_split_parts _ _ _ _ Hms)
    as (_ & (Ly1 & Ly2 & Ly3) & (N1 & N2 & N3) & Hsum & _).
  unfold loaders_of.
  cbn [input_dim train_loader val_loader test_loader shuffle dataset batch_size].
  assert (Hlen : forall (Xs part : list (list R)) (ys : list R),
            length Xs = length part -> length ys = length part ->
            length (combine Xs ys) = length part)
    by (intros Xs part ys H1 H2; rewrite length_combine; lia).
  assert (Hne : forall (Xs part : list (list R)) (ys : list R),
            length Xs = length part -> length ys = length part -> part <> [] ->
            combine Xs ys <> []).
  { intros Xs part ys H1 H2 H3 E. apply H3.
    apply length_zero_iff_nil. rewrite <- (Hlen Xs part ys H1 H2), E. reflexivity. }
  split; [exact Hd | ]. split; [auto | ]. split.
  - rewrite Hd. intros dl [<- | [<- | [<- | []]]];
      cbn [batch_size dataset]; repeat split; try reflexivity; try lia;
      eauto using has_width_combine.
  - rewrite (Hlen _ _ _ L1 Ly1), (Hlen _ _ _ L2 Ly2), (Hlen _ _ _ L3 Ly3). lia.
Qed.

End PrepareFacts.

Lemma small_frame_quality :
  In "quality"%string (Frame.columns Samples.small_frame).
Proof. right. left. reflexivity. Qed.

Lemma prepare_data_returns_iff_witness :
  exists r,
    Prepare.prepare_data (fun n => seq 0 n) Samples.small_frame (1 # 5) 2 =
    Prepare.Done r.
Proof.
  apply (proj1 (prepare_data_returns_iff (fun n => seq 0 n)
                  (fun n => Permutation_refl (seq 0 n))
                  Samples.small_frame (1 # 5) 2 small_frame_ok ltac:(cbn; lia))).
  split; [exact small_frame_quality | ]. split; [ | lia].
  exists 4, 1. split; [reflexivity | lia].
Defined.

Lemma prepare_data_loaders_witness :
  exists r,
    Prepare.prepare_data (fun n => seq 0 n) Samples.small_frame (1 # 5) 2 =
    Prepare.Done r /\
    Prepare.input_dim r = 2.
Proof.
  destruct (separate_ok Samples.small_frame small_frame_ok small_frame_quality)
    as (sp & Hsep & Hy & Hx & _).
  assert (Hv : Split.validate_shuffle_split (length (Frame.X sp)) (1 # 5) = Ok (4, 1))
    by (rewrite Hx; reflexivity).
  destruct (main_split_returns (fun n => seq 0 n) (fun n => Permutation_refl (seq 0 n))
              (Frame.X sp) (Frame.y sp) (1 # 5) 4 1 Hy Hv ltac:(lia)) as (p & Hp).
  destruct (prepare_data_returned (fun n => seq 0 n)
              (fun n => Permutation_refl (seq 0 n))
              Samples.small_frame (1 # 5) 2 sp p small_frame_ok Hsep Hp)
    as (st & Hrun & _).
  exists (Prepare.loaders_of p st 2). split; [exact Hrun | ].
  exact (proj1 (prepare_data_loaders (fun n => seq 0 n)
                  (fun n => Permutation_refl (seq 0 n))
                  Samples.small_frame (1 # 5) 2 _ small_frame_ok ltac:(cbn; lia) Hrun)).
Defined.
